(** * A shallow embedding of the to-do list script (script.js)

    The script keeps one global array [todos], mirrors it into one
    [localStorage] slot as JSON text, and projects it into a list of [<li>]
    rows.  The embedding has three layers:

    - the platform: JS strings as sequences of UTF-16 code units, JSON values
      with [JSON.stringify] and [JSON.parse], property access, truthiness;
    - the script: its global state and its functions, written in a small
      state-and-exception monad;
    - the typed view: a collection of [Task] records and its image among the
      JS values, over which the specification is stated.

    A number is written by its exact decimal value.  The Number values of
    JS are the values binary64 holds: [JSON.parse] rounds a literal to the
    nearest of them and the conversion of a number to a string prints the
    shortest decimal that rounds back to it.  [NaN] is not a value of the
    script (no JSON text denotes it and the script does no arithmetic), and
    the negative zero is identified with zero, from which no operation of
    the script tells it apart.  [localStorage.setItem] is modelled without
    the quota of the storage. *)

From Stdlib Require Import ZArith NArith List Ascii Lia.
From Stdlib Require Import DecimalFacts DecimalPos DecimalN DecimalZ.
From stdpp Require Import base option list gmap strings.

Set Warnings "-register-all".
Local Open Scope N_scope.

(** ** JS strings *)

(** A JS string is a finite sequence of 16-bit code units. *)
Abbreviation jsstring := (list N).

(** The code units of an ASCII literal of the development. *)
Fixpoint str (s : string) : jsstring :=
  match s with
  | EmptyString => []
  | String a r => N_of_ascii a :: str r
  end.

Module Char.
Definition is_digit (c : N) : bool := (48 <=? c) && (c <=? 57).
Definition is_high_surrogate (c : N) : bool := (55296 <=? c) && (c <=? 56319).
Definition is_low_surrogate (c : N) : bool := (56320 <=? c) && (c <=? 57343).

(** WhiteSpace and LineTerminator code units, as stripped by
    [String.prototype.trim]. *)
Definition is_trim_space (c : N) : bool :=
  ((9 <=? c) && (c <=? 13)) || (c =? 32) || (c =? 160) || (c =? 5760)
  || ((8192 <=? c) && (c <=? 8202)) || (c =? 8232) || (c =? 8233)
  || (c =? 8239) || (c =? 8287) || (c =? 12288) || (c =? 65279).

(** The four white space characters of the JSON grammar. *)
Definition is_json_ws (c : N) : bool :=
  (c =? 32) || (c =? 9) || (c =? 10) || (c =? 13).
End Char.

(** [String.prototype.trim]. *)
Fixpoint trim_start (s : jsstring) : jsstring :=
  match s with
  | c :: r => if Char.is_trim_space c then trim_start r else s
  | [] => []
  end.

Definition trim (s : jsstring) : jsstring :=
  rev (trim_start (rev (trim_start s))).

(** [String.prototype.includes]: does [q] occur in [s] as a contiguous run? *)
Fixpoint starts_with (q s : jsstring) : bool :=
  match q, s with
  | [], _ => true
  | a :: q', b :: s' => (a =? b) && starts_with q' s'
  | _ :: _, [] => false
  end.

Fixpoint includes (s q : jsstring) : bool :=
  starts_with q s ||
  match s with
  | [] => false
  | _ :: s' => includes s' q
  end.

(** ** JSON values *)

(** A number is an integer, a decimal [m * 10^-k] that is not one ([m] is
    then not a multiple of ten), or an infinity. *)
Inductive number : Type :=
| NInt (z : Z)
| NDec (m : Z) (k : positive)
| NInf (negative : bool).

Inductive json : Type :=
| JNull
| JBool (b : bool)
| JNum (n : number)
| JStr (s : jsstring)
| JArr (elems : list json)
| JObj (props : list (jsstring * json)).

Module Num.
Fixpoint uint_chars (u : Decimal.uint) : jsstring :=
  match u with
  | Decimal.Nil => []
  | Decimal.D0 u => 48 :: uint_chars u
  | Decimal.D1 u => 49 :: uint_chars u
  | Decimal.D2 u => 50 :: uint_chars u
  | Decimal.D3 u => 51 :: uint_chars u
  | Decimal.D4 u => 52 :: uint_chars u
  | Decimal.D5 u => 53 :: uint_chars u
  | Decimal.D6 u => 54 :: uint_chars u
  | Decimal.D7 u => 55 :: uint_chars u
  | Decimal.D8 u => 56 :: uint_chars u
  | Decimal.D9 u => 57 :: uint_chars u
  end.

Definition digit_cons (c : N) (u : Decimal.uint) : Decimal.uint :=
  if c =? 48 then Decimal.D0 u else if c =? 49 then Decimal.D1 u
  else if c =? 50 then Decimal.D2 u else if c =? 51 then Decimal.D3 u
  else if c =? 52 then Decimal.D4 u else if c =? 53 then Decimal.D5 u
  else if c =? 54 then Decimal.D6 u else if c =? 55 then Decimal.D7 u
  else if c =? 56 then Decimal.D8 u else Decimal.D9 u.

(** The longest run of decimal digits at the head of the input. *)
Fixpoint read_digits (s : jsstring) : Decimal.uint * jsstring :=
  match s with
  | c :: r =>
      if Char.is_digit c
      then let '(u, rest) := read_digits r in (digit_cons c u, rest)
      else (Decimal.Nil, s)
  | [] => (Decimal.Nil, [])
  end.

(** The text of an integer: an optional minus sign and its decimal digits. *)
Definition print_int (z : Z) : jsstring :=
  match Z.to_int z with
  | Decimal.Pos u => uint_chars u
  | Decimal.Neg u => 45 :: uint_chars u
  end.

(** [m * 10^-n] with the trailing zeros of [m] cancelled. *)
Fixpoint strip_zeros (n : nat) (m : Z) : number :=
  match n with
  | O => NInt m
  | S n' =>
      if (m mod 10 =? 0)%Z then strip_zeros n' (m / 10)%Z
      else NDec m (Pos.of_succ_nat n')
  end.

(** The number [m * 10^e]. *)
Definition normalise (m e : Z) : number :=
  if (0 <=? e)%Z then NInt (m * 10 ^ e)%Z
  else strip_zeros (Z.to_nat (- e)) m.

Local Open Scope Z_scope.

Definition eqb (a b : number) : bool :=
  match a, b with
  | NInt x, NInt y => x =? y
  | NDec m k, NDec m' k' => (m =? m') && (k =? k')%positive
  | NInf s, NInf s' => Bool.eqb s s'
  | _, _ => false
  end.

Definition opp (x : number) : number :=
  match x with
  | NInt z => NInt (- z)
  | NDec m k => NDec (- m) k
  | NInf s => NInf (negb s)
  end.

Definition is_finite (x : number) : bool :=
  match x with
  | NInf _ => false
  | _ => true
  end.

(** The number [m * 2^e]. *)
Definition of_binary (m e : Z) : number :=
  if 0 <=? e then NInt (m * 2 ^ e) else normalise (m * 5 ^ (- e)) e.

(** [2^d <= p / q], for positive [p] and [q]. *)
Definition ge_pow2 (p q d : Z) : bool :=
  if 0 <=? d then q * 2 ^ d <=? p else q <=? p * 2 ^ (- d).

(** The integer [l] with [2^l <= p / q < 2^(l+1)]. *)
Definition log2_ratio (p q : Z) : Z :=
  let d := Z.log2 p - Z.log2 q in
  if ge_pow2 p q d then d else d - 1.

(** The binary64 value nearest to [p / q], for positive [p] and [q]: a
    significand of at most 53 bits at an exponent of at least -1074, a tie
    going to the even significand, and the infinity from
    [2^1024 - 2^970] on. *)
Definition round_ratio (p q : Z) : number :=
  let e := Z.max (log2_ratio p q - 52) (-1074) in
  let num := if 0 <=? e then p else p * 2 ^ (- e) in
  let den := if 0 <=? e then q * 2 ^ e else q in
  let quo := num / den in
  let rem := num mod den in
  let m := if (den <? 2 * rem) || ((den =? 2 * rem) && Z.odd quo)
           then quo + 1 else quo in
  if (0 <=? e) && (2 ^ 1024 <=? m * 2 ^ e) then NInf false else of_binary m e.

(** The Number value for a number: the nearest value that binary64 holds. *)
Definition round (x : number) : number :=
  match x with
  | NInt 0 | NDec 0 _ => NInt 0
  | NInt (Z.pos p) => round_ratio (Z.pos p) 1
  | NInt (Z.neg p) => opp (round_ratio (Z.pos p) 1)
  | NDec (Z.pos p) k => round_ratio (Z.pos p) (10 ^ Z.pos k)
  | NDec (Z.neg p) k => opp (round_ratio (Z.pos p) (10 ^ Z.pos k))
  | NInf s => NInf s
  end.

(** [x] is a Number value: rounding leaves it in place. *)
Definition is_double (x : number) : bool := eqb (round x) x.

(** [x] is a value that binary64 holds: zero, an infinity, or a significand
    of at most 53 bits at an exponent from -1074 on, below [2^1024]. The
    Number values are exactly these ([NumFacts.is_double_binary64]). *)
Definition binary64 (x : number) : Prop :=
  x = NInt 0
  \/ (exists s, x = NInf s)
  \/ exists m e,
       0 < Z.abs m < 2 ^ 53 /\ -1074 <= e /\ Z.abs m * 2 ^ e < 2 ^ 1024
       /\ x = of_binary m e.

(** [x] is a finite Number value. *)
Definition finite_double (x : number) : bool := is_finite x && is_double x.

(** The decimal digits of [|z|]. *)
Definition digits (z : Z) : jsstring := uint_chars (N.to_uint (Z.abs_N z)).

(** The decimals [lo * 10^(e+j)] and [(lo+1) * 10^(e+j)] on either side of
    [mant * 10^e], which keep the digits of [mant] but the last [j]: the one
    whose Number value is [x] or, of two, the nearer, and the even one of
    two that are as near. *)
Definition candidate (x : number) (mant e : Z) (j : nat) : option number :=
  let scale := 10 ^ Z.of_nat j in
  let lo := mant / scale in
  let r := mant mod scale in
  let below := normalise lo (e + Z.of_nat j) in
  let above := normalise (lo + 1) (e + Z.of_nat j) in
  match eqb (round below) x, eqb (round above) x with
  | true, true =>
      Some (if (2 * r <? scale) || ((2 * r =? scale) && Z.even lo)
            then below else above)
  | true, false => Some below
  | false, true => Some above
  | false, false => None
  end.

(** The first candidate, from the fewest digits on; with all its digits
    the number is itself. *)
Fixpoint shortest_from (x : number) (mant e : Z) (j : nat) : number :=
  match j with
  | O => x
  | S j' =>
      match candidate x mant e j with
      | Some y => y
      | None => shortest_from x mant e j'
      end
  end.

(** The decimal of the fewest digits whose Number value is [x], as
    [Number::toString] prints it. *)
Definition shortest (x : number) : number :=
  match x with
  | NInt (Z.pos p) =>
      shortest_from x (Z.pos p) 0 (length (digits (Z.pos p)) - 1)
  | NInt (Z.neg p) =>
      opp (shortest_from (opp x) (Z.pos p) 0 (length (digits (Z.pos p)) - 1))
  | NDec (Z.pos p) k =>
      shortest_from x (Z.pos p) (Z.neg k) (length (digits (Z.pos p)) - 1)
  | NDec (Z.neg p) k =>
      opp (shortest_from (opp x) (Z.pos p) (Z.neg k)
             (length (digits (Z.pos p)) - 1))
  | _ => x
  end.

(** [z = s * 10^j] with the trailing zeros of [z] in [j]. *)
Fixpoint strip_tens (fuel : nat) (z : Z) : Z * Z :=
  match fuel with
  | O => (z, 0)
  | S fuel' =>
      if z mod 10 =? 0
      then let '(s, j) := strip_tens fuel' (z / 10) in (s, j + 1)
      else (z, 0)
  end.

Definition sign_chars (z : Z) : jsstring := if z <? 0 then [45%N] else [].

(** The digits [ds] with the point after the first one and the exponent
    [n - 1]. *)
Definition print_exponent (ds : jsstring) (n : Z) : jsstring :=
  match ds with
  | [] => []
  | d :: r =>
      d :: match r with [] => [] | _ :: _ => 46%N :: r end
        ++ 101%N :: (if 0 <? n - 1 then 43%N else 45%N) :: digits (n - 1)
  end.

(** The text of a decimal, as [Number::toString] lays out its digits: with
    [n] the position of the point after the first digit, all the digits of
    an integer when [n <= 21], the point inside the digits when
    [0 < n <= 21], [0.] and [-n] zeros before them when [-6 < n <= 0], and
    the exponent form otherwise. *)
Definition print_decimal (y : number) : jsstring :=
  match y with
  | NInt z =>
      if Z.abs z <? 10 ^ 21 then print_int z
      else
        let '(s, j) := strip_tens (Z.to_nat (Z.log2 (Z.abs z))) (Z.abs z) in
        sign_chars z
        ++ print_exponent (digits s) (Z.of_nat (length (digits s)) + j)
  | NDec m k =>
      let ds := digits m in
      let n := Z.of_nat (length ds) - Z.pos k in
      sign_chars m
      ++ (if (0 <? n) && (n <=? 21)
          then take (Z.to_nat n) ds ++ 46%N :: drop (Z.to_nat n) ds
          else if (-6 <? n) && (n <=? 0)
          then 48%N :: 46%N :: repeat 48%N (Z.to_nat (- n)) ++ ds
          else print_exponent ds n)
  | NInf false => str "Infinity"
  | NInf true => str "-Infinity"
  end.

(** [Number::toString], in radix ten. *)
Definition print (x : number) : jsstring := print_decimal (shortest x).
End Num.

(** ** Objects: own properties in JS property order *)

Module Obj.
(** An array index is the canonical decimal text of an integer below
    [2^32 - 1]; such keys come first in an object, in ascending order. *)
Definition array_index (k : jsstring) : option N :=
  let '(u, rest) := Num.read_digits k in
  let n := N.of_uint u in
  match u, rest with
  | Decimal.Nil, _ => None
  | _, [] =>
      if bool_decide (Num.uint_chars (N.to_uint n) = k) && (n <? 4294967295)
      then Some n else None
  | _, _ :: _ => None
  end.

Fixpoint get (k : jsstring) (props : list (jsstring * json)) : option json :=
  match props with
  | [] => None
  | (k', v) :: rest => if bool_decide (k' = k) then Some v else get k rest
  end.

Fixpoint replace (k : jsstring) (v : json) (props : list (jsstring * json))
  : list (jsstring * json) :=
  match props with
  | [] => []
  | (k', v') :: rest =>
      if bool_decide (k' = k) then (k', v) :: rest
      else (k', v') :: replace k v rest
  end.

(** Where a new array-index key [i] goes: before the first key that is not
    an array index or is a larger one. *)
Fixpoint insert_index (i : N) (k : jsstring) (v : json)
    (props : list (jsstring * json)) : list (jsstring * json) :=
  match props with
  | [] => [(k, v)]
  | (k', v') :: rest =>
      match array_index k' with
      | Some j =>
          if j <? i then (k', v') :: insert_index i k v rest
          else (k, v) :: props
      | None => (k, v) :: props
      end
  end.

(** Creating or overwriting the own property [k]. *)
Definition set (k : jsstring) (v : json) (props : list (jsstring * json))
  : list (jsstring * json) :=
  match get k props with
  | Some _ => replace k v props
  | None =>
      match array_index k with
      | Some i => insert_index i k v props
      | None => props ++ [(k, v)]
      end
  end.
End Obj.

(** ** JSON text *)

Module JSON.
Definition hex_digit (d : N) : N := if d <? 10 then 48 + d else 87 + d.

(** [\uXXXX] with four lowercase hexadecimal digits. *)
Definition unicode_escape (c : N) : jsstring :=
  [92; 117; hex_digit (c / 4096 mod 16); hex_digit (c / 256 mod 16);
   hex_digit (c / 16 mod 16); hex_digit (c mod 16)].

(** The escaped form of one code unit that is not half of a surrogate pair. *)
Definition quote_char (c : N) : jsstring :=
  if c =? 8 then [92; 98]
  else if c =? 9 then [92; 116]
  else if c =? 10 then [92; 110]
  else if c =? 12 then [92; 102]
  else if c =? 13 then [92; 114]
  else if c =? 34 then [92; 34]
  else if c =? 92 then [92; 92]
  else if (c <? 32) || Char.is_high_surrogate c || Char.is_low_surrogate c
  then unicode_escape c
  else [c].

(** The body of a quoted string: a surrogate pair is copied, a lone
    surrogate and a control character are escaped. *)
Fixpoint quote_body (s : jsstring) : jsstring :=
  match s with
  | [] => []
  | c :: r =>
      match r with
      | d :: r' =>
          if Char.is_high_surrogate c && Char.is_low_surrogate d
          then c :: d :: quote_body r'
          else quote_char c ++ quote_body r
      | [] => quote_char c
      end
  end.

Definition quote (s : jsstring) : jsstring := 34 :: quote_body s ++ [34].

Fixpoint join_comma (parts : list jsstring) : jsstring :=
  match parts with
  | [] => []
  | [p] => p
  | p :: rest => p ++ 44 :: join_comma rest
  end.

(** [JSON.stringify] of a JSON value, without indentation. *)
Fixpoint stringify (v : json) : jsstring :=
  match v with
  | JNull => str "null"
  | JBool true => str "true"
  | JBool false => str "false"
  | JNum n => if Num.is_finite n then Num.print n else str "null"
  | JStr s => quote s
  | JArr elems => 91 :: join_comma (map stringify elems) ++ [93]
  | JObj props =>
      123 :: join_comma
               (map (fun kv => quote (fst kv) ++ 58 :: stringify (snd kv)) props)
          ++ [125]
  end.

Fixpoint skip_ws (s : jsstring) : jsstring :=
  match s with
  | c :: r => if Char.is_json_ws c then skip_ws r else s
  | [] => []
  end.

Definition hex_val (c : N) : option N :=
  if Char.is_digit c then Some (c - 48)
  else if (97 <=? c) && (c <=? 102) then Some (c - 87)
  else if (65 <=? c) && (c <=? 70) then Some (c - 55)
  else None.

Definition hex4 (a b c d : N) : option N :=
  match hex_val a, hex_val b, hex_val c, hex_val d with
  | Some x, Some y, Some z, Some w => Some (x * 4096 + y * 256 + z * 16 + w)
  | _, _, _, _ => None
  end.

(** The escape letter after a backslash, [u] apart. *)
Definition simple_escape (e : N) : option N :=
  if e =? 34 then Some 34 else if e =? 92 then Some 92
  else if e =? 47 then Some 47 else if e =? 98 then Some 8
  else if e =? 102 then Some 12 else if e =? 110 then Some 10
  else if e =? 114 then Some 13 else if e =? 116 then Some 9
  else None.

(** The characters of a string literal after its opening quote, up to and
    including the closing quote. *)
Fixpoint parse_string_body (s : jsstring) : option (jsstring * jsstring) :=
  match s with
  | [] => None
  | c :: r =>
      if c =? 34 then Some ([], r)
      else if c =? 92 then
        match r with
        | [] => None
        | e :: r1 =>
            if e =? 117 then
              match r1 with
              | h1 :: h2 :: h3 :: h4 :: r2 =>
                  match hex4 h1 h2 h3 h4, parse_string_body r2 with
                  | Some u, Some (t, rest) => Some (u :: t, rest)
                  | _, _ => None
                  end
              | _ => None
              end
            else
              match simple_escape e, parse_string_body r1 with
              | Some u, Some (t, rest) => Some (u :: t, rest)
              | _, _ => None
              end
        end
      else if c <? 32 then None
      else
        match parse_string_body r with
        | Some (t, rest) => Some (c :: t, rest)
        | None => None
        end
  end.

(** The integer part of a number literal: [0], or digits starting with a
    digit other than [0]. *)
Definition int_part (s : jsstring) : option (Decimal.uint * jsstring) :=
  match s with
  | c :: r =>
      if c =? 48 then Some (Decimal.D0 Decimal.Nil, r)
      else if Char.is_digit c then Some (Num.read_digits s)
      else None
  | [] => None
  end.

(** The optional fraction: a point and at least one digit. *)
Definition frac_part (s : jsstring) : option (Decimal.uint * jsstring) :=
  match s with
  | c :: r =>
      if c =? 46 then
        match Num.read_digits r with
        | (Decimal.Nil, _) => None
        | (u, rest) => Some (u, rest)
        end
      else Some (Decimal.Nil, s)
  | [] => Some (Decimal.Nil, [])
  end.

Definition exp_digits (neg : bool) (s : jsstring) : option (Z * jsstring) :=
  match Num.read_digits s with
  | (Decimal.Nil, _) => None
  | (u, rest) => Some (if neg then (- Z.of_uint u)%Z else Z.of_uint u, rest)
  end.

(** The optional exponent: [e] or [E], an optional sign, at least one digit. *)
Definition exp_part (s : jsstring) : option (Z * jsstring) :=
  match s with
  | c :: r =>
      if (c =? 101) || (c =? 69) then
        match r with
        | d :: r' =>
            if d =? 43 then exp_digits false r'
            else if d =? 45 then exp_digits true r'
            else exp_digits false r
        | [] => None
        end
      else Some (0%Z, s)
  | [] => Some (0%Z, [])
  end.

(** A number literal after its optional minus sign: the Number value for
    the decimal it denotes. *)
Definition parse_unsigned (neg : bool) (s : jsstring)
  : option (number * jsstring) :=
  match int_part s with
  | None => None
  | Some (ip, s2) =>
      match frac_part s2 with
      | None => None
      | Some (fp, s3) =>
          match exp_part s3 with
          | None => None
          | Some (e, s4) =>
              let digits := Decimal.app ip fp in
              let m := Z.of_int (if neg then Decimal.Neg digits
                                 else Decimal.Pos digits) in
              Some (Num.round
                      (Num.normalise m (e - Z.of_nat (Decimal.nb_digits fp))),
                    s4)
          end
      end
  end.

Definition parse_number (s : jsstring) : option (number * jsstring) :=
  match s with
  | c :: r => if c =? 45 then parse_unsigned true r else parse_unsigned false s
  | [] => None
  end.

(** [expect lit s]: the input after the literal [lit], if it starts with it. *)
Definition expect (lit s : jsstring) : option jsstring :=
  if starts_with lit s then Some (drop (length lit) s) else None.

(** The recursive-descent parser.  [fuel] bounds the number of nested calls;
    every call that starts a value or continues a list consumes input. *)
Fixpoint parse_value (fuel : nat) (s : jsstring) : option (json * jsstring) :=
  match fuel with
  | O => None
  | S fuel' =>
      match skip_ws s with
      | [] => None
      | c :: r =>
          if c =? 34 then
            match parse_string_body r with
            | Some (t, rest) => Some (JStr t, rest)
            | None => None
            end
          else if c =? 91 then
            match skip_ws r with
            | d :: r' =>
                if d =? 93 then Some (JArr [], r')
                else
                  match parse_elements fuel' (d :: r') with
                  | Some (vs, rest) => Some (JArr vs, rest)
                  | None => None
                  end
            | [] => None
            end
          else if c =? 123 then
            match skip_ws r with
            | d :: r' =>
                if d =? 125 then Some (JObj [], r')
                else
                  match parse_members fuel' [] (d :: r') with
                  | Some (ps, rest) => Some (JObj ps, rest)
                  | None => None
                  end
            | [] => None
            end
          else if c =? 116 then
            match expect (str "true") (c :: r) with
            | Some rest => Some (JBool true, rest)
            | None => None
            end
          else if c =? 102 then
            match expect (str "false") (c :: r) with
            | Some rest => Some (JBool false, rest)
            | None => None
            end
          else if c =? 110 then
            match expect (str "null") (c :: r) with
            | Some rest => Some (JNull, rest)
            | None => None
            end
          else
            match parse_number (c :: r) with
            | Some (n, rest) => Some (JNum n, rest)
            | None => None
            end
      end
  end

(** One or more values separated by commas, up to and including [\]]. *)
with parse_elements (fuel : nat) (s : jsstring)
  : option (list json * jsstring) :=
  match fuel with
  | O => None
  | S fuel' =>
      match parse_value fuel' s with
      | None => None
      | Some (v, s1) =>
          match skip_ws s1 with
          | c :: r =>
              if c =? 44 then
                match parse_elements fuel' r with
                | Some (vs, rest) => Some (v :: vs, rest)
                | None => None
                end
              else if c =? 93 then Some ([v], r)
              else None
          | [] => None
          end
      end
  end

(** One or more [key : value] members separated by commas, up to and
    including [}]; a repeated key overwrites the earlier value. *)
with parse_members (fuel : nat) (acc : list (jsstring * json)) (s : jsstring)
  : option (list (jsstring * json) * jsstring) :=
  match fuel with
  | O => None
  | S fuel' =>
      match skip_ws s with
      | q :: r0 =>
          if q =? 34 then
            match parse_string_body r0 with
            | None => None
            | Some (k, s1) =>
                match skip_ws s1 with
                | c :: r =>
                    if c =? 58 then
                      match parse_value fuel' r with
                      | None => None
                      | Some (v, s2) =>
                          match skip_ws s2 with
                          | d :: r' =>
                              if d =? 44
                              then parse_members fuel' (Obj.set k v acc) r'
                              else if d =? 125
                              then Some (Obj.set k v acc, r')
                              else None
                          | [] => None
                          end
                      end
                    else None
                | [] => None
                end
            end
          else None
      | [] => None
      end
  end.

(** [JSON.parse]: one value between optional white space; [None] stands for
    the [SyntaxError] it throws on any other text. *)
Definition parse (s : jsstring) : option json :=
  match parse_value (2 * length s + 2) s with
  | Some (v, rest) =>
      match skip_ws rest with
      | [] => Some v
      | _ :: _ => None
      end
  | None => None
  end.
End JSON.

(** ** Conversions of JS values *)

(** A value read from a property: [None] is [undefined]. *)
Abbreviation value := (option json).

Definition number_eqb (a b : number) : bool := Num.eqb a b.

(** [ToBoolean]. *)
Definition ToBoolean (v : value) : bool :=
  match v with
  | None | Some JNull => false
  | Some (JBool b) => b
  | Some (JNum n) => negb (number_eqb n (NInt 0))
  | Some (JStr s) => match s with [] => false | _ :: _ => true end
  | Some (JArr _) | Some (JObj _) => true
  end.

(** [ToString] of a JSON value; [None] stands for the [TypeError] it
    throws.  An object is converted by its [toString] method: the one of
    [Object.prototype] gives [[object Object]], and an own property of that
    name, which holds no function, leaves no method to call.  An array joins
    the conversions of its elements with commas, [null] giving the empty
    string there. *)
Fixpoint json_to_string (v : json) : option jsstring :=
  match v with
  | JNull => Some (str "null")
  | JBool true => Some (str "true")
  | JBool false => Some (str "false")
  | JNum n => Some (Num.print n)
  | JStr s => Some s
  | JArr elems =>
      JSON.join_comma <$>
        mapM (fun e => match e with
                       | JNull => Some []
                       | _ => json_to_string e
                       end) elems
  | JObj props =>
      match Obj.get (str "toString") props with
      | Some _ => None
      | None => Some (str "[object Object]")
      end
  end.

Definition ToString (v : value) : option jsstring :=
  match v with
  | None => Some (str "undefined")
  | Some j => json_to_string j
  end.

(** [x === n] for a number [n]. *)
Definition strict_equals_number (x : value) (n : number) : bool :=
  match x with
  | Some (JNum m) => number_eqb m n
  | _ => false
  end.

(** ** The platform interface *)

(** [String.prototype.toLowerCase] depends on the Unicode case tables; the
    script is modelled over any such function that maps the empty string to
    itself. *)
Class Platform : Type := {
  toLowerCase : jsstring -> jsstring;
  toLowerCase_empty : toLowerCase [] = []
}.

(** Lowercasing of the ASCII letters, the instance used on concrete inputs. *)
Definition ascii_lower (c : N) : N :=
  if (65 <=? c) && (c <=? 90) then c + 32 else c.

Definition ascii_platform : Platform :=
  {| toLowerCase := map ascii_lower; toLowerCase_empty := eq_refl |}.

(** ** The document *)

(** What a click listener of a row does when it fires; [id] is the value
    of [task.id] the closure reads. *)
Inductive handler : Type :=
| CallToggleTaskCompletion (id : value)
| CallRemoveTask (id : value).

(** A [<span>] or [<button>] inside a row. *)
Record element : Type := {
  tagName : string;
  textContent : jsstring;
  classList : list string;
  click_listeners : list handler
}.

(** A [<li>] row. *)
Record listItem : Type := {
  dataset_id : jsstring;
  li_classList : list string;
  childNodes : list element
}.

(** [classList.add]. *)
Definition classList_add (c : string) (l : list string) : list string :=
  if bool_decide (c ∈ l) then l else l ++ [c].

Definition has_class (c : string) (l : list string) : bool :=
  bool_decide (c ∈ l).

(** ** The state of the page *)

(** The calls of the script that change the storage or the page, in the
    order they were made. *)
Inductive call : Type :=
| SetItem (key val : jsstring)
| Alert (message : jsstring)
| ClearTaskList
| AppendChild (li : listItem).

Record state : Type := {
  todos : json;
  localStorage : gmap jsstring jsstring;
  taskInput_value : jsstring;
  searchInput_value : jsstring;
  taskList : list listItem;
  calls : list call
}.

Definition STORAGE_KEY : jsstring := str "enhancedTodos".
#[global] Arguments STORAGE_KEY : simpl never.

(** ** Computations of the script *)

Inductive exn : Type := SyntaxError | TypeError.

Inductive outcome (A : Type) : Type :=
| Ret (a : A)
| Throw (e : exn).
Arguments Ret {A} a.
Arguments Throw {A} e.

(** A computation runs from a state to an outcome and the state it leaves;
    after [Throw] that is the state at the point of the throw. *)
Definition M (A : Type) : Type := state -> outcome A * state.

#[export] Instance M_ret : MRet M := fun A a st => (Ret a, st).

#[export] Instance M_bind : MBind M := fun A B f m st =>
  match m st with
  | (Ret a, st') => f a st'
  | (Throw e, st') => (Throw e, st')
  end.

Definition throw {A : Type} (e : exn) : M A := fun st => (Throw e, st).
Definition get_state : M state := fun st => (Ret st, st).
Definition modify (f : state -> state) : M unit := fun st => (Ret tt, f st).

Definition set_todos (v : json) : M unit :=
  modify (fun st => {| todos := v; localStorage := localStorage st;
                       taskInput_value := taskInput_value st;
                       searchInput_value := searchInput_value st;
                       taskList := taskList st; calls := calls st |}).

Definition set_taskInput_value (v : jsstring) : M unit :=
  modify (fun st => {| todos := todos st; localStorage := localStorage st;
                       taskInput_value := v;
                       searchInput_value := searchInput_value st;
                       taskList := taskList st; calls := calls st |}).

(** [localStorage.getItem]: [None] is [null]. *)
Definition getItem (key : jsstring) : M (option jsstring) :=
  st ← get_state; mret (localStorage st !! key).

(** [localStorage.setItem]. *)
Definition setItem (key val : jsstring) : M unit :=
  modify (fun st => {| todos := todos st;
                       localStorage := <[key := val]> (localStorage st);
                       taskInput_value := taskInput_value st;
                       searchInput_value := searchInput_value st;
                       taskList := taskList st;
                       calls := calls st ++ [SetItem key val] |}).

(** [alert]. *)
Definition alert (message : jsstring) : M unit :=
  modify (fun st => {| todos := todos st; localStorage := localStorage st;
                       taskInput_value := taskInput_value st;
                       searchInput_value := searchInput_value st;
                       taskList := taskList st;
                       calls := calls st ++ [Alert message] |}).

(** [taskList.innerHTML = '']. *)
Definition clear_taskList : M unit :=
  modify (fun st => {| todos := todos st; localStorage := localStorage st;
                       taskInput_value := taskInput_value st;
                       searchInput_value := searchInput_value st;
                       taskList := [];
                       calls := calls st ++ [ClearTaskList] |}).

(** [taskList.appendChild]. *)
Definition appendChild (li : listItem) : M unit :=
  modify (fun st => {| todos := todos st; localStorage := localStorage st;
                       taskInput_value := taskInput_value st;
                       searchInput_value := searchInput_value st;
                       taskList := taskList st ++ [li];
                       calls := calls st ++ [AppendChild li] |}).

(** [JSON.parse], throwing [SyntaxError]. *)
Definition JSON_parse (text : jsstring) : M json :=
  match JSON.parse text with
  | Some v => mret v
  | None => throw SyntaxError
  end.

(** Storing a value where the page keeps a string, as [dataset.id] does. *)
Definition to_DOMString (v : value) : M jsstring :=
  match ToString v with
  | Some s => mret s
  | None => throw TypeError
  end.

(** Reading [o.k] for one of the names [id], [text], [completed], none of
    which a prototype defines: the own property of an object, [undefined] on
    an array or a primitive, a [TypeError] on [null]. *)
Definition get_member (o : json) (k : jsstring) : M value :=
  match o with
  | JNull => throw TypeError
  | JObj props => mret (Obj.get k props)
  | _ => mret None
  end.

(** The elements of [todos] when a method of [Array.prototype] is called on
    it; on any other JSON value the method is missing and the call throws. *)
Definition array_elements (v : json) : M (list json) :=
  match v with
  | JArr elems => mret elems
  | _ => throw TypeError
  end.

(** [Array.prototype.forEach]. *)
Fixpoint forEach (elems : list json) (f : json -> M unit) : M unit :=
  match elems with
  | [] => mret tt
  | x :: rest => f x;; forEach rest f
  end.

(** [Array.prototype.findIndex]: [None] is [-1]. *)
Fixpoint findIndex (elems : list json) (p : json -> M bool) : M (option nat) :=
  match elems with
  | [] => mret None
  | x :: rest =>
      b ← p x;
      if b : bool then mret (Some O)
      else i ← findIndex rest p; mret (S <$> i)
  end.

(** [Array.prototype.filter]. *)
Fixpoint filter_array (elems : list json) (p : json -> M bool)
  : M (list json) :=
  match elems with
  | [] => mret []
  | x :: rest =>
      b ← p x;
      kept ← filter_array rest p;
      mret (if b : bool then x :: kept else kept)
  end.

(** ** The script *)

Definition k_id : jsstring := str "id".
Definition k_text : jsstring := str "text".
Definition k_completed : jsstring := str "completed".
#[global] Arguments k_id : simpl never.
#[global] Arguments k_text : simpl never.
#[global] Arguments k_completed : simpl never.

(** [loadTasks] (script.js, lines 17-25). *)
Definition loadTasks : M unit :=
  storedTodos ← getItem STORAGE_KEY;
  match storedTodos with
  | Some (c :: text) =>
      v ← JSON_parse (c :: text);
      set_todos v
  | Some [] | None => set_todos (JArr [])
  end.

(** [saveTasks] (lines 30-33). *)
Definition saveTasks : M unit :=
  st ← get_state;
  setItem STORAGE_KEY (JSON.stringify (todos st)).

(** The text of the delete button, as the file has it. *)
Definition delete_glyph : jsstring := [226; 339; 8211].

(** The body of the [forEach] callback of [renderTasks] (lines 45-83). *)
Definition render_task `{Platform} (searchQuery : jsstring) (task : json)
  : M unit :=
  task_id ← get_member task k_id;
  dataset_id ← to_DOMString task_id;
  task_text ← get_member task k_text;
  match task_text with
  | Some (JStr s) =>
      let matchesSearch := includes (toLowerCase s) searchQuery in
      let classes1 :=
        if negb matchesSearch then classList_add "hidden" [] else [] in
      task_completed ← get_member task k_completed;
      let classes2 :=
        if ToBoolean task_completed then classList_add "completed" classes1
        else classes1 in
      let taskText :=
        {| tagName := "span"; textContent := s;
           classList := classList_add "task-text" [];
           click_listeners := [CallToggleTaskCompletion task_id] |} in
      let deleteBtn :=
        {| tagName := "button"; textContent := delete_glyph;
           classList := classList_add "delete-btn" [];
           click_listeners := [CallRemoveTask task_id] |} in
      appendChild {| dataset_id := dataset_id;
                     li_classList := classes2;
                     childNodes := [taskText; deleteBtn] |}
  | _ => throw TypeError
  end.

(** [renderTasks] (lines 41-84). *)
Definition renderTasks `{Platform} : M unit :=
  clear_taskList;;
  st ← get_state;
  let searchQuery := toLowerCase (searchInput_value st) in
  elems ← array_elements (todos st);
  forEach elems (render_task searchQuery).

Definition empty_task_message : jsstring :=
  str "Task description cannot be empty!".

(** [addTask] (lines 91-117); [now] is what [Date.now()] returns. *)
Definition addTask `{Platform} (now : Z) : M unit :=
  st ← get_state;
  let text := trim (taskInput_value st) in
  match text with
  | [] => alert empty_task_message
  | _ :: _ =>
      let newTask :=
        JObj [(k_id, JNum (NInt now)); (k_text, JStr text);
              (k_completed, JBool false)] in
      elems ← array_elements (todos st);
      set_todos (JArr (elems ++ [newTask]));;
      saveTasks;;
      renderTasks;;
      set_taskInput_value []
  end.

(** [todos[taskIndex].completed = !todos[taskIndex].completed].  The index
    comes from [findIndex], so the element has an own [id] and is an object;
    on another kind of element there is no own property to write. *)
Definition flip_completed (elems : list json) (taskIndex : nat) : list json :=
  match elems !! taskIndex with
  | Some (JObj props) =>
      let flipped := JBool (negb (ToBoolean (Obj.get k_completed props))) in
      <[taskIndex := JObj (Obj.set k_completed flipped props)]> elems
  | _ => elems
  end.

(** [toggleTaskCompletion] (lines 123-131). *)
Definition toggleTaskCompletion `{Platform} (id : number) : M unit :=
  st ← get_state;
  elems ← array_elements (todos st);
  taskIndex ← findIndex elems (fun task =>
    task_id ← get_member task k_id; mret (strict_equals_number task_id id));
  match taskIndex with
  | Some i =>
      set_todos (JArr (flip_completed elems i));;
      saveTasks;;
      renderTasks
  | None => mret tt
  end.

(** [removeTask] (lines 137-142). *)
Definition removeTask `{Platform} (id : number) : M unit :=
  st ← get_state;
  elems ← array_elements (todos st);
  kept ← filter_array elems (fun task =>
    task_id ← get_member task k_id;
    mret (negb (strict_equals_number task_id id)));
  set_todos (JArr kept);;
  saveTasks;;
  renderTasks.

(** ** The typed view: task collections *)

(** A task as the script creates it (lines 100-104). *)
Record Task : Type := {
  id : Z;
  text : jsstring;
  completed : bool
}.

Definition task_json (t : Task) : json :=
  JObj [(k_id, JNum (NInt (id t))); (k_text, JStr (text t));
        (k_completed, JBool (completed t))].

(** The array that holds a task collection, in order. *)
Definition collection_json (C : list Task) : json :=
  JArr (map task_json C).

(** A task as the storage may hold it: its id is any number. *)
Record StoredTask : Type := {
  stored_id : number;
  stored_text : jsstring;
  stored_completed : bool
}.

Definition stored_json (t : StoredTask) : json :=
  JObj [(k_id, JNum (stored_id t)); (k_text, JStr (stored_text t));
        (k_completed, JBool (stored_completed t))].

Definition stored_collection_json (C : list StoredTask) : json :=
  JArr (map stored_json C).

(** A task of the script among them. *)
Definition stored (t : Task) : StoredTask :=
  {| stored_id := NInt (id t); stored_text := text t;
     stored_completed := completed t |}.

(** The ids are finite Number values. *)
Definition finite_ids (C : list StoredTask) : Prop :=
  Forall (fun t => Num.finite_double (stored_id t) = true) C.

(** Every number inside the value is a Number value. *)
Fixpoint numbers_are_doubles (v : json) : bool :=
  match v with
  | JNum n => Num.is_double n
  | JArr elems => forallb numbers_are_doubles elems
  | JObj props => forallb (fun kv => numbers_are_doubles (snd kv)) props
  | _ => true
  end.

Definition props_are_doubles (props : list (jsstring * json)) : bool :=
  forallb (fun kv => numbers_are_doubles (snd kv)) props.

(** The integers are Number values, as every id and every reading of the
    clock is in a page. *)
Definition js_integers (l : list Z) : Prop :=
  Forall (fun z => Num.is_double (NInt z) = true) l.

(** The ids of a collection are Number values. *)
Definition js_ids (C : list Task) : Prop := js_integers (map id C).

(** The collection invariant of the specification. *)
Definition unique_ids (C : list Task) : Prop := NoDup (map id C).

(** [task.id === n] on a task of a collection. *)
Definition has_id (n : number) (t : Task) : bool :=
  number_eqb (NInt (id t)) n.

Definition toggled (t : Task) : Task :=
  {| id := id t; text := text t; completed := negb (completed t) |}.

(** [q] occurs in [s] as a contiguous run of code units. *)
Definition Substring (q s : jsstring) : Prop :=
  exists before after, s = before ++ q ++ after.

(** The markers of a rendered row. *)
Definition is_hidden (li : listItem) : bool :=
  has_class "hidden" (li_classList li).
Definition is_completed (li : listItem) : bool :=
  has_class "completed" (li_classList li).

(** The row that [renderTasks] builds for a task under the lowercased
    query [searchQuery]. *)
Definition row_of `{Platform} (searchQuery : jsstring) (t : Task) : listItem :=
  {| dataset_id := Num.print (NInt (id t));
     li_classList :=
       (if includes (toLowerCase (text t)) searchQuery then [] else ["hidden"])
       ++ (if completed t then ["completed"] else []);
     childNodes :=
       (let task_id := Some (JNum (NInt (id t))) in
        [ {| tagName := "span"; textContent := text t;
             classList := ["task-text"];
             click_listeners := [CallToggleTaskCompletion task_id] |};
          {| tagName := "button"; textContent := delete_glyph;
             classList := ["delete-btn"];
             click_listeners := [CallRemoveTask task_id] |} ]) |}.

(** The operations of the task store, as the page invokes them. *)
Inductive operation : Type :=
| Add (now : Z)
| Toggle (id : number)
| Remove (id : number)
| Search.

(** The clock reading an operation hands to [addTask]. *)
Definition operation_clock (op : operation) : list Z :=
  match op with
  | Add now => [now]
  | _ => []
  end.

Definition run `{Platform} (op : operation) : M unit :=
  match op with
  | Add now => addTask now
  | Toggle i => toggleTaskCompletion i
  | Remove i => removeTask i
  | Search => renderTasks
  end.

(** A page before the script has run, with the given storage. *)
Definition fresh_page (storage : gmap jsstring jsstring) : state :=
  {| todos := JArr []; localStorage := storage; taskInput_value := [];
     searchInput_value := []; taskList := []; calls := [] |}.

(** A page whose input fields hold the given texts. *)
Definition with_inputs (task search : jsstring) (st : state) : state :=
  {| todos := todos st; localStorage := localStorage st;
     taskInput_value := task; searchInput_value := search;
     taskList := taskList st; calls := calls st |}.

(** The state after [saveTasks]. *)
Definition saved (st : state) : state :=
  {| todos := todos st;
     localStorage :=
       <[STORAGE_KEY := JSON.stringify (todos st)]> (localStorage st);
     taskInput_value := taskInput_value st;
     searchInput_value := searchInput_value st;
     taskList := taskList st;
     calls := calls st ++ [SetItem STORAGE_KEY (JSON.stringify (todos st))] |}.

(** The state after the given rows were appended to the list. *)
Definition appended (rows : list listItem) (st : state) : state :=
  {| todos := todos st; localStorage := localStorage st;
     taskInput_value := taskInput_value st;
     searchInput_value := searchInput_value st;
     taskList := taskList st ++ rows;
     calls := calls st ++ map AppendChild rows |}.

(** The rows of a collection under the query in the search field. *)
Definition rows_of `{Platform} (C : list Task) (st : state) : list listItem :=
  map (row_of (toLowerCase (searchInput_value st))) C.

(** The state after [renderTasks] drew the collection [C]. *)
Definition rendered `{Platform} (C : list Task) (st : state) : state :=
  {| todos := todos st; localStorage := localStorage st;
     taskInput_value := taskInput_value st;
     searchInput_value := searchInput_value st;
     taskList := rows_of C st;
     calls := calls st ++ ClearTaskList :: map AppendChild (rows_of C st) |}.

(** The state with another value in [todos]. *)
Definition with_todos (v : json) (st : state) : state :=
  {| todos := v; localStorage := localStorage st;
     taskInput_value := taskInput_value st;
     searchInput_value := searchInput_value st;
     taskList := taskList st; calls := calls st |}.

(** The state with the task field emptied. *)
Definition with_empty_input (st : state) : state :=
  {| todos := todos st; localStorage := localStorage st;
     taskInput_value := []; searchInput_value := searchInput_value st;
     taskList := taskList st; calls := calls st |}.

(** The state after a mutation replaced the collection by [C], wrote it
    through and redrew it. *)
Definition committed `{Platform} (C : list Task) (st : state) : state :=
  rendered C (saved (with_todos (collection_json C) st)).

(** ** Concrete pages *)

Definition milk : Task :=
  {| id := 1730000000000; text := str "buy milk"; completed := false |}.

Definition eggs : Task :=
  {| id := 1730000000001; text := str "Boil EGGS"; completed := true |}.

(** A page with two tasks, text in both fields and nothing stored. *)
Definition demo_page : state :=
  {| todos := collection_json [milk; eggs]; localStorage := ∅;
     taskInput_value := str "  call mum "; searchInput_value := str "Milk";
     taskList := []; calls := [] |}.

(** The same page with only blanks in the task field. *)
Definition blank_page : state := with_inputs (str "   ") [] demo_page.

(** A page whose slot holds a truncated array. *)
Definition truncated_page : state :=
  fresh_page {[ STORAGE_KEY := str "[1," ]}.

(** A page whose slot holds valid JSON that is not an array of tasks. *)
Definition object_page : state :=
  fresh_page {[ STORAGE_KEY := str "{}" ]}.

(** A decimal [m * 10^-k] is written in lowest terms. *)
Definition canonical (y : number) : Prop :=
  match y with
  | NDec m k => (m mod 10 <> 0)%Z
  | _ => True
  end.

(** A magnitude under the sign of a literal. *)
Definition signed (neg : bool) (z : Z) : Z := if neg then (- z)%Z else z.

(** The digits that a run of digit characters spells. *)
Definition chars_uint (l : jsstring) : Decimal.uint :=
  fold_right Num.digit_cons Decimal.Nil l.

(** The input does not go on with a digit. *)
Definition digit_stops (rest : jsstring) : bool :=
  match rest with
  | [] => true
  | c :: _ => negb (Char.is_digit c)
  end.

(** Tasks as a slot may hold them: the first task of the demo page, one
    whose id is the Number value for [0.1], and one whose id prints in the
    exponent form. *)
Definition tenth : StoredTask :=
  {| stored_id := Num.round (NDec 1 1); stored_text := str "a tenth";
     stored_completed := false |}.

Definition sextillion : StoredTask :=
  {| stored_id := NInt (10 ^ 21); stored_text := str "far away";
     stored_completed := true |}.

Definition assorted : list StoredTask := [stored milk; tenth; sextillion].

Definition assorted_page : state :=
  with_todos (stored_collection_json assorted) demo_page.

(** A task whose id is the infinity, and the text of a slot that makes
    [JSON.parse] produce it: [1e400] is beyond the range of binary64. *)
Definition endless : StoredTask :=
  {| stored_id := NInf false; stored_text := str "x";
     stored_completed := false |}.

Definition endless_text : jsstring :=
  str "[{" ++ JSON.quote k_id ++ str ":1e400," ++ JSON.quote k_text
  ++ str ":" ++ JSON.quote (str "x") ++ str "," ++ JSON.quote k_completed
  ++ str ":false}]".

Definition endless_page : state :=
  fresh_page {[ STORAGE_KEY := endless_text ]}.

(** The input after a number literal does not continue it. *)
Definition number_stops (rest : jsstring) : bool :=
  match rest with
  | [] => true
  | c :: _ => negb (Char.is_digit c || (c =? 46) || (c =? 101) || (c =? 69))
  end.

(** ** Rendering any JSON value *)

(** [o.k] where the read does not throw. *)
Definition member (o : json) (k : jsstring) : value :=
  match o with
  | JObj props => Obj.get k props
  | _ => None
  end.

(** The callback of [renderTasks] reaches [appendChild] for [task]: the
    value is an object whose [text] is a string. *)
Definition has_string_text (task : json) : bool :=
  match member task k_text with
  | Some (JStr _) => true
  | _ => false
  end.

(** [renderTasks] reaches the text of every element of [v]: an array of
    such objects. *)
Definition renderable (v : json) : bool :=
  match v with
  | JArr elems => forallb has_string_text elems
  | _ => false
  end.

(** The [id] of [task] has a conversion to a string for [dataset.id]. *)
Definition has_printable_id (task : json) : bool :=
  match ToString (member task k_id) with
  | Some _ => true
  | None => false
  end.

(** The callback of [renderTasks] returns on [task]. *)
Definition drawable_task (task : json) : bool :=
  has_printable_id task && has_string_text task.

(** [renderTasks] runs to its end on [v]. *)
Definition drawable (v : json) : bool :=
  match v with
  | JArr elems => forallb drawable_task elems
  | _ => false
  end.

(** The row the callback appends for a value that is a [drawable_task]. *)
Definition row_of_json `{Platform} (searchQuery : jsstring) (task : json)
  : listItem :=
  let s := match member task k_text with Some (JStr s) => s | _ => [] end in
  let task_id := member task k_id in
  {| dataset_id := default [] (ToString task_id);
     li_classList :=
       (let classes1 :=
          if negb (includes (toLowerCase s) searchQuery)
          then classList_add "hidden" [] else [] in
        if ToBoolean (member task k_completed)
        then classList_add "completed" classes1 else classes1);
     childNodes :=
       [ {| tagName := "span"; textContent := s;
            classList := classList_add "task-text" [];
            click_listeners := [CallToggleTaskCompletion task_id] |};
         {| tagName := "button"; textContent := delete_glyph;
            classList := classList_add "delete-btn" [];
            click_listeners := [CallRemoveTask task_id] |} ] |}.

(** The elements of an array before the first one on which the callback
    of [renderTasks] throws. *)
Fixpoint drawable_prefix (elems : list json) : list json :=
  match elems with
  | [] => []
  | x :: rest => if drawable_task x then x :: drawable_prefix rest else []
  end.

(** The state after [renderTasks] emptied the list and appended [rows]. *)
Definition drawn (rows : list listItem) (st : state) : state :=
  {| todos := todos st; localStorage := localStorage st;
     taskInput_value := taskInput_value st;
     searchInput_value := searchInput_value st;
     taskList := rows;
     calls := calls st ++ ClearTaskList :: map AppendChild rows |}.

(** ** The page: the script and its listeners *)

(** The three registrations of [setupEventListeners] (lines 149-162), each
    named by its target and its event type. *)
Inductive listener : Type :=
| AddTaskBtn_click
| TaskInput_keypress
| SearchInput_input.

Record page : Type := {
  script : state;
  listeners : list listener
}.

Definition addEventListener (l : listener) (pg : page) : page :=
  {| script := script pg; listeners := listeners pg ++ [l] |}.

(** [setupEventListeners] (lines 149-162). *)
Definition setupEventListeners (pg : page) : page :=
  addEventListener SearchInput_input
    (addEventListener TaskInput_keypress
       (addEventListener AddTaskBtn_click pg)).

(** [init] (lines 165-174): an exception of [loadTasks] or [renderTasks]
    leaves it before the listeners are set up. *)
Definition init `{Platform} (pg : page) : outcome unit * page :=
  match (loadTasks;; renderTasks) (script pg) with
  | (Ret _, st) =>
      (Ret tt, setupEventListeners {| script := st; listeners := listeners pg |})
  | (Throw e, st) => (Throw e, {| script := st; listeners := listeners pg |})
  end.

(** What the user does on the page.  [now] is the reading of the clock if
    [addTask] gets to call [Date.now()]; [row] counts the rows of the list
    from zero. *)
Inductive event : Type :=
| Click_addTaskBtn (now : Z)
| Keypress_taskInput (key : jsstring) (now : Z)
| Input_taskInput (value : jsstring)
| Input_searchInput (value : jsstring)
| Click_taskText (row : nat)
| Click_deleteBtn (row : nat).

(** The callback a registration runs for an event on its target and of its
    type (lines 151, 154-158 and 161). *)
Definition callback `{Platform} (ev : event) (l : listener) : option (M unit) :=
  match ev, l with
  | Click_addTaskBtn now, AddTaskBtn_click => Some (addTask now)
  | Keypress_taskInput key now, TaskInput_keypress =>
      Some (if bool_decide (key = str "Enter") then addTask now else mret tt)
  | Input_searchInput _, SearchInput_input => Some renderTasks
  | _, _ => None
  end.

(** The call a row listener makes (lines 67 and 75).  The functions take a
    number; a listener whose task has another kind of [id] is outside the
    embedding ([None]). *)
Definition call_handler `{Platform} (h : handler) : option (M unit) :=
  match h with
  | CallToggleTaskCompletion (Some (JNum n)) => Some (toggleTaskCompletion n)
  | CallRemoveTask (Some (JNum n)) => Some (removeTask n)
  | _ => None
  end.

(** Listeners run in the order of their registration; an exception of one
    is reported and the next one still runs. *)
Fixpoint run_listeners (ms : list (M unit)) (st : state) : list exn * state :=
  match ms with
  | [] => ([], st)
  | m :: rest =>
      match m st with
      | (Ret _, st') => run_listeners rest st'
      | (Throw e, st') =>
          let '(es, st'') := run_listeners rest st' in (e :: es, st'')
      end
  end.

(** The click listeners of child [child] of row [row]; none where there is
    no such element. *)
Definition row_handlers (row child : nat) (st : state) : list handler :=
  match taskList st !! row with
  | Some li =>
      match childNodes li !! child with
      | Some el => click_listeners el
      | None => []
      end
  | None => []
  end.

Definition on_page (pg : page) (r : list exn * state) : list exn * page :=
  (r.1, {| script := r.2; listeners := listeners pg |}).

(** One event: the field of an input event holds its new value before the
    listeners run; the result is the exceptions reported and the page
    left. *)
Definition dispatch `{Platform} (ev : event) (pg : page)
  : option (list exn * page) :=
  let registered := omap (callback ev) (listeners pg) in
  match ev with
  | Click_addTaskBtn _ | Keypress_taskInput _ _ =>
      Some (on_page pg (run_listeners registered (script pg)))
  | Input_taskInput v =>
      Some (on_page pg
              (run_listeners registered
                 (with_inputs v (searchInput_value (script pg)) (script pg))))
  | Input_searchInput v =>
      Some (on_page pg
              (run_listeners registered
                 (with_inputs (taskInput_value (script pg)) v (script pg))))
  | Click_taskText row =>
      ms ← mapM call_handler (row_handlers row 0 (script pg));
      Some (on_page pg (run_listeners ms (script pg)))
  | Click_deleteBtn row =>
      ms ← mapM call_handler (row_handlers row 1 (script pg));
      Some (on_page pg (run_listeners ms (script pg)))
  end.

(** A sequence of events; the exceptions reported are collected. *)
Fixpoint dispatch_all `{Platform} (evs : list event) (pg : page)
  : option (list exn * page) :=
  match evs with
  | [] => Some ([], pg)
  | ev :: rest =>
      r ← dispatch ev pg;
      r' ← dispatch_all rest r.2;
      Some (r.1 ++ r'.1, r'.2)
  end.

(** The clock readings an event hands to [addTask]. *)
Definition clock_reading (ev : event) : list Z :=
  match ev with
  | Click_addTaskBtn now | Keypress_taskInput _ now => [now]
  | _ => []
  end.

Definition clock_readings (evs : list event) : list Z :=
  flat_map clock_reading evs.

(** A reload of the page would load the collection [C] from the storage of
    [st]. *)
Definition persisted (C : list Task) (st : state) : Prop :=
  exists st',
    loadTasks (fresh_page (localStorage st)) = (Ret tt, st')
    /\ todos st' = collection_json C.

(** The listeners of a page after one [setupEventListeners]. *)
Definition standard_listeners : list listener :=
  [AddTaskBtn_click; TaskInput_keypress; SearchInput_input].

(** The page after a successful [init], at the collection [C]: the list and
    the storage mirror the collection and the three listeners are set. *)
Definition healthy `{Platform} (C : list Task) (pg : page) : Prop :=
  todos (script pg) = collection_json C
  /\ taskList (script pg) = rows_of C (script pg)
  /\ persisted C (script pg)
  /\ listeners pg = standard_listeners.

(** The list mirrors the collection [C] and the three listeners are set. *)
Definition mirrored `{Platform} (C : list Task) (pg : page) : Prop :=
  todos (script pg) = collection_json C
  /\ taskList (script pg) = rows_of C (script pg)
  /\ listeners pg = standard_listeners.

(** All code units of a string are white space for [trim]. *)
Definition white_space (s : jsstring) : bool := forallb Char.is_trim_space s.

(** ** More concrete pages *)

(** A second task with the id of [milk]. *)
Definition milk_again : Task :=
  {| id := 1730000000000; text := str "more milk"; completed := true |}.

(** [demo_page] with two tasks of one id. *)
Definition twins_page : state :=
  with_todos (collection_json [milk; milk_again; eggs]) demo_page.

(** [demo_page] with a [null] between its two tasks. *)
Definition broken_page : state :=
  with_todos (JArr [task_json milk; JNull; task_json eggs]) demo_page.

(** A page that has loaded the object of [object_page], with text in the
    task field. *)
Definition object_state : state :=
  with_inputs (str "x") [] (with_todos (JObj []) object_page).

(** [demo_page] with one task whose id is an object with an own [toString]
    property, which a stored collection may hold. *)
Definition stubborn_page : state :=
  with_todos
    (JArr [JObj [(k_id, JObj [(str "toString", JNum (NInt 1))]);
                 (k_text, JStr (str "a"))]])
    demo_page.

(** A page before [init] whose slot holds a saved collection. *)
Definition stored_page : page :=
  {| script :=
       fresh_page
         {[ STORAGE_KEY := JSON.stringify (collection_json [milk; eggs]) ]};
     listeners := [] |}.

(** That page after [init], over the ASCII platform. *)
Definition started_page : page := (@init ascii_platform stored_page).2.

Definition truncated_site : page :=
  {| script := truncated_page; listeners := [] |}.

Definition object_site : page :=
  {| script := object_page; listeners := [] |}.

(** A session on the page: a search, a new task, a toggle, a removal. *)
Definition session : list event :=
  [ Input_searchInput (str "milk");
    Input_taskInput (str " feed cat ");
    Keypress_taskInput (str "a") 1730000000005;
    Keypress_taskInput (str "Enter") 1730000000006;
    Click_taskText 2;
    Click_deleteBtn 0;
    Click_addTaskBtn 1730000000007 ].

(** The page that the session leaves. *)
Definition finished_page : page :=
  match @dispatch_all ascii_platform session started_page with
  | Some r => r.2
  | None => started_page
  end.

(** * Properties *)

(** ** Strings *)

Lemma starts_with_spec (q s : jsstring) :
  starts_with q s = true <-> exists after, s = q ++ after.
Proof.
  revert s. induction q as [|a q IH]; intros s; simpl.
  - split; [intros _; by exists s | done].
  - destruct s as [|b s].
    + split; [done | intros [after Heq]; discriminate].
    + rewrite andb_true_iff, N.eqb_eq, IH. split.
      * intros [-> [after ->]]. by exists after.
      * intros [after Heq]. injection Heq as -> ->. eauto.
Qed.

Lemma includes_spec (s q : jsstring) :
  includes s q = true <-> Substring q s.
Proof.
  unfold Substring. induction s as [|c s IH]; simpl.
  - rewrite orb_false_r, starts_with_spec. split.
    + intros [after Heq]. exists [], after. done.
    + intros (before & after & Heq). symmetry in Heq.
      apply app_eq_nil in Heq as [-> Heq].
      apply app_eq_nil in Heq as [-> ->]. by exists [].
  - rewrite orb_true_iff, starts_with_spec, IH. split.
    + intros [[after Heq] | (before & after & Heq)].
      * exists [], after. done.
      * exists (c :: before), after. simpl. by rewrite Heq.
    + intros (before & after & Heq). destruct before as [|b before].
      * left. by exists after.
      * right. simpl in Heq. injection Heq as -> ->. eauto.
Qed.

Lemma includes_empty (s : jsstring) : includes s [] = true.
Proof. by destruct s. Qed.

(** A string of white space only trims to the empty string. *)
Lemma trim_white_space (s : jsstring) :
  forallb Char.is_trim_space s = true -> trim s = [].
Proof.
  intros Hws. unfold trim.
  assert (Hstart : trim_start s = []).
  { induction s as [|c s IH]; [done|]. cbn [forallb] in Hws.
    apply andb_true_iff in Hws as [Hc Hs]. cbn [trim_start].
    rewrite Hc. by apply IH. }
  by rewrite Hstart.
Qed.

(** ** Numbers: the decimal that is printed rounds back *)

Module NumFacts.
Import Num.
Local Open Scope Z_scope.

Lemma eqb_eq (a b : number) : eqb a b = true <-> a = b.
Proof.
  destruct a as [x|m k|s], b as [y|m' k'|s']; cbn [eqb];
    rewrite ?andb_true_iff, ?Z.eqb_eq, ?Pos.eqb_eq, ?Bool.eqb_true_iff;
    split; try (intros; congruence); try done.
  - by intros [-> ->].
  - by intros [= -> ->].
Qed.

Lemma eqb_refl (a : number) : eqb a a = true.
Proof. by apply eqb_eq. Qed.

Lemma opp_involutive (x : number) : opp (opp x) = x.
Proof.
  destruct x as [z|m k|s]; cbn [opp]; rewrite ?Z.opp_involutive, ?negb_involutive; done.
Qed.

Lemma round_opp (x : number) : round (opp x) = opp (round x).
Proof.
  destruct x as [[|p|p]|[|p|p] k|s]; cbn [opp round Z.opp]; try done;
    by rewrite opp_involutive.
Qed.

Lemma is_double_opp (x : number) : is_double (opp x) = is_double x.
Proof.
  unfold is_double. rewrite round_opp.
  destruct (eqb (round x) x) eqn:E.
  - apply eqb_eq in E. rewrite E. apply eqb_refl.
  - destruct (eqb (opp (round x)) (opp x)) eqn:E'; [|done].
    apply eqb_eq in E'. apply (f_equal opp) in E'.
    rewrite !opp_involutive in E'. rewrite E', eqb_refl in E. done.
Qed.

Lemma canonical_opp (x : number) : canonical x -> canonical (opp x).
Proof.
  destruct x as [z|m k|s]; cbn; [done| |done].
  intros Hm. Z.to_euclidean_division_equations. lia.
Qed.

Lemma strip_zeros_canonical (n : nat) (m : Z) : canonical (strip_zeros n m).
Proof.
  revert m. induction n as [|n IH]; intros m; cbn [strip_zeros]; [done|].
  destruct (Z.eqb_spec (m mod 10) 0); [apply IH|done].
Qed.

Lemma normalise_canonical (m e : Z) : canonical (normalise m e).
Proof.
  unfold normalise. destruct (0 <=? e); [done|apply strip_zeros_canonical].
Qed.

Lemma strip_zeros_finite (n : nat) (m : Z) : is_finite (strip_zeros n m) = true.
Proof.
  revert m. induction n as [|n IH]; intros m; cbn [strip_zeros]; [done|].
  destruct (Z.eqb_spec (m mod 10) 0); [apply IH|done].
Qed.

Lemma normalise_finite (m e : Z) : is_finite (normalise m e) = true.
Proof.
  unfold normalise. destruct (0 <=? e); [done|apply strip_zeros_finite].
Qed.

Lemma of_binary_canonical (m e : Z) : canonical (of_binary m e).
Proof.
  unfold of_binary. destruct (0 <=? e); [done|apply normalise_canonical].
Qed.

Lemma round_ratio_canonical (p q : Z) : canonical (round_ratio p q).
Proof.
  unfold round_ratio.
  repeat match goal with |- context [if ?b then _ else _] => destruct b end;
    try done; apply of_binary_canonical.
Qed.

Lemma round_canonical (x : number) : canonical (round x).
Proof.
  destruct x as [[|p|p]|[|p|p] k|s]; cbn [round]; try done;
    try apply canonical_opp; apply round_ratio_canonical.
Qed.

Lemma is_double_canonical (x : number) : is_double x = true -> canonical x.
Proof.
  unfold is_double. intros Hx. apply eqb_eq in Hx. rewrite <- Hx.
  apply round_canonical.
Qed.

Lemma candidate_sound (x : number) (mant e : Z) (j : nat) (y : number) :
  candidate x mant e j = Some y ->
  round y = x /\ canonical y /\ is_finite y = true.
Proof.
  unfold candidate.
  destruct (eqb (round (normalise (mant / 10 ^ Z.of_nat j) (e + Z.of_nat j))) x)
    eqn:Hlo,
    (eqb (round (normalise (mant / 10 ^ Z.of_nat j + 1) (e + Z.of_nat j))) x)
    eqn:Hhi; try done;
    try apply eqb_eq in Hlo; try apply eqb_eq in Hhi.
  - destruct (_ || _); intros [= <-];
      (split; [done|]); split; auto using normalise_canonical, normalise_finite.
  - intros [= <-]. split; [done|].
    split; auto using normalise_canonical, normalise_finite.
  - intros [= <-]. split; [done|].
    split; auto using normalise_canonical, normalise_finite.
Qed.

Lemma shortest_from_sound (x : number) (mant e : Z) (j : nat) :
  round x = x -> canonical x -> is_finite x = true ->
  round (shortest_from x mant e j) = x
  /\ canonical (shortest_from x mant e j)
  /\ is_finite (shortest_from x mant e j) = true.
Proof.
  intros Hx Hc Hf. induction j as [|j IH]; cbn [shortest_from]; [done|].
  destruct (candidate x mant e (S j)) as [y|] eqn:Hy; [|done].
  by apply candidate_sound in Hy.
Qed.

Lemma is_finite_opp (x : number) : is_finite (opp x) = is_finite x.
Proof. by destruct x. Qed.

(** The decimal that is printed for a Number value rounds back to it. *)
Lemma shortest_sound (x : number) :
  is_double x = true -> is_finite x = true ->
  round (shortest x) = x /\ canonical (shortest x)
  /\ is_finite (shortest x) = true.
Proof.
  intros Hd Hf. pose proof (is_double_canonical x Hd) as Hc.
  assert (Hx : round x = x) by by apply eqb_eq.
  assert (Ho : round (opp x) = opp x) by by rewrite round_opp, Hx.
  destruct x as [[|p|p]|[|p|p] k|s]; cbn [shortest]; try done.
  - by apply shortest_from_sound.
  - destruct (shortest_from_sound (opp (NInt (Z.neg p))) (Z.pos p) 0
                (length (digits (Z.pos p)) - 1)) as (H1 & H2 & H3);
      [done| by apply canonical_opp | done |].
    rewrite round_opp, H1, opp_involutive, is_finite_opp.
    split; [done|]. split; [by apply canonical_opp|done].
  - by apply shortest_from_sound.
  - destruct (shortest_from_sound (opp (NDec (Z.neg p) k)) (Z.pos p) (Z.neg k)
                (length (digits (Z.pos p)) - 1)) as (H1 & H2 & H3);
      [done| by apply canonical_opp | done |].
    rewrite round_opp, H1, opp_involutive, is_finite_opp.
    split; [done|]. split; [by apply canonical_opp|done].
Qed.

(** *** Rounding and the binary64 format *)

Lemma strip_zeros_pow (n : nat) (z : Z) :
  strip_zeros n (z * 10 ^ Z.of_nat n) = NInt z.
Proof.
  revert z. induction n as [|n IH]; intros z.
  - cbn [strip_zeros Z.of_nat]. f_equal. lia.
  - cbn [strip_zeros]. rewrite Nat2Z.inj_succ, Z.pow_succ_r by lia.
    replace (z * (10 * 10 ^ Z.of_nat n)) with ((z * 10 ^ Z.of_nat n) * 10) by ring.
    rewrite Z.mod_mul by lia. cbn [Z.eqb]. rewrite Z.div_mul by lia. apply IH.
Qed.

Lemma strip_zeros_tens (n j : nat) (z : Z) :
  strip_zeros (j + n) (z * 10 ^ Z.of_nat j) = strip_zeros n z.
Proof.
  revert z. induction j as [|j IH]; intros z.
  - cbn [Nat.add Z.of_nat]. f_equal. lia.
  - cbn [Nat.add strip_zeros]. rewrite Nat2Z.inj_succ, Z.pow_succ_r by lia.
    replace (z * (10 * 10 ^ Z.of_nat j)) with ((z * 10 ^ Z.of_nat j) * 10) by ring.
    rewrite Z.mod_mul by lia. cbn [Z.eqb]. rewrite Z.div_mul by lia. apply IH.
Qed.

Lemma pow10_split (n : Z) : 0 <= n -> 10 ^ n = 2 ^ n * 5 ^ n.
Proof. intros Hn. change 10 with (2 * 5). by rewrite Z.pow_mul_l. Qed.

(** [of_binary] depends on the value [m * 2^e] only. *)
Lemma of_binary_shift (m e j : Z) :
  0 <= j -> of_binary (m * 2 ^ j) (e - j) = of_binary m e.
Proof.
  intros Hj. unfold of_binary, normalise.
  destruct (Z.leb_spec 0 (e - j)), (Z.leb_spec 0 e); try lia.
  - f_equal. replace e with (j + (e - j)) at 2 by lia.
    rewrite Z.pow_add_r by lia. ring.
  - replace (m * 2 ^ j * 5 ^ (- (e - j)))
      with (m * 2 ^ e * 10 ^ Z.of_nat (Z.to_nat (- (e - j)))).
    + apply strip_zeros_pow.
    + rewrite Z2Nat.id, pow10_split by lia.
      assert (Hsplit : 2 ^ j = 2 ^ e * 2 ^ (- (e - j)))
        by (rewrite <- Z.pow_add_r by lia; f_equal; lia).
      rewrite Hsplit. ring.
  - replace (Z.to_nat (- (e - j))) with (Z.to_nat j + Z.to_nat (- e))%nat by lia.
    replace (m * 2 ^ j * 5 ^ (- (e - j)))
      with (m * 5 ^ (- e) * 10 ^ Z.of_nat (Z.to_nat j)).
    + apply strip_zeros_tens.
    + rewrite Z2Nat.id, pow10_split by lia.
      assert (Hsplit : 5 ^ (- (e - j)) = 5 ^ (- e) * 5 ^ j)
        by (rewrite <- Z.pow_add_r by lia; f_equal; lia).
      rewrite Hsplit. ring.
Qed.

(** The significand of an exact quotient. *)
Lemma nearest_exact (num den m : Z) :
  0 < den -> num = m * den ->
  (if (den <? 2 * (num mod den))
      || ((den =? 2 * (num mod den)) && Z.odd (num / den))
   then num / den + 1 else num / den) = m.
Proof.
  intros Hden ->. rewrite Z.mod_mul, Z.div_mul by lia.
  rewrite (proj2 (Z.ltb_ge _ _)) by lia.
  rewrite (proj2 (Z.eqb_neq _ _)) by lia. done.
Qed.

Lemma le_scaled (a b c : Z) : 0 < c -> a * c <= b * c <-> a <= b.
Proof. intros Hc. symmetry. by apply Z.mul_le_mono_pos_r. Qed.

(** [ge_pow2 p q d] on a ratio [p / q = m * 2^e]. *)
Lemma ge_pow2_binary (p q m e d : Z) :
  0 < p -> 0 < q -> 0 < m ->
  p * 2 ^ Z.max 0 (- e) = m * 2 ^ Z.max 0 e * q ->
  ge_pow2 p q d = true <-> d <= Z.log2 m + e.
Proof.
  intros Hp Hq Hm Hrel. unfold ge_pow2.
  pose proof (Z.log2_nonneg m) as Hnn.
  assert (Hpos : forall t, 0 <= t -> 0 < 2 ^ t)
    by (intros t Ht; by apply Z.pow_pos_nonneg).
  assert (Hadd : forall a b, 0 <= a -> 0 <= b -> 2 ^ (a + b) = 2 ^ a * 2 ^ b)
    by (intros a b Ha Hb; by apply Z.pow_add_r).
  destruct (Z_lt_le_dec (d - e) 0) as [Ht|Ht].
  - (* below the ratio by the exponents alone *)
    split; [lia|]. intros _.
    destruct (Z.leb_spec 0 d) as [Hd|Hd]; apply Z.leb_le.
    + rewrite Z.max_l, Z.max_r in Hrel by lia. rewrite Z.pow_0_r, ?Z.mul_1_r in Hrel.
      replace e with (d + (e - d)) in Hrel by lia.
      rewrite Hadd in Hrel by lia.
      pose proof (Hpos d ltac:(lia)). pose proof (Hpos (e - d) ltac:(lia)).
      assert (1 <= m * 2 ^ (e - d)) by nia. assert (0 < q * 2 ^ d) by nia.
      replace p with ((m * 2 ^ (e - d)) * (q * 2 ^ d)) by (rewrite Hrel; ring).
      nia.
    + pose proof (Hpos (- d) ltac:(lia)).
      destruct (Z_lt_le_dec e 0) as [He|He].
      * rewrite Z.max_r, Z.max_l in Hrel by lia. rewrite Z.pow_0_r, ?Z.mul_1_r in Hrel.
        replace (- d) with (- e + (e - d)) by lia. rewrite Hadd by lia.
        pose proof (Hpos (- e) ltac:(lia)). pose proof (Hpos (e - d) ltac:(lia)).
        replace (p * (2 ^ (- e) * 2 ^ (e - d)))
          with ((p * 2 ^ (- e)) * 2 ^ (e - d)) by ring.
        rewrite Hrel.
        replace (m * q * 2 ^ (e - d)) with ((m * 2 ^ (e - d)) * q) by ring.
        assert (1 <= m * 2 ^ (e - d)) by nia. nia.
      * rewrite Z.max_l, Z.max_r in Hrel by lia. rewrite Z.pow_0_r, ?Z.mul_1_r in Hrel.
        pose proof (Hpos e ltac:(lia)).
        assert (1 <= m * 2 ^ e) by nia.
        replace (p * 2 ^ (- d)) with ((m * 2 ^ e * 2 ^ (- d)) * q)
          by (rewrite Hrel; ring).
        assert (1 <= m * 2 ^ e * 2 ^ (- d)) by nia. nia.
  - assert (Hiff : d <= Z.log2 m + e <-> 2 ^ (d - e) <= m)
      by (rewrite (Z.log2_le_pow2 m (d - e)) by lia; lia).
    rewrite Hiff. clear Hiff.
    pose proof (Hpos (d - e) Ht) as HT.
    destruct (Z.leb_spec 0 d) as [Hd|Hd]; rewrite Z.leb_le.
    + destruct (Z_lt_le_dec e 0) as [He|He].
      * rewrite Z.max_r, Z.max_l in Hrel by lia.
        rewrite Z.pow_0_r, ?Z.mul_1_r in Hrel.
        pose proof (Hpos (- e) ltac:(lia)) as HE.
        rewrite <- (le_scaled (q * 2 ^ d) p (2 ^ (- e))) by done.
        rewrite Hrel.
        replace (q * 2 ^ d * 2 ^ (- e)) with (2 ^ (d - e) * q)
          by (replace (d - e) with (d + - e) by lia; rewrite Hadd by lia; ring).
        by apply le_scaled.
      * rewrite Z.max_l, Z.max_r in Hrel by lia.
        rewrite Z.pow_0_r, ?Z.mul_1_r in Hrel.
        pose proof (Hpos e He) as HE. subst p.
        replace (q * 2 ^ d) with (2 ^ (d - e) * (2 ^ e * q))
          by (replace d with (d - e + e) at 2 by lia; rewrite Hadd by lia;
              ring).
        replace (m * 2 ^ e * q) with (m * (2 ^ e * q)) by ring.
        apply le_scaled. nia.
    + rewrite Z.max_r, Z.max_l in Hrel by lia.
      rewrite Z.pow_0_r, ?Z.mul_1_r in Hrel.
      pose proof (Hpos (- e) ltac:(lia)) as HE.
      pose proof (Hpos (- d) ltac:(lia)) as HD.
      rewrite <- (le_scaled q (p * 2 ^ (- d)) (2 ^ (- e))) by done.
      replace (p * 2 ^ (- d) * 2 ^ (- e)) with (p * 2 ^ (- e) * 2 ^ (- d))
        by ring.
      rewrite Hrel.
      replace (q * 2 ^ (- e)) with (2 ^ (d - e) * (q * 2 ^ (- d)))
        by (replace (- e) with (d - e + - d) by lia; rewrite Hadd by lia; ring).
      replace (m * q * 2 ^ (- d)) with (m * (q * 2 ^ (- d))) by ring.
      apply le_scaled. nia.
Qed.

(** The two ends of [log2_ratio]. *)
Lemma log2_ratio_spec (p q : Z) :
  0 < p -> 0 < q ->
  ge_pow2 p q (log2_ratio p q) = true
  /\ ge_pow2 p q (log2_ratio p q + 1) = false.
Proof.
  intros Hp Hq. unfold log2_ratio.
  destruct (Z.log2_spec p Hp) as [Hplo Hphi].
  destruct (Z.log2_spec q Hq) as [Hqlo Hqhi].
  pose proof (Z.log2_nonneg p). pose proof (Z.log2_nonneg q).
  set (lp := Z.log2 p) in *. set (lq := Z.log2 q) in *.
  clearbody lp lq. rewrite <- !Z.add_1_r in *.
  assert (Hbelow : ge_pow2 p q (lp - lq - 1) = true).
  { unfold ge_pow2. destruct (Z.leb_spec 0 (lp - lq - 1)); apply Z.leb_le.
    - assert (2 ^ (lq + 1) * 2 ^ (lp - lq - 1) = 2 ^ lp)
        by (rewrite <- Z.pow_add_r by lia; f_equal; lia).
      assert (0 < 2 ^ (lp - lq - 1)) by (apply Z.pow_pos_nonneg; lia). nia.
    - assert (2 ^ lp * 2 ^ (- (lp - lq - 1)) = 2 ^ (lq + 1))
        by (rewrite <- Z.pow_add_r by lia; f_equal; lia).
      assert (0 < 2 ^ (- (lp - lq - 1))) by (apply Z.pow_pos_nonneg; lia). nia. }
  assert (Habove : ge_pow2 p q (lp - lq + 1) = false).
  { unfold ge_pow2. destruct (Z.leb_spec 0 (lp - lq + 1)); apply Z.leb_gt.
    - assert (2 ^ lq * 2 ^ (lp - lq + 1) = 2 ^ (lp + 1))
        by (rewrite <- Z.pow_add_r by lia; f_equal; lia).
      assert (0 < 2 ^ (lp - lq + 1)) by (apply Z.pow_pos_nonneg; lia). nia.
    - assert (2 ^ (lp + 1) * 2 ^ (- (lp - lq + 1)) = 2 ^ lq)
        by (rewrite <- Z.pow_add_r by lia; f_equal; lia).
      assert (0 < 2 ^ (- (lp - lq + 1))) by (apply Z.pow_pos_nonneg; lia). nia. }
  destruct (ge_pow2 p q (lp - lq)) eqn:Hmid.
  - by rewrite Hmid.
  - replace (lp - lq - 1 + 1) with (lp - lq) by lia. by rewrite Hbelow, Hmid.
Qed.

Lemma log2_ratio_binary (p q m e : Z) :
  0 < p -> 0 < q -> 0 < m ->
  p * 2 ^ Z.max 0 (- e) = m * 2 ^ Z.max 0 e * q ->
  log2_ratio p q = Z.log2 m + e.
Proof.
  intros Hp Hq Hm Hrel.
  destruct (log2_ratio_spec p q Hp Hq) as [Hlo Hhi].
  apply (ge_pow2_binary p q m e) in Hlo; [|done..].
  assert (~ log2_ratio p q + 1 <= Z.log2 m + e); [|lia].
  intros Hle. apply (ge_pow2_binary p q m e) in Hle; [|done..]. congruence.
Qed.

(** Rounding leaves [m * 2^e] in place when binary64 holds it. *)
Lemma round_ratio_binary (p q m e : Z) :
  0 < p -> 0 < q -> 0 < m < 2 ^ 53 -> -1074 <= e ->
  m * 2 ^ e < 2 ^ 1024 ->
  p * 2 ^ Z.max 0 (- e) = m * 2 ^ Z.max 0 e * q ->
  round_ratio p q = of_binary m e.
Proof.
  intros Hp Hq Hm He Hmax Hrel. unfold round_ratio.
  rewrite (log2_ratio_binary p q m e) by (done || lia).
  assert (Hlog : 0 <= Z.log2 m < 53).
  { split; [apply Z.log2_nonneg|]. apply Z.log2_lt_pow2; lia. }
  remember (Z.max (Z.log2 m + e - 52) (-1074)) as e' eqn:He'.
  assert (Hle : e' <= e) by lia.
  assert (Hj : 0 < 2 ^ (e - e')) by (apply Z.pow_pos_nonneg; lia).
  rewrite (nearest_exact _ _ (m * 2 ^ (e - e'))).
  - assert (Hover : (0 <=? e') && (2 ^ 1024 <=? m * 2 ^ (e - e') * 2 ^ e')
                    = false).
    { destruct (Z.leb_spec 0 e'); [|done]. cbn [andb]. apply Z.leb_gt.
      rewrite <- Z.mul_assoc, <- Z.pow_add_r by lia.
      by replace (e - e' + e') with e by lia. }
    rewrite Hover. rewrite <- (of_binary_shift m e (e - e')) by lia.
    f_equal. lia.
  - destruct (Z.leb_spec 0 e'); [|done].
    assert (0 < 2 ^ e') by (apply Z.pow_pos_nonneg; lia). nia.
  - destruct (Z.leb_spec 0 e') as [He0|He0].
    + rewrite Z.max_l, Z.max_r in Hrel by lia.
      rewrite Z.pow_0_r, ?Z.mul_1_r in Hrel. subst p.
      replace e with (e - e' + e') at 1 by lia.
      rewrite Z.pow_add_r by lia. ring.
    + destruct (Z_lt_le_dec e 0) as [Hneg|Hnn].
      * rewrite Z.max_r, Z.max_l in Hrel by lia.
        rewrite Z.pow_0_r, ?Z.mul_1_r in Hrel.
        replace (- e') with (- e + (e - e')) by lia.
        rewrite Z.pow_add_r by lia.
        replace (p * (2 ^ (- e) * 2 ^ (e - e')))
          with (p * 2 ^ (- e) * 2 ^ (e - e')) by ring.
        rewrite Hrel. ring.
      * rewrite Z.max_l, Z.max_r in Hrel by lia.
        rewrite Z.pow_0_r, ?Z.mul_1_r in Hrel. subst p.
        replace (e - e') with (e + - e') by lia.
        rewrite Z.pow_add_r by lia. ring.
Qed.

Lemma strip_zeros_value (n : nat) (m0 : Z) :
  match strip_zeros n m0 with
  | NInt z => m0 = z * 10 ^ Z.of_nat n
  | NDec m k => m0 * 10 ^ Z.pos k = m * 10 ^ Z.of_nat n
  | NInf _ => False
  end.
Proof.
  revert m0. induction n as [|n IH]; intros m0; cbn [strip_zeros].
  - cbn. lia.
  - destruct (Z.eqb_spec (m0 mod 10) 0) as [Hmod|Hmod].
    + specialize (IH (m0 / 10)).
      assert (Hm0 : m0 = 10 * (m0 / 10))
        by (rewrite (Z.div_mod m0 10) at 1 by lia; lia).
      rewrite Nat2Z.inj_succ, Z.pow_succ_r by lia.
      destruct (strip_zeros n (m0 / 10)) as [z|m k|s]; [| |done].
      * rewrite Hm0, IH. ring.
      * rewrite Hm0. replace (10 * (m0 / 10) * 10 ^ Z.pos k)
          with (10 * (m0 / 10 * 10 ^ Z.pos k)) by ring.
        rewrite IH. ring.
    + rewrite Zpos_P_of_succ_nat, <- Nat2Z.inj_succ. done.
Qed.

Lemma strip_zeros_opp (n : nat) (m : Z) :
  strip_zeros n (- m) = opp (strip_zeros n m).
Proof.
  revert m. induction n as [|n IH]; intros m; cbn [strip_zeros]; [done|].
  assert (Hmod : (- m) mod 10 = 0 <-> m mod 10 = 0)
    by (Z.to_euclidean_division_equations; lia).
  destruct (Z.eqb_spec (m mod 10) 0) as [Hm|Hm],
    (Z.eqb_spec ((- m) mod 10) 0) as [Hm'|Hm']; try tauto.
  rewrite <- IH. f_equal. Z.to_euclidean_division_equations. lia.
Qed.

Lemma of_binary_opp (m e : Z) : of_binary (- m) e = opp (of_binary m e).
Proof.
  unfold of_binary, normalise. destruct (0 <=? e).
  - cbn [opp]. f_equal. ring.
  - rewrite <- strip_zeros_opp. f_equal. ring.
Qed.

Lemma round_NInt_pos (z : Z) : 0 < z -> round (NInt z) = round_ratio z 1.
Proof. by destruct z. Qed.

Lemma round_NDec_pos (m : Z) (k : positive) :
  0 < m -> round (NDec m k) = round_ratio m (10 ^ Z.pos k).
Proof. by destruct m. Qed.

Lemma mul_cancel_pos (a b c : Z) : 0 < c -> a * c = b * c -> a = b.
Proof. intros Hc Heq. nia. Qed.

(** Rounding leaves a positive value that binary64 holds in place. *)
Lemma round_of_binary_pos (m e : Z) :
  0 < m < 2 ^ 53 -> -1074 <= e -> m * 2 ^ e < 2 ^ 1024 ->
  round (of_binary m e) = of_binary m e.
Proof.
  intros Hm He Hmax.
  assert (Hgoal : forall p q, 0 < p -> 0 < q ->
            p * 2 ^ Z.max 0 (- e) = m * 2 ^ Z.max 0 e * q ->
            round_ratio p q = of_binary m e)
    by (intros p q Hp Hq Hrel; by apply round_ratio_binary).
  unfold of_binary at 1. destruct (Z.leb_spec 0 e) as [He0|He0].
  - assert (0 < 2 ^ e) by (apply Z.pow_pos_nonneg; lia).
    rewrite round_NInt_pos by nia. apply Hgoal; [nia|lia|].
    rewrite Z.max_l, Z.max_r by lia. rewrite Z.pow_0_r. ring.
  - unfold normalise. destruct (Z.leb_spec 0 e); [lia|].
    pose proof (strip_zeros_value (Z.to_nat (- e)) (m * 5 ^ (- e))) as Hval.
    rewrite Z2Nat.id in Hval by lia.
    assert (H5 : 0 < 5 ^ (- e)) by (apply Z.pow_pos_nonneg; lia).
    assert (H2 : 0 < 2 ^ (- e)) by (apply Z.pow_pos_nonneg; lia).
    rewrite pow10_split in Hval by lia.
    destruct (strip_zeros _ _) as [z|m' k|s]; [| |done].
    + assert (Hz : m = z * 2 ^ (- e)).
      { apply (mul_cancel_pos _ _ (5 ^ (- e))); [done|]. rewrite Hval. ring. }
      rewrite round_NInt_pos by nia. apply Hgoal; [nia|lia|].
      rewrite Z.max_r, Z.max_l by lia. rewrite Z.pow_0_r. lia.
    + assert (H10 : 0 < 10 ^ Z.pos k) by (apply Z.pow_pos_nonneg; lia).
      assert (Hz : m * 10 ^ Z.pos k = m' * 2 ^ (- e)).
      { apply (mul_cancel_pos _ _ (5 ^ (- e))); [done|].
        rewrite <- Z.mul_assoc, (Z.mul_comm (10 ^ _)), Z.mul_assoc, Hval.
        ring. }
      rewrite round_NDec_pos by nia. apply Hgoal; [nia|lia|].
      rewrite Z.max_r, Z.max_l by lia. rewrite Z.pow_0_r. lia.
Qed.

(** Rounding leaves every value that binary64 holds in place. *)
Lemma binary64_is_double (x : number) : binary64 x -> is_double x = true.
Proof.
  unfold is_double. rewrite eqb_eq.
  intros [-> | [[s ->] | (m & e & Hm & He & Hmax & ->)]]; [done..|].
  destruct (Z_lt_le_dec m 0) as [Hneg|Hpos].
  - rewrite <- (Z.opp_involutive m), of_binary_opp, round_opp.
    f_equal. apply round_of_binary_pos; lia.
  - apply round_of_binary_pos; lia.
Qed.

(** Every integer of magnitude up to [2^53] is a Number value. *)
Lemma safe_integer_is_double (z : Z) :
  Z.abs z <= 2 ^ 53 -> is_double (NInt z) = true.
Proof.
  intros Hz. apply binary64_is_double.
  destruct (Z.eq_dec z 0) as [->|Hnz]; [by left|]. right; right.
  destruct (Z.eq_dec (Z.abs z) (2 ^ 53)) as [Hmax|Hlt].
  - exists (z / 2), 1. assert (z = 2 ^ 53 \/ z = - 2 ^ 53) as [-> | ->] by lia;
      repeat split; try (vm_compute; (reflexivity || discriminate)).
  - exists z, 0. assert (2 ^ 53 < 2 ^ 1024) by (by vm_compute).
    split; [lia|]. split; [lia|]. split; [lia|].
    unfold of_binary. cbn. f_equal. lia.
Qed.

Lemma ge_pow2_false (p q d : Z) :
  ge_pow2 p q d = false <-> p * 2 ^ Z.max 0 (- d) < q * 2 ^ Z.max 0 d.
Proof.
  unfold ge_pow2. destruct (Z.leb_spec 0 d).
  - rewrite Z.max_l, Z.max_r, Z.pow_0_r, Z.mul_1_r by lia. apply Z.leb_gt.
  - rewrite Z.max_r, Z.max_l, Z.pow_0_r, Z.mul_1_r by lia. apply Z.leb_gt.
Qed.

Lemma ge_pow2_false_mono (p q d d' : Z) :
  0 < p -> 0 < q -> d <= d' ->
  ge_pow2 p q d = false -> ge_pow2 p q d' = false.
Proof.
  intros Hp Hq Hd. rewrite !ge_pow2_false.
  remember (Z.max 0 (- d)) as a eqn:Ha.
  remember (Z.max 0 d) as b eqn:Hb.
  remember (Z.max 0 (- d')) as a' eqn:Ha'.
  remember (Z.max 0 d') as b' eqn:Hb'.
  intros Hlt.
  assert (H2a : 0 < 2 ^ a) by (apply Z.pow_pos_nonneg; lia).
  assert (H2a' : 0 < 2 ^ a') by (apply Z.pow_pos_nonneg; lia).
  assert (Hle : 2 ^ (b + a') <= 2 ^ (b' + a))
    by (apply Z.pow_le_mono_r; lia).
  rewrite !Z.pow_add_r in Hle by lia.
  apply (Z.mul_lt_mono_pos_r (2 ^ a)); [done|].
  assert (Hstep : p * 2 ^ a * 2 ^ a' < q * 2 ^ b * 2 ^ a')
    by (by apply Z.mul_lt_mono_pos_r).
  assert (Hq' : q * (2 ^ b * 2 ^ a') <= q * (2 ^ b' * 2 ^ a))
    by (apply Z.mul_le_mono_nonneg_l; lia).
  lia.
Qed.

Lemma of_binary_zero (e : Z) : of_binary 0 e = NInt 0.
Proof.
  unfold of_binary, normalise. destruct (0 <=? e); [done|].
  rewrite Z.mul_0_l. apply (strip_zeros_pow (Z.to_nat (- e)) 0).
Qed.

(** The significand that [round_ratio] computes has at most 53 bits before
    it is rounded. *)
Lemma round_ratio_quotient (p q e : Z) :
  0 < p -> 0 < q -> log2_ratio p q - 52 <= e ->
  let num := if 0 <=? e then p else p * 2 ^ (- e) in
  let den := if 0 <=? e then q * 2 ^ e else q in
  0 < den /\ 0 <= num / den < 2 ^ 53.
Proof.
  intros Hp Hq He num den.
  destruct (log2_ratio_spec p q Hp Hq) as [_ Hhi].
  apply (ge_pow2_false_mono p q _ (e + 53)) in Hhi; [|done|done|lia].
  apply ge_pow2_false in Hhi.
  assert (Hnum : 0 < den /\ 0 <= num /\ num < 2 ^ 53 * den).
  { subst num den. destruct (Z.leb_spec 0 e) as [He0|He0].
    - assert (0 < 2 ^ e) by (apply Z.pow_pos_nonneg; lia).
      rewrite Z.max_l, Z.max_r, Z.pow_0_r, Z.pow_add_r in Hhi by lia. nia.
    - assert (H2 : 0 < 2 ^ (- e)) by (apply Z.pow_pos_nonneg; lia).
      destruct (Z_lt_le_dec (e + 53) 0) as [Hd|Hd].
      + rewrite Z.max_r, Z.max_l, Z.pow_0_r in Hhi by lia.
        replace (- e) with (- (e + 53) + 53) by lia.
        rewrite Z.pow_add_r by lia.
        assert (0 < 2 ^ (- (e + 53))) by (apply Z.pow_pos_nonneg; lia).
        nia.
      + rewrite Z.max_l, Z.max_r, Z.pow_0_r in Hhi by lia.
        assert (Hsplit : 2 ^ (e + 53) * 2 ^ (- e) = 2 ^ 53)
          by (rewrite <- Z.pow_add_r by lia; f_equal; lia).
        assert (p * 2 ^ (- e) < q * 2 ^ (e + 53) * 2 ^ (- e)) by nia.
        nia. }
  destruct Hnum as (Hden & Hnn & Hlt). split; [done|]. split.
  - by apply Z.div_pos.
  - apply Z.div_lt_upper_bound; lia.
Qed.

(** [round_ratio] returns only values that binary64 holds. *)
Lemma round_ratio_binary64 (p q : Z) :
  0 < p -> 0 < q -> binary64 (round_ratio p q).
Proof.
  intros Hp Hq. unfold round_ratio.
  remember (Z.max (log2_ratio p q - 52) (-1074)) as e eqn:He.
  destruct (round_ratio_quotient p q e Hp Hq ltac:(lia)) as (Hden & Hquo).
  cbv zeta in Hden, Hquo.
  remember (if 0 <=? e then p else p * 2 ^ (- e)) as num eqn:Hnum.
  remember (if 0 <=? e then q * 2 ^ e else q) as den eqn:Hdeneq.
  remember (if (den <? 2 * (num mod den))
               || ((den =? 2 * (num mod den)) && Z.odd (num / den))
            then num / den + 1 else num / den) as m eqn:Hm.
  assert (Hmr : 0 <= m <= 2 ^ 53) by (subst m; destruct (_ || _); lia).
  clear Hm Hquo Hnum Hdeneq Hden.
  destruct ((0 <=? e) && (2 ^ 1024 <=? m * 2 ^ e)) eqn:Hover.
  { right; left. by eexists. }
  assert (Hmax : 0 <= e -> m * 2 ^ e < 2 ^ 1024).
  { intros He0. apply andb_false_iff in Hover as [Hover|Hover].
    - apply Z.leb_gt in Hover. lia.
    - by apply Z.leb_gt in Hover. }
  destruct (Z.eq_dec m 0) as [->|Hnz]; [left; apply of_binary_zero|].
  right; right.
  destruct (Z.eq_dec m (2 ^ 53)) as [->|Hlt].
  - exists (2 ^ 52), (e + 1). split; [by vm_compute|]. split; [lia|]. split.
    + destruct (Z_lt_le_dec e 0) as [Hneg|Hpos].
      * destruct (Z.eq_dec e (-1)) as [->|Hne]; [by vm_compute|].
        rewrite (Z.pow_neg_r 2 (e + 1)) by lia. by vm_compute.
      * specialize (Hmax Hpos). rewrite Z.pow_add_r by lia.
        change (2 ^ 53) with (2 ^ 52 * 2 ^ 1) in Hmax.
        change (Z.abs (2 ^ 52)) with (2 ^ 52). lia.
    + rewrite <- (of_binary_shift (2 ^ 52) (e + 1) 1) by lia.
      f_equal. lia.
  - exists m, e. rewrite Z.abs_eq by lia. split; [lia|]. split; [lia|].
    split; [|done].
    destruct (Z_lt_le_dec e 0) as [Hneg|Hpos]; [|by apply Hmax].
    rewrite (Z.pow_neg_r 2 e) by lia. rewrite Z.mul_0_r. by vm_compute.
Qed.

Lemma binary64_opp (x : number) : binary64 x -> binary64 (opp x).
Proof.
  intros [-> | [[s ->] | (m & e & Hm & He & Hmax & ->)]].
  - by left.
  - right; left. by eexists.
  - right; right. exists (- m), e. rewrite Z.abs_opp, of_binary_opp. done.
Qed.

(** [round] returns only values that binary64 holds. *)
Lemma round_binary64 (x : number) : binary64 (round x).
Proof.
  assert (H10 : forall k, 0 < 10 ^ Z.pos k)
    by (intros k; by apply Z.pow_pos_nonneg).
  destruct x as [[|p|p]|[|p|p] k|s]; cbn [round].
  - by left.
  - by apply round_ratio_binary64.
  - by apply binary64_opp, round_ratio_binary64.
  - by left.
  - by apply round_ratio_binary64.
  - by apply binary64_opp, round_ratio_binary64.
  - right; left. by eexists.
Qed.

(** The Number values are exactly the values that binary64 holds. *)
Lemma is_double_binary64 (x : number) : is_double x = true <-> binary64 x.
Proof.
  split; [|apply binary64_is_double].
  unfold is_double. rewrite eqb_eq. intros <-. apply round_binary64.
Qed.

(** Rounding twice is rounding once. *)
Lemma round_is_double (x : number) : is_double (round x) = true.
Proof. apply binary64_is_double, round_binary64. Qed.

(** What [round_ratio] returns for [p / q]: with [e] the exponent of the
    last place, a significand [m] of at most 53 bits with
    [|p / q - m * 2^e| <= 2^e / 2], the even one of two that are as near;
    the value is [m * 2^e], or the infinity when that is [2^1024] or more. *)
Lemma round_ratio_nearest (p q : Z) :
  0 < p -> 0 < q ->
  let e := Z.max (log2_ratio p q - 52) (-1074) in
  let num := p * 2 ^ Z.max 0 (- e) in
  let den := q * 2 ^ Z.max 0 e in
  exists m,
    0 <= m <= 2 ^ 53
    /\ round_ratio p q
       = (if (0 <=? e) && (2 ^ 1024 <=? m * 2 ^ e) then NInf false
          else of_binary m e)
    /\ 2 * Z.abs (num - m * den) <= den
    /\ (2 * Z.abs (num - m * den) = den -> Z.even m = true).
Proof.
  intros Hp Hq e num den. unfold round_ratio. fold e.
  destruct (round_ratio_quotient p q e Hp Hq ltac:(lia)) as (Hden & Hquo).
  cbv zeta in Hden, Hquo.
  assert (Hnum : (if 0 <=? e then p else p * 2 ^ (- e)) = num).
  { subst num. destruct (Z.leb_spec 0 e).
    - by rewrite Z.max_l, Z.pow_0_r, Z.mul_1_r by lia.
    - by rewrite Z.max_r by lia. }
  assert (Hdeneq : (if 0 <=? e then q * 2 ^ e else q) = den).
  { subst den. destruct (Z.leb_spec 0 e).
    - by rewrite Z.max_r by lia.
    - by rewrite Z.max_l, Z.pow_0_r, Z.mul_1_r by lia. }
  rewrite Hnum, Hdeneq in *. clearbody num den e.
  pose proof (Z.div_mod num den ltac:(lia)) as Hdiv.
  pose proof (Z.mod_pos_bound num den Hden) as Hrem.
  remember (num / den) as quo eqn:Hq'. remember (num mod den) as r eqn:Hr'.
  exists (if (den <? 2 * r) || ((den =? 2 * r) && Z.odd quo)
          then quo + 1 else quo).
  destruct (Z.ltb_spec den (2 * r)) as [Hlt|Hge]; cbn [orb].
  - split; [lia|]. split; [done|]. split; [nia|]. intros Htie. nia.
  - destruct (Z.eqb_spec den (2 * r)) as [Heq|Hne]; cbn [andb].
    + destruct (Z.odd quo) eqn:Hodd.
      * split; [lia|]. split; [done|]. split; [nia|]. intros _.
        by rewrite Z.add_1_r, Z.even_succ.
      * split; [lia|]. split; [done|]. split; [nia|]. intros _.
        by rewrite <- Z.negb_odd, Hodd.
    + split; [lia|]. split; [done|]. split; [nia|]. intros Htie. nia.
Qed.

(** *** Known values *)

Example round_ties_to_even :
  round (NInt (2 ^ 53 + 1)) = NInt (2 ^ 53)
  /\ round (NInt (2 ^ 53 + 3)) = NInt (2 ^ 53 + 4)
  /\ round (NInt (- (2 ^ 53 + 1))) = NInt (- 2 ^ 53).
Proof. by vm_compute. Qed.

Example round_overflows :
  round (NInt (2 ^ 1024 - 2 ^ 970 - 1)) = NInt (2 ^ 1024 - 2 ^ 971)
  /\ round (NInt (2 ^ 1024 - 2 ^ 970)) = NInf false
  /\ round (NInt (10 ^ 400)) = NInf false
  /\ round (NInt (- 10 ^ 400)) = NInf true.
Proof. by vm_compute. Qed.

Example round_underflows :
  round (NDec 5 324) = of_binary 1 (-1074)
  /\ round (NDec 3 324) = of_binary 1 (-1074)
  /\ round (NDec 2 324) = NInt 0
  /\ is_double (NDec 1 1) = false.
Proof. by vm_compute. Qed.

Example print_layouts :
  print (NInt 1730000000000) = str "1730000000000"
  /\ print (round (NInt 123456789012345677877)) = str "123456789012345680000"
  /\ print (NInt (10 ^ 21)) = str "1e+21"
  /\ print (round (NDec 15 1)) = str "1.5"
  /\ print (round (NDec 1 1)) = str "0.1"
  /\ print (round (NDec 1 6)) = str "0.000001"
  /\ print (round (NDec 1 7)) = str "1e-7"
  /\ print (round (NDec (-1234) 2)) = str "-12.34"
  /\ print (of_binary 1 (-1074)) = str "5e-324"
  /\ print (NInt (2 ^ 1024 - 2 ^ 971)) = str "1.7976931348623157e+308".
Proof. by vm_compute. Qed.

Example print_shortest :
  print (round (NDec 30000000000000004441 20)) = str "0.30000000000000004"
  /\ print (round (NInt 9007199254740993)) = str "9007199254740992"
  /\ print (round (NInt (10 ^ 23))) = str "1e+23"
  /\ print (round (NInt 999999999999999900000)) = str "999999999999999900000"
  /\ print (of_binary 1 (-1022)) = str "2.2250738585072014e-308"
  /\ print (of_binary (2 ^ 52 + 1) (-52)) = str "1.0000000000000002"
  /\ print (round (NDec 79999999999999993 17)) = str "0.7999999999999999"
  /\ print (round (NDec 15 7)) = str "0.0000015"
  /\ print (round (NDec 15 8)) = str "1.5e-7"
  /\ print (round (NDec 123456789 3)) = str "123456.789"
  /\ print (of_binary 3 (-1074)) = str "1.5e-323"
  /\ print (round (NInt 72057594037927945)) = str "72057594037927950".
Proof. by vm_compute. Qed.
End NumFacts.

(** ** JSON text: what [JSON.parse] reads back from [JSON.stringify] *)

Module JSONFacts.
Import JSON.

Lemma hex_val_digit (d : N) : d < 16 -> hex_val (hex_digit d) = Some d.
Proof.
  intros Hd. unfold hex_digit, hex_val, Char.is_digit.
  destruct (N.ltb_spec d 10).
  - replace ((48 <=? 48 + d) && (48 + d <=? 57)) with true.
    + f_equal. lia.
    + symmetry. apply andb_true_iff. split; apply N.leb_le; lia.
  - replace ((48 <=? 87 + d) && (87 + d <=? 57)) with false.
    + replace ((97 <=? 87 + d) && (87 + d <=? 102)) with true.
      * f_equal. lia.
      * symmetry. apply andb_true_iff. split; apply N.leb_le; lia.
    + symmetry. apply andb_false_iff. right. apply N.leb_gt. lia.
Qed.

Lemma hex4_unicode_escape (c : N) :
  c < 65536 ->
  hex4 (hex_digit (c / 4096 mod 16)) (hex_digit (c / 256 mod 16))
       (hex_digit (c / 16 mod 16)) (hex_digit (c mod 16)) = Some c.
Proof.
  intros Hc. unfold hex4.
  rewrite !hex_val_digit by (apply N.mod_lt; lia).
  f_equal. zify. Z.to_euclidean_division_equations. lia.
Qed.

Lemma parse_string_body_literal (c : N) (t : jsstring) :
  c <> 34 -> c <> 92 -> 32 <= c ->
  parse_string_body (c :: t) =
    match parse_string_body t with
    | Some (u, rest) => Some (c :: u, rest)
    | None => None
    end.
Proof.
  intros H34 H92 H32. simpl.
  destruct (N.eqb_spec c 34); [done|].
  destruct (N.eqb_spec c 92); [done|].
  destruct (N.ltb_spec c 32); [lia|].
  by destruct (parse_string_body t) as [[u rest]|].
Qed.

Lemma parse_string_body_unicode_escape (c : N) (t : jsstring) :
  c < 65536 ->
  parse_string_body (unicode_escape c ++ t) =
    match parse_string_body t with
    | Some (u, rest) => Some (c :: u, rest)
    | None => None
    end.
Proof.
  intros Hc. unfold unicode_escape. cbn [app parse_string_body].
  change (92 =? 34) with false. change (92 =? 92) with true.
  change (117 =? 117) with true. cbv iota.
  rewrite hex4_unicode_escape by done.
  by destruct (parse_string_body t) as [[u rest]|].
Qed.

(** One escaped code unit is read back as that code unit. *)
Lemma parse_string_body_quote_char (c : N) (t : jsstring) :
  parse_string_body (quote_char c ++ t) =
    match parse_string_body t with
    | Some (u, rest) => Some (c :: u, rest)
    | None => None
    end.
Proof.
  unfold quote_char.
  repeat (match goal with
          | |- context [if ?x =? ?k then _ else _] =>
              destruct (N.eqb_spec x k) as [->|?];
              [simpl; by destruct (parse_string_body t) as [[u rest]|]|]
          end).
  destruct ((c <? 32) || Char.is_high_surrogate c || Char.is_low_surrogate c)
    eqn:Hesc.
  - apply parse_string_body_unicode_escape.
    unfold Char.is_high_surrogate, Char.is_low_surrogate in Hesc.
    rewrite !orb_true_iff, !andb_true_iff, N.ltb_lt, !N.leb_le in Hesc. lia.
  - apply parse_string_body_literal; [done..|].
    rewrite !orb_false_iff, N.ltb_ge in Hesc. lia.
Qed.

Lemma quote_body_cons (c d : N) (r : jsstring) :
  quote_body (c :: d :: r) =
    if Char.is_high_surrogate c && Char.is_low_surrogate d
    then c :: d :: quote_body r
    else quote_char c ++ quote_body (d :: r).
Proof. done. Qed.

(** A quoted string body, followed by the closing quote, is read back as
    the string. *)
Lemma parse_string_body_quote_body (s rest : jsstring) :
  parse_string_body (quote_body s ++ 34 :: rest) = Some (s, rest).
Proof.
  remember (length s) as n eqn:Hn. revert s Hn.
  induction n as [n IH] using lt_wf_ind. intros s Hn.
  destruct s as [|c [|d r]].
  - done.
  - cbn [quote_body]. by rewrite parse_string_body_quote_char.
  - rewrite quote_body_cons.
    destruct (Char.is_high_surrogate c && Char.is_low_surrogate d) eqn:Hpair.
    + apply andb_true_iff in Hpair as [Hc Hd].
      unfold Char.is_high_surrogate in Hc. unfold Char.is_low_surrogate in Hd.
      rewrite andb_true_iff, !N.leb_le in Hc, Hd.
      cbn [app]. rewrite !parse_string_body_literal by lia.
      assert (Hlt : (length r < n)%nat) by (subst n; simpl; lia).
      by rewrite (IH _ Hlt r eq_refl).
    + rewrite <- app_assoc, parse_string_body_quote_char.
      assert (Hlt : (length (d :: r) < n)%nat) by (subst n; simpl; lia).
      by rewrite (IH _ Hlt (d :: r) eq_refl).
Qed.

(** The decimal digits of a positive number start with a digit other than
    zero. *)
Lemma pos_to_uint_head (p : positive) :
  exists c t, Num.uint_chars (Pos.to_uint p) = c :: t
              /\ Char.is_digit c = true /\ c <> 48.
Proof.
  assert (Hnorm : Pos.to_uint p = Decimal.nzhead (Pos.to_uint p)).
  { rewrite <- unorm_nzhead.
    - rewrite <- DecimalPos.Unsigned.to_of, DecimalPos.Unsigned.of_to. done.
    - intros Hnil.
      assert (Hz : Decimal.unorm (Pos.to_uint p) = Decimal.zero)
        by (unfold Decimal.unorm; by rewrite Hnil).
      rewrite <- DecimalPos.Unsigned.to_of, DecimalPos.Unsigned.of_to in Hz.
      by apply (DecimalPos.Unsigned.to_uint_nonzero p). }
  pose proof (DecimalPos.Unsigned.to_uint_nonnil p) as Hnil.
  pose proof (nzhead_nonzero (Pos.to_uint p)) as Hnz. rewrite <- Hnorm in Hnz.
  destruct (Pos.to_uint p) as [|u|u|u|u|u|u|u|u|u|u]; cbn [Num.uint_chars];
    [done | by destruct (Hnz u) | eexists _, _; by repeat split ..].
Qed.

(** *** Runs of digits *)

Lemma digit_cons_cases (c : N) (u : Decimal.uint) :
  Char.is_digit c = true ->
  (c = 48 /\ Num.digit_cons c u = Decimal.D0 u)
  \/ (c <> 48 /\ Num.digit_cons c u <> Decimal.Nil
      /\ forall v, Num.digit_cons c u <> Decimal.D0 v).
Proof.
  unfold Char.is_digit. rewrite andb_true_iff, !N.leb_le. intros [Hlo Hhi].
  assert (Hc : c = 48 \/ c = 49 \/ c = 50 \/ c = 51 \/ c = 52 \/ c = 53
               \/ c = 54 \/ c = 55 \/ c = 56 \/ c = 57) by lia.
  destruct Hc as [->|[->|[->|[->|[->|[->|[->|[->|[->| ->]]]]]]]]];
    [left; done | right; done ..].
Qed.

Lemma chars_uint_cons (c : N) (l : jsstring) :
  chars_uint (c :: l) = Num.digit_cons c (chars_uint l).
Proof. done. Qed.

Lemma chars_uint_uint_chars (u : Decimal.uint) :
  chars_uint (Num.uint_chars u) = u.
Proof.
  induction u; cbn [Num.uint_chars]; [done|rewrite chars_uint_cons, IHu; done ..].
Qed.

Lemma uint_chars_digits (u : Decimal.uint) :
  forallb Char.is_digit (Num.uint_chars u) = true.
Proof. induction u; cbn; [done|by rewrite IHu..]. Qed.

Lemma read_digits_chars (l rest : jsstring) :
  forallb Char.is_digit l = true -> digit_stops rest = true ->
  Num.read_digits (l ++ rest) = (chars_uint l, rest).
Proof.
  intros Hl Hrest. induction l as [|c l IH].
  - destruct rest as [|c rest]; [done|]. cbn in *.
    by destruct (Char.is_digit c).
  - cbn [forallb] in Hl. apply andb_true_iff in Hl as [Hc Hl].
    cbn [app Num.read_digits]. rewrite Hc, IH by done. done.
Qed.

Lemma to_list_digit_cons (c : N) (u : Decimal.uint) :
  to_list (Num.digit_cons c u)
  = List.hd d0 (to_list (Num.digit_cons c Decimal.Nil)) :: to_list u.
Proof.
  unfold Num.digit_cons.
  repeat match goal with |- context [if ?b then _ else _] => destruct b end;
    done.
Qed.

Lemma app_digit_cons (c : N) (u v : Decimal.uint) :
  Decimal.app (Num.digit_cons c u) v = Num.digit_cons c (Decimal.app u v).
Proof.
  apply to_list_inj.
  rewrite app_spec, (to_list_digit_cons c (Decimal.app u v)),
    (to_list_digit_cons c u), app_spec. done.
Qed.

Lemma chars_uint_app (a b : jsstring) :
  Decimal.app (chars_uint a) (chars_uint b) = chars_uint (a ++ b).
Proof.
  induction a as [|c a IH].
  - apply DecimalFacts.app_nil_l.
  - cbn [app]. by rewrite !chars_uint_cons, app_digit_cons, IH.
Qed.

Lemma nb_digits_digit_cons (c : N) (u : Decimal.uint) :
  Decimal.nb_digits (Num.digit_cons c u) = S (Decimal.nb_digits u).
Proof.
  unfold Num.digit_cons.
  repeat match goal with |- context [if ?b then _ else _] => destruct b end;
    done.
Qed.

Lemma nb_digits_chars_uint (l : jsstring) :
  Decimal.nb_digits (chars_uint l) = length l.
Proof.
  induction l as [|c l IH]; [done|].
  by rewrite chars_uint_cons, nb_digits_digit_cons, IH.
Qed.

Lemma chars_uint_zeros (j : nat) (l : jsstring) :
  Z.of_uint (chars_uint (repeat 48 j ++ l)) = Z.of_uint (chars_uint l).
Proof. induction j as [|j IH]; [done|]. exact IH. Qed.

Lemma of_uint_digits (z : Z) :
  Z.of_uint (chars_uint (Num.digits z)) = Z.abs z.
Proof.
  unfold Num.digits. rewrite chars_uint_uint_chars. unfold Z.of_uint.
  change (Pos.of_uint ?u) with (N.of_uint u).
  rewrite DecimalN.Unsigned.of_to. lia.
Qed.

Lemma digits_all (z : Z) : forallb Char.is_digit (Num.digits z) = true.
Proof. apply uint_chars_digits. Qed.

(** The digits of a number other than zero start with a digit other than
    zero. *)
Lemma digits_head (z : Z) :
  z <> 0%Z ->
  exists c t, Num.digits z = c :: t /\ Char.is_digit c = true /\ c <> 48.
Proof.
  intros Hz. unfold Num.digits. destruct z as [|p|p]; [done|..];
    cbn [Z.abs_N N.to_uint]; apply pos_to_uint_head.
Qed.

Lemma digits_nonempty (z : Z) : Num.digits z <> [].
Proof.
  unfold Num.digits. destruct z as [|p|p]; [done|..]; cbn [Z.abs_N N.to_uint];
    destruct (pos_to_uint_head p) as (c & t & -> & _); done.
Qed.

Lemma number_stops_digit (rest : jsstring) :
  number_stops rest = true -> digit_stops rest = true.
Proof.
  destruct rest as [|c rest]; [done|]. cbn.
  rewrite !negb_true_iff, !orb_false_iff. by intros [[[-> _] _] _].
Qed.

(** *** The parts of a number literal *)

Lemma frac_part_none (rest : jsstring) :
  number_stops rest = true -> frac_part rest = Some (Decimal.Nil, rest).
Proof.
  destruct rest as [|c rest]; [done|]. cbn.
  rewrite !negb_true_iff, !orb_false_iff. by intros [[[_ ->] _] _].
Qed.

Lemma exp_part_none (rest : jsstring) :
  number_stops rest = true -> exp_part rest = Some (0%Z, rest).
Proof.
  destruct rest as [|c rest]; [done|]. cbn.
  rewrite !negb_true_iff, !orb_false_iff. by intros [[[_ _] ->] ->].
Qed.

(** The integer part: a run of digits that starts with a digit other than
    zero. *)
Lemma int_part_digits (c : N) (l rest : jsstring) :
  forallb Char.is_digit (c :: l) = true -> c <> 48 ->
  digit_stops rest = true ->
  int_part ((c :: l) ++ rest) = Some (chars_uint (c :: l), rest).
Proof.
  intros Hl Hc Hrest. unfold int_part. cbn [app].
  destruct (N.eqb_spec c 48); [done|].
  pose proof Hl as Hl'. cbn [forallb] in Hl'.
  apply andb_true_iff in Hl' as [-> _].
  change (c :: l ++ rest) with ((c :: l) ++ rest).
  by rewrite read_digits_chars.
Qed.

(** The fraction: a point and a run of one digit or more. *)
Lemma frac_part_digits (c : N) (l rest : jsstring) :
  forallb Char.is_digit (c :: l) = true -> digit_stops rest = true ->
  frac_part (46 :: (c :: l) ++ rest) = Some (chars_uint (c :: l), rest).
Proof.
  intros Hl Hrest. unfold frac_part. change (46 =? 46) with true. cbv iota.
  rewrite read_digits_chars by done. rewrite chars_uint_cons.
  cbn [forallb] in Hl. apply andb_true_iff in Hl as [Hc _].
  destruct (digit_cons_cases c (chars_uint l) Hc) as [[_ ->]|[_ [Hnil _]]];
    [done|]. by destruct (Num.digit_cons c (chars_uint l)).
Qed.

Lemma exp_digits_digits (neg : bool) (z : Z) (rest : jsstring) :
  digit_stops rest = true ->
  exp_digits neg (Num.digits z ++ rest)
  = Some (if neg then (- Z.abs z)%Z else Z.abs z, rest).
Proof.
  intros Hrest. unfold exp_digits.
  rewrite read_digits_chars by (done || apply digits_all).
  rewrite <- (of_uint_digits z).
  destruct (chars_uint (Num.digits z)) eqn:Hu; try done.
  exfalso. destruct (Num.digits z) as [|c l] eqn:Hd;
    [by apply digits_nonempty in Hd|].
  pose proof (digits_all z) as Hall. rewrite Hd in Hall. cbn [forallb] in Hall.
  apply andb_true_iff in Hall as [Hc _]. rewrite chars_uint_cons in Hu.
  destruct (digit_cons_cases c (chars_uint l) Hc) as [[_ H0]|[_ [Hnil _]]];
    congruence.
Qed.

Lemma parse_unsigned_parts (neg : bool) (s s2 s3 s4 : jsstring)
    (ip fp : Decimal.uint) (e : Z) :
  int_part s = Some (ip, s2) -> frac_part s2 = Some (fp, s3) ->
  exp_part s3 = Some (e, s4) ->
  parse_unsigned neg s
  = Some (Num.round
            (Num.normalise
               (Z.of_int (if neg then Decimal.Neg (Decimal.app ip fp)
                          else Decimal.Pos (Decimal.app ip fp)))
               (e - Z.of_nat (Decimal.nb_digits fp))), s4).
Proof. unfold parse_unsigned. by intros -> -> ->. Qed.

Lemma of_int_sign (neg : bool) (u : Decimal.uint) :
  Z.of_int (if neg then Decimal.Neg u else Decimal.Pos u)
  = (if neg then - Z.of_uint u else Z.of_uint u)%Z.
Proof. by destruct neg. Qed.

(** The text of an integer is read back as the Number value for it. *)
Lemma parse_number_print_int (z : Z) (rest : jsstring) :
  number_stops rest = true ->
  parse_number (Num.print_int z ++ rest) = Some (Num.round (NInt z), rest).
Proof.
  intros Hstop.
  pose proof (frac_part_none rest Hstop) as Hfrac.
  pose proof (exp_part_none rest Hstop) as Hexp.
  pose proof (number_stops_digit rest Hstop) as Hdigit.
  assert (Hpos : forall neg p,
             parse_unsigned neg (Num.uint_chars (Pos.to_uint p) ++ rest)
             = Some (Num.round
                       (NInt (if neg then Z.neg p else Z.pos p)), rest)).
  { intros neg p. destruct (pos_to_uint_head p) as (c & t & Hc & Hd & H48).
    pose proof (uint_chars_digits (Pos.to_uint p)) as Hall.
    rewrite Hc in *.
    rewrite (parse_unsigned_parts neg _ rest rest rest
               (chars_uint (c :: t)) Decimal.Nil 0)
      by (done || by apply int_part_digits).
    rewrite DecimalFacts.app_nil_r, of_int_sign, <- Hc, chars_uint_uint_chars.
    change (Z.of_uint (Pos.to_uint p)) with (Z.of_N (N.of_uint (N.to_uint (N.pos p)))).
    rewrite DecimalN.Unsigned.of_to.
    cbn [Decimal.nb_digits Z.of_nat Z.sub Z.opp Z.add].
    unfold Num.normalise. cbn [Z.leb Z.compare Z.pow Z.pow_pos].
    destruct neg; cbn [Z.of_N Z.opp]; by rewrite Z.mul_1_r. }
  unfold Num.print_int. destruct z as [|p|p]; cbn [Z.to_int].
  - cbn [Num.uint_chars app parse_number]. change (48 =? 45) with false.
    cbv iota.
    by rewrite (parse_unsigned_parts false _ rest rest rest
                  (Decimal.D0 Decimal.Nil) Decimal.Nil 0).
  - destruct (pos_to_uint_head p) as (c & t & Hc & Hd & H48).
    unfold parse_number. rewrite Hc. cbn [app].
    assert ((c =? 45) = false) as ->.
    { apply N.eqb_neq. intros ->. done. }
    change (c :: t ++ rest) with ((c :: t) ++ rest).
    by rewrite <- Hc, (Hpos false).
  - cbn [app parse_number]. change (45 =? 45) with true. cbv iota.
    by rewrite (Hpos true).
Qed.

Lemma skip_ws_head (c : N) (r : jsstring) :
  Char.is_json_ws c = false -> skip_ws (c :: r) = c :: r.
Proof. intros Hc. simpl. by rewrite Hc. Qed.

Lemma print_int_head (z : Z) :
  exists c t, Num.print_int z = c :: t
              /\ (c = 45 \/ Char.is_digit c = true).
Proof.
  unfold Num.print_int. destruct z as [|p|p]; cbn [Z.to_int].
  - eexists _, _. split; [done|]. by right.
  - destruct (pos_to_uint_head p) as (c & t & Hc & Hd & _). eauto.
  - eexists _, _. split; [done|]. by left.
Qed.

Lemma parse_value_string (fuel : nat) (s rest : jsstring) :
  parse_value (S fuel) (quote s ++ rest) = Some (JStr s, rest).
Proof.
  unfold quote. cbn [app parse_value skip_ws].
  change (Char.is_json_ws 34) with false. change (34 =? 34) with true.
  cbv iota. rewrite <- app_assoc. cbn [app].
  by rewrite parse_string_body_quote_body.
Qed.

(** *** The layouts of a decimal *)

Lemma chars_uint_nonnil (l : jsstring) :
  l <> [] -> forallb Char.is_digit l = true -> chars_uint l <> Decimal.Nil.
Proof.
  destruct l as [|c l]; [done|]. intros _ Hl. cbn [forallb] in Hl.
  apply andb_true_iff in Hl as [Hc _]. rewrite chars_uint_cons.
  destruct (digit_cons_cases c (chars_uint l) Hc) as [[_ ->]|[_ [Hnil _]]];
    done.
Qed.

Lemma frac_part_run (l rest : jsstring) :
  l <> [] -> forallb Char.is_digit l = true -> digit_stops rest = true ->
  frac_part (46 :: l ++ rest) = Some (chars_uint l, rest).
Proof.
  intros Hne Hl Hrest. unfold frac_part. change (46 =? 46) with true.
  cbv iota. rewrite read_digits_chars by done.
  pose proof (chars_uint_nonnil l Hne Hl). by destruct (chars_uint l).
Qed.

(** Digits with the point inside them. *)
Lemma parse_unsigned_point (neg : bool) (c : N) (a b rest : jsstring) :
  forallb Char.is_digit (c :: a) = true -> c <> 48 ->
  b <> [] -> forallb Char.is_digit b = true ->
  number_stops rest = true ->
  parse_unsigned neg ((c :: a) ++ 46 :: b ++ rest)
  = Some (Num.round
            (Num.normalise (signed neg (Z.of_uint (chars_uint ((c :: a) ++ b))))
                           (- Z.of_nat (length b))), rest).
Proof.
  intros Ha Hc Hne Hb Hstop.
  rewrite (parse_unsigned_parts neg _ (46 :: b ++ rest) rest rest
             (chars_uint (c :: a)) (chars_uint b) 0).
  - by rewrite chars_uint_app, of_int_sign, nb_digits_chars_uint.
  - by apply int_part_digits.
  - apply frac_part_run; auto using number_stops_digit.
  - by apply exp_part_none.
Qed.

(** Zero, the point, zeros and the digits. *)
Lemma parse_unsigned_leading (neg : bool) (j : nat) (ds rest : jsstring) :
  ds <> [] -> forallb Char.is_digit ds = true ->
  number_stops rest = true ->
  parse_unsigned neg (48 :: 46 :: repeat 48 j ++ ds ++ rest)
  = Some (Num.round
            (Num.normalise (signed neg (Z.of_uint (chars_uint ds)))
                           (- Z.of_nat (j + length ds))), rest).
Proof.
  intros Hne Hds Hstop.
  rewrite (parse_unsigned_parts neg _ (46 :: repeat 48 j ++ ds ++ rest)
             rest rest (Decimal.D0 Decimal.Nil)
             (chars_uint (repeat 48 j ++ ds)) 0).
  - rewrite of_int_sign, nb_digits_chars_uint, length_app, repeat_length.
    change (Decimal.app (Decimal.D0 Decimal.Nil) ?u) with (Decimal.D0 u).
    change (Z.of_uint (Decimal.D0 ?u)) with (Z.of_uint u).
    by rewrite chars_uint_zeros.
  - done.
  - rewrite app_assoc. apply frac_part_run; auto using number_stops_digit.
    + by destruct j, ds.
    + rewrite forallb_app, Hds, andb_true_r.
      clear. induction j as [|j IH]; [done|exact IH].
  - by apply exp_part_none.
Qed.

Lemma exp_part_digits (n : Z) (rest : jsstring) :
  digit_stops rest = true ->
  exp_part (101 :: (if (0 <? n)%Z then 43 else 45) :: Num.digits n ++ rest)
  = Some (n, rest).
Proof.
  intros Hrest. unfold exp_part. change (101 =? 101) with true.
  cbn [orb]. cbv iota. destruct (Z.ltb_spec 0 n).
  - change (43 =? 43) with true. cbv iota.
    rewrite exp_digits_digits by done. f_equal. f_equal. lia.
  - change (45 =? 43) with false. change (45 =? 45) with true. cbv iota.
    rewrite exp_digits_digits by done. f_equal. f_equal. lia.
Qed.

(** The exponent form. *)
Lemma parse_unsigned_exponent (neg : bool) (d : N) (r rest : jsstring)
    (n : Z) :
  forallb Char.is_digit (d :: r) = true -> d <> 48 ->
  number_stops rest = true ->
  parse_unsigned neg (Num.print_exponent (d :: r) n ++ rest)
  = Some (Num.round
            (Num.normalise (signed neg (Z.of_uint (chars_uint (d :: r))))
                           (n - Z.of_nat (length (d :: r)))), rest).
Proof.
  intros Hds Hd Hstop. pose proof (number_stops_digit rest Hstop) as Hdigit.
  pose proof Hds as Hds'. cbn [forallb] in Hds'.
  apply andb_true_iff in Hds' as [Hd' Hr].
  unfold Num.print_exponent. destruct r as [|c r].
  - cbn [app].
    rewrite (parse_unsigned_parts neg _
               (101 :: (if (0 <? n - 1)%Z then 43 else 45)
                    :: Num.digits (n - 1) ++ rest)
               (101 :: (if (0 <? n - 1)%Z then 43 else 45)
                    :: Num.digits (n - 1) ++ rest)
               rest (chars_uint [d]) Decimal.Nil (n - 1)).
    + rewrite DecimalFacts.app_nil_r, of_int_sign. cbn [length Decimal.nb_digits].
      unfold signed. do 4 f_equal. lia.
    + by apply (int_part_digits d []).
    + done.
    + by apply exp_part_digits.
  - cbn [app]. rewrite <- app_assoc. cbn [app].
    change (d :: 46 :: c :: r ++ ?t) with ([d] ++ 46 :: (c :: r) ++ t).
    rewrite (parse_unsigned_parts neg _
               (46 :: (c :: r) ++ 101 :: (if (0 <? n - 1)%Z then 43 else 45)
                   :: Num.digits (n - 1) ++ rest)
               (101 :: (if (0 <? n - 1)%Z then 43 else 45)
                    :: Num.digits (n - 1) ++ rest)
               rest (chars_uint [d]) (chars_uint (c :: r)) (n - 1)).
    + rewrite chars_uint_app, of_int_sign, nb_digits_chars_uint.
      cbn [app length]. unfold signed. do 4 f_equal. lia.
    + apply (int_part_digits d []); [|done..]. cbn. by rewrite Hd'.
    + by apply frac_part_run.
    + by apply exp_part_digits.
Qed.

Lemma parse_number_signed (z : Z) (body : jsstring) (c : N)
    (t rest : jsstring) (v : number) :
  body = c :: t -> Char.is_digit c = true ->
  parse_unsigned (z <? 0)%Z (body ++ rest) = Some (v, rest) ->
  parse_number (Num.sign_chars z ++ body ++ rest) = Some (v, rest).
Proof.
  intros -> Hc Hv. unfold Num.sign_chars. destruct (z <? 0)%Z.
  - cbn [app parse_number]. change (45 =? 45) with true. done.
  - cbn [app parse_number].
    destruct (N.eqb_spec c 45) as [->|]; [done|]. done.
Qed.

Lemma print_exponent_head (d : N) (r : jsstring) (n : Z) :
  exists t, Num.print_exponent (d :: r) n = d :: t.
Proof. unfold Num.print_exponent. eauto. Qed.

Lemma strip_tens_spec (fuel : nat) (z s j : Z) :
  Num.strip_tens fuel z = (s, j) -> (z = s * 10 ^ j /\ 0 <= j)%Z.
Proof.
  revert z s j. induction fuel as [|fuel IH]; intros z s j; cbn [Num.strip_tens].
  - intros [= <- <-]. lia.
  - destruct (Z.eqb_spec (z mod 10) 0) as [Hmod|]; [|intros [= <- <-]; lia].
    destruct (Num.strip_tens fuel (z / 10)) as [s' j'] eqn:Hrec.
    intros [= <- <-]. destruct (IH _ _ _ Hrec) as [Hz Hj]. split; [|lia].
    rewrite Z.pow_add_r, Z.pow_1_r by lia.
    rewrite (Z.div_mod z 10), Hmod, Hz by lia. lia.
Qed.

Lemma normalise_dec (m : Z) (k : positive) :
  (m mod 10 <> 0)%Z -> Num.normalise m (Z.neg k) = NDec m k.
Proof.
  intros Hm. unfold Num.normalise.
  change (0 <=? Z.neg k)%Z with false. change (- Z.neg k)%Z with (Z.pos k).
  change (Z.to_nat (Z.pos k)) with (Pos.to_nat k).
  destruct (Pos2Nat.is_succ k) as [n Hn]. rewrite Hn. cbn [Num.strip_zeros].
  destruct (Z.eqb_spec (m mod 10) 0); [done|]. f_equal.
  apply Pos2Nat.inj. by rewrite SuccNat2Pos.id_succ.
Qed.

Lemma signed_abs (z : Z) : signed (z <? 0)%Z (Z.abs z) = z.
Proof. unfold signed. destruct (Z.ltb_spec z 0); lia. Qed.

(** The text of a decimal in lowest terms is read back as the Number value
    for it. *)
Lemma parse_number_print_decimal (y : number) (rest : jsstring) :
  canonical y -> Num.is_finite y = true -> number_stops rest = true ->
  parse_number (Num.print_decimal y ++ rest) = Some (Num.round y, rest).
Proof.
  intros Hc Hf Hstop. destruct y as [z|m k|s]; [| |done];
    cbn [Num.print_decimal].
  - destruct (Z.abs z <? 10 ^ 21)%Z eqn:Hsmall;
      [by apply parse_number_print_int|].
    apply Z.ltb_ge in Hsmall.
    destruct (Num.strip_tens _ (Z.abs z)) as [s j] eqn:Hstrip.
    apply strip_tens_spec in Hstrip as [Hz Hj].
    assert (Hs : s <> 0%Z) by (intros ->; lia).
    destruct (digits_head s Hs) as (d & r & Hds & Hd & H48).
    pose proof (digits_all s) as Hall. pose proof (of_uint_digits s) as Hval.
    rewrite Hds in *. rewrite <- app_assoc.
    destruct (print_exponent_head d r (Z.of_nat (length (d :: r)) + j))
      as [t Ht].
    apply (parse_number_signed z _ d t rest _ Ht Hd).
    rewrite parse_unsigned_exponent by done. rewrite Hval.
    replace (_ + j - _)%Z with j by lia.
    unfold Num.normalise. rewrite (proj2 (Z.leb_le 0 j)) by done.
    do 3 f_equal. rewrite <- (signed_abs z) at 2. unfold signed.
    assert (0 < 10 ^ j)%Z by (apply Z.pow_pos_nonneg; lia).
    assert (0 < s)%Z by nia.
    rewrite Hz, (Z.abs_eq s) by lia. destruct (z <? 0)%Z; f_equal; ring.
  - cbn [canonical] in Hc. assert (Hm : m <> 0%Z) by (by intros ->).
    destruct (digits_head m Hm) as (d & r & Hds & Hd & H48).
    pose proof (digits_all m) as Hall.
    assert (Hnorm : Num.normalise
                      (signed (m <? 0)%Z (Z.of_uint (chars_uint (Num.digits m))))
                      (Z.neg k) = NDec m k)
      by by rewrite of_uint_digits, signed_abs, normalise_dec.
    rewrite <- Hnorm. clear Hnorm.
    set (n := (Z.of_nat (length (Num.digits m)) - Z.pos k)%Z).
    assert (Hlen : (Z.of_nat (length (Num.digits m)) = n + Z.pos k)%Z)
      by (subst n; lia).
    clearbody n. rewrite <- app_assoc.
    destruct ((0 <? n) && (n <=? 21))%Z eqn:Hpoint.
    + apply andb_true_iff in Hpoint as [Hn _]. apply Z.ltb_lt in Hn.
      destruct (Z.to_nat n) as [|n'] eqn:Hn'; [lia|].
      rewrite Hds in *. cbn [take drop length] in *.
      cbn [forallb] in Hall. apply andb_true_iff in Hall as [_ Hr].
      rewrite <- (take_drop n' r) in Hr. rewrite forallb_app in Hr.
      apply andb_true_iff in Hr as [Ha Hb].
      apply (parse_number_signed m _ d (take n' r ++ 46 :: drop n' r) rest);
        [done..|].
      rewrite <- app_assoc. cbn [app].
      change (d :: take n' r ++ 46 :: ?t) with ((d :: take n' r) ++ 46 :: t).
      rewrite parse_unsigned_point;
        [| cbn [forallb]; by rewrite Hd | done | | done..].
      * cbn [app]. rewrite take_drop, length_drop.
        do 4 f_equal. lia.
      * intros Hnil. apply (f_equal length) in Hnil.
        rewrite length_drop in Hnil. cbn [length] in Hnil. lia.
    + destruct ((-6 <? n) && (n <=? 0))%Z eqn:Hlead.
      * apply andb_true_iff in Hlead as [_ Hn]. apply Z.leb_le in Hn.
        assert (Hhead : parse_number
                          (Num.sign_chars m
                           ++ (48 :: 46 :: repeat 48 (Z.to_nat (- n))
                               ++ Num.digits m) ++ rest)
                        = parse_unsigned (m <? 0)%Z
                            (48 :: 46 :: repeat 48 (Z.to_nat (- n))
                             ++ Num.digits m ++ rest)).
        { unfold Num.sign_chars. cbn [app]. rewrite <- app_assoc.
          by destruct (m <? 0)%Z. }
        rewrite Hhead.
        rewrite parse_unsigned_leading by (done || apply digits_nonempty).
        do 4 f_equal. lia.
      * rewrite Hds in *.
        destruct (print_exponent_head d r n) as [t Ht].
        apply (parse_number_signed m _ d t rest _ Ht Hd).
        rewrite parse_unsigned_exponent by done. do 4 f_equal. lia.
Qed.

(** [JSON.parse] reads the text of a finite Number value back as that
    value. *)
Lemma parse_number_print (x : number) (rest : jsstring) :
  Num.is_double x = true -> Num.is_finite x = true ->
  number_stops rest = true ->
  parse_number (Num.print x ++ rest) = Some (x, rest).
Proof.
  intros Hd Hf Hstop.
  destruct (NumFacts.shortest_sound x Hd Hf) as (Hround & Hc & Hfin).
  unfold Num.print. by rewrite parse_number_print_decimal, Hround.
Qed.

Lemma print_decimal_head (y : number) :
  Num.is_finite y = true ->
  exists c t, Num.print_decimal y = c :: t
              /\ (c = 45 \/ Char.is_digit c = true).
Proof.
  assert (Hsign : forall z body c t, body = c :: t -> Char.is_digit c = true ->
            exists c' t', Num.sign_chars z ++ body = c' :: t'
                          /\ (c' = 45 \/ Char.is_digit c' = true)).
  { intros z body c t -> Hc. unfold Num.sign_chars.
    destruct (z <? 0)%Z; cbn [app]; eauto 6. }
  intros Hf. destruct y as [z|m k|s]; [| |done]; cbn [Num.print_decimal].
  - destruct (Z.abs z <? 10 ^ 21)%Z; [apply print_int_head|].
    destruct (Num.strip_tens _ (Z.abs z)) as [s j].
    pose proof (digits_all s) as Hall.
    destruct (Num.digits s) as [|d r] eqn:Hds;
      [by apply digits_nonempty in Hds|].
    cbn [forallb] in Hall. apply andb_true_iff in Hall as [Hd _].
    destruct (print_exponent_head d r (Z.of_nat (length (d :: r)) + j))
      as [t Ht]. by apply (Hsign z _ d t).
  - pose proof (digits_all m) as Hall.
    destruct (Num.digits m) as [|d r] eqn:Hds;
      [by apply digits_nonempty in Hds|].
    cbn [forallb] in Hall. apply andb_true_iff in Hall as [Hd _].
    set (n := (Z.of_nat (length (d :: r)) - Z.pos k)%Z).
    destruct ((0 <? n) && (n <=? 21))%Z eqn:Hpoint.
    + apply andb_true_iff in Hpoint as [Hn _]. apply Z.ltb_lt in Hn.
      destruct (Z.to_nat n) as [|n'] eqn:Hn'; [lia|]. cbn [take app].
      by apply (Hsign m _ d (take n' r ++ 46 :: drop (S n') (d :: r))).
    + destruct ((-6 <? n) && (n <=? 0))%Z.
      * by apply (Hsign m _ 48 (46 :: repeat 48 (Z.to_nat (- n)) ++ d :: r)).
      * destruct (print_exponent_head d r n) as [t Ht].
        by apply (Hsign m _ d t).
Qed.

(** A number literal is read where a value is expected. *)
Lemma parse_value_number_text (fuel : nat) (c : N) (t rest : jsstring)
    (n : number) :
  c = 45 \/ Char.is_digit c = true ->
  parse_number ((c :: t) ++ rest) = Some (n, rest) ->
  parse_value (S fuel) ((c :: t) ++ rest) = Some (JNum n, rest).
Proof.
  intros Hhead Hnum. cbn [app] in *.
  assert (Char.is_json_ws c = false /\ (c =? 34) = false /\ (c =? 91) = false
          /\ (c =? 123) = false /\ (c =? 116) = false /\ (c =? 102) = false
          /\ (c =? 110) = false) as (Hws & H1 & H2 & H3 & H4 & H5 & H6).
  { unfold Char.is_json_ws, Char.is_digit in *.
    destruct Hhead as [->|Hd]; [done|].
    apply andb_true_iff in Hd as [Hlo Hhi].
    apply N.leb_le in Hlo, Hhi.
    rewrite !orb_false_iff, !N.eqb_neq. lia. }
  cbn [parse_value]. rewrite (skip_ws_head _ _ Hws), H1, H2, H3, H4, H5, H6.
  by rewrite Hnum.
Qed.

(** The text of a finite Number value is read back as that value. *)
Lemma parse_value_number (fuel : nat) (x : number) (rest : jsstring) :
  Num.is_double x = true -> Num.is_finite x = true ->
  number_stops rest = true ->
  parse_value (S fuel) (Num.print x ++ rest) = Some (JNum x, rest).
Proof.
  intros Hd Hf Hstop.
  pose proof (parse_number_print x rest Hd Hf Hstop) as Hnum.
  destruct (NumFacts.shortest_sound x Hd Hf) as (_ & _ & Hfin).
  unfold Num.print in *.
  destruct (print_decimal_head _ Hfin) as (c & t & Hc & Hhead).
  rewrite Hc in *. by apply parse_value_number_text.
Qed.

Lemma parse_value_bool (fuel : nat) (b : bool) (rest : jsstring) :
  parse_value (S fuel) (stringify (JBool b) ++ rest) = Some (JBool b, rest).
Proof. by destruct b. Qed.

Lemma Obj_set_task (i x c : json) :
  Obj.set k_completed c (Obj.set k_text x (Obj.set k_id i []))
  = [(k_id, i); (k_text, x); (k_completed, c)].
Proof. reflexivity. Qed.

Lemma stringify_stored (t : StoredTask) (rest : jsstring) :
  Num.is_finite (stored_id t) = true ->
  stringify (stored_json t) ++ rest =
    123 :: quote k_id ++ 58 :: Num.print (stored_id t) ++
    44 :: quote k_text ++ 58 :: quote (stored_text t) ++
    44 :: quote k_completed ++ 58 :: stringify (JBool (stored_completed t)) ++
    125 :: rest.
Proof.
  intros Hf. unfold stored_json. cbn [stringify map join_comma fst snd].
  rewrite Hf. cbn [app]. f_equal.
  by repeat (rewrite <- app_assoc; cbn [app]).
Qed.

Lemma parse_value_object (fuel : nat) (k s : jsstring) :
  parse_value (S fuel) (123 :: quote k ++ s) =
    match parse_members fuel [] (quote k ++ s) with
    | Some (ps, rest) => Some (JObj ps, rest)
    | None => None
    end.
Proof. reflexivity. Qed.

Lemma parse_members_comma (fuel : nat) (acc : list (jsstring * json))
    (k : jsstring) (v : json) (s rest : jsstring) :
  parse_value fuel s = Some (v, 44 :: rest) ->
  parse_members (S fuel) acc (quote k ++ 58 :: s) =
    parse_members fuel (Obj.set k v acc) rest.
Proof.
  intros Hv. unfold quote. cbn [app parse_members skip_ws].
  change (Char.is_json_ws 34) with false. change (34 =? 34) with true.
  cbv iota. rewrite <- app_assoc. cbn [app].
  rewrite parse_string_body_quote_body. cbn [skip_ws].
  change (Char.is_json_ws 58) with false. change (58 =? 58) with true.
  cbv iota. by rewrite Hv.
Qed.

Lemma parse_members_close (fuel : nat) (acc : list (jsstring * json))
    (k : jsstring) (v : json) (s rest : jsstring) :
  parse_value fuel s = Some (v, 125 :: rest) ->
  parse_members (S fuel) acc (quote k ++ 58 :: s) =
    Some (Obj.set k v acc, rest).
Proof.
  intros Hv. unfold quote. cbn [app parse_members skip_ws].
  change (Char.is_json_ws 34) with false. change (34 =? 34) with true.
  cbv iota. rewrite <- app_assoc. cbn [app].
  rewrite parse_string_body_quote_body. cbn [skip_ws].
  change (Char.is_json_ws 58) with false. change (58 =? 58) with true.
  cbv iota. by rewrite Hv.
Qed.

Lemma finite_double_spec (x : number) :
  Num.finite_double x = true
  <-> Num.is_finite x = true /\ Num.is_double x = true.
Proof. unfold Num.finite_double. by rewrite andb_true_iff. Qed.

(** The text of a task object is read back as that object. *)
Lemma parse_value_stored (fuel : nat) (t : StoredTask) (rest : jsstring) :
  Num.finite_double (stored_id t) = true ->
  (5 <= fuel)%nat ->
  parse_value fuel (stringify (stored_json t) ++ rest)
  = Some (stored_json t, rest).
Proof.
  intros [Hf Hd]%finite_double_spec Hfuel.
  do 5 (destruct fuel as [|fuel]; [lia|]). clear Hfuel.
  rewrite stringify_stored, parse_value_object by done.
  erewrite (parse_members_comma _ _ _ (JNum (stored_id t)))
    by by apply parse_value_number.
  erewrite (parse_members_comma _ _ _ (JStr (stored_text t)))
    by apply parse_value_string.
  erewrite (parse_members_close _ _ _ (JBool (stored_completed t)))
    by apply parse_value_bool.
  by rewrite Obj_set_task.
Qed.

Lemma stringify_collection_cons (t : StoredTask) (C : list StoredTask)
    (rest : jsstring) :
  join_comma (map stringify (map stored_json (t :: C))) ++ 93 :: rest =
    stringify (stored_json t) ++
    match C with
    | [] => 93 :: rest
    | _ :: _ =>
        44 :: join_comma (map stringify (map stored_json C)) ++ 93 :: rest
    end.
Proof.
  destruct C as [|t' C]; cbn [map join_comma]; [done|].
  by rewrite <- app_assoc.
Qed.

Lemma parse_elements_stored (C : list StoredTask) (t : StoredTask)
    (fuel : nat) (rest : jsstring) :
  finite_ids (t :: C) ->
  (length C + 6 <= fuel)%nat ->
  parse_elements fuel
    (join_comma (map stringify (map stored_json (t :: C))) ++ 93 :: rest)
  = Some (map stored_json (t :: C), rest).
Proof.
  revert t fuel. induction C as [|t' C IH];
    intros t fuel [Ht HC]%Forall_cons Hfuel;
    (destruct fuel as [|fuel]; [simpl in Hfuel; lia|]);
    rewrite stringify_collection_cons; cbn [parse_elements];
    rewrite parse_value_stored by (done || simpl in Hfuel; lia).
  - done.
  - cbn [skip_ws]. change (Char.is_json_ws 44) with false.
    change (44 =? 44) with true. cbv iota.
    by rewrite IH by (done || simpl in Hfuel; lia).
Qed.

Lemma stringify_stored_head (t : StoredTask) (s : jsstring) :
  stringify (stored_json t) ++ s
  = 123 :: drop 1 (stringify (stored_json t) ++ s).
Proof. done. Qed.

Lemma length_join_stored (C : list StoredTask) :
  (length C <= length (join_comma (map stringify (map stored_json C))))%nat.
Proof.
  induction C as [|t [|t' C] IH]; [done | cbn; lia |].
  change (map stringify (map stored_json (t :: t' :: C)))
    with (stringify (stored_json t)
          :: map stringify (map stored_json (t' :: C))).
  cbn [join_comma]. destruct (map stringify (map stored_json (t' :: C))) eqn:E;
    [done|]. rewrite length_app. cbn [length] in *. lia.
Qed.

Lemma parse_value_array (fuel : nat) (s : jsstring) :
  parse_value (S fuel) (91 :: 123 :: s) =
    match parse_elements fuel (123 :: s) with
    | Some (vs, rest) => Some (JArr vs, rest)
    | None => None
    end.
Proof. reflexivity. Qed.

(** [JSON.parse] reads the text of a collection whose ids are finite Number
    values back as the collection. *)
Lemma parse_stringify_stored (C : list StoredTask) :
  finite_ids C ->
  parse (stringify (stored_collection_json C))
  = Some (stored_collection_json C).
Proof.
  intros Hids. unfold parse, stored_collection_json. cbn [stringify].
  set (fuel := (2 * length _ + 2)%nat).
  assert (Hfuel : (length C + 6 <= fuel)%nat).
  { subst fuel. cbn [length]. rewrite length_app.
    pose proof (length_join_stored C). cbn [length]. lia. }
  destruct fuel as [|fuel]; [lia|].
  destruct C as [|t C].
  - done.
  - rewrite <- (app_nil_r [93]). change ([93] ++ []) with (93 :: @nil N).
    rewrite stringify_collection_cons, stringify_stored_head.
    rewrite parse_value_array.
    rewrite <- stringify_stored_head, <- stringify_collection_cons.
    rewrite parse_elements_stored by (done || simpl in Hfuel; lia). done.
Qed.

Lemma collection_json_stored (C : list Task) :
  collection_json C = stored_collection_json (map stored C).
Proof.
  unfold collection_json, stored_collection_json. by rewrite map_map.
Qed.

Lemma js_ids_finite (C : list Task) : js_ids C -> finite_ids (map stored C).
Proof.
  unfold js_ids, js_integers, finite_ids.
  induction C as [|t C IH]; cbn [map]; [constructor|].
  intros [Ht HC]%Forall_cons. constructor; [|by apply IH].
  by apply finite_double_spec.
Qed.

(** [JSON.parse] reads the text of a task collection back as the
    collection. *)
Lemma parse_stringify_collection (C : list Task) :
  js_ids C ->
  parse (stringify (collection_json C)) = Some (collection_json C).
Proof.
  intros Hids. rewrite collection_json_stored.
  by apply parse_stringify_stored, js_ids_finite.
Qed.

(** *** The fuel of [parse] is enough for every text *)

Lemma skip_ws_length (s : jsstring) : (length (skip_ws s) <= length s)%nat.
Proof.
  induction s as [|c s IH]; [done|]. cbn [skip_ws].
  destruct (Char.is_json_ws c); cbn [length]; lia.
Qed.

Lemma read_digits_length (s : jsstring) :
  (length (Num.read_digits s).2 <= length s)%nat.
Proof.
  induction s as [|c s IH]; [done|]. cbn [Num.read_digits].
  destruct (Char.is_digit c); [|done].
  destruct (Num.read_digits s) as [u rest]. cbn [snd length] in *. lia.
Qed.

Lemma parse_string_body_length (s t rest : jsstring) :
  parse_string_body s = Some (t, rest) -> (length rest < length s)%nat.
Proof.
  remember (length s) as n eqn:Hn. revert s t rest Hn.
  induction n as [n IH] using lt_wf_ind. intros s t rest -> Hparse.
  destruct s as [|c r]; [done|]. cbn [parse_string_body] in Hparse.
  destruct (c =? 34).
  { injection Hparse as <- <-. cbn [length]. lia. }
  destruct (c =? 92).
  - destruct r as [|e r1]; [done|]. destruct (e =? 117).
    + destruct r1 as [|h1 [|h2 [|h3 [|h4 r2]]]]; try done.
      destruct (hex4 h1 h2 h3 h4); [|done].
      destruct (parse_string_body r2) as [[t' rest']|] eqn:Hrec; [|done].
      injection Hparse as <- <-.
      apply (IH (length r2)) in Hrec; cbn [length]; [lia | lia | done].
    + destruct (simple_escape e); [|done].
      destruct (parse_string_body r1) as [[t' rest']|] eqn:Hrec; [|done].
      injection Hparse as <- <-.
      apply (IH (length r1)) in Hrec; cbn [length]; [lia | lia | done].
  - destruct (c <? 32); [done|].
    destruct (parse_string_body r) as [[t' rest']|] eqn:Hrec; [|done].
    injection Hparse as <- <-.
    apply (IH (length r)) in Hrec; cbn [length]; [lia | lia | done].
Qed.

Lemma int_part_length (s : jsstring) (ip : Decimal.uint) (rest : jsstring) :
  int_part s = Some (ip, rest) -> (length rest < length s)%nat.
Proof.
  unfold int_part. destruct s as [|c r]; [done|].
  destruct (c =? 48); [intros [= <- <-]; cbn [length]; lia|].
  cbn [Num.read_digits]. destruct (Char.is_digit c); [|done].
  pose proof (read_digits_length r).
  destruct (Num.read_digits r) as [u rest']. intros [= <- <-].
  cbn [snd length] in *. lia.
Qed.

Lemma frac_part_length (s : jsstring) (fp : Decimal.uint) (rest : jsstring) :
  frac_part s = Some (fp, rest) -> (length rest <= length s)%nat.
Proof.
  unfold frac_part. destruct s as [|c r]; [by intros [= <- <-]|].
  destruct (c =? 46); [|by intros [= <- <-]].
  pose proof (read_digits_length r).
  destruct (Num.read_digits r) as [[] rest0]; [done|..];
    intros [= <- <-]; cbn [snd length] in *; lia.
Qed.

Lemma exp_digits_length (neg : bool) (s : jsstring) (e : Z) (rest : jsstring) :
  exp_digits neg s = Some (e, rest) -> (length rest <= length s)%nat.
Proof.
  unfold exp_digits. pose proof (read_digits_length s).
  destruct (Num.read_digits s) as [[] rest0]; [done|..];
    intros [= <- <-]; cbn [snd] in *; lia.
Qed.

Lemma exp_part_length (s : jsstring) (e : Z) (rest : jsstring) :
  exp_part s = Some (e, rest) -> (length rest <= length s)%nat.
Proof.
  unfold exp_part. destruct s as [|c r]; [by intros [= <- <-]|].
  destruct ((c =? 101) || (c =? 69)); [|by intros [= <- <-]].
  destruct r as [|d r']; [done|].
  destruct (d =? 43); [|destruct (d =? 45)];
    intros Hd%exp_digits_length; cbn [length] in *; lia.
Qed.

Lemma parse_unsigned_length (neg : bool) (s : jsstring) (n : number)
    (rest : jsstring) :
  parse_unsigned neg s = Some (n, rest) -> (length rest < length s)%nat.
Proof.
  unfold parse_unsigned.
  destruct (int_part s) as [[ip s2]|] eqn:Hip; [|done].
  destruct (frac_part s2) as [[fp s3]|] eqn:Hfp; [|done].
  destruct (exp_part s3) as [[e s4]|] eqn:He; [|done].
  intros [= _ <-]. apply int_part_length in Hip.
  apply frac_part_length in Hfp. apply exp_part_length in He. lia.
Qed.

Lemma parse_number_length (s : jsstring) (n : number) (rest : jsstring) :
  parse_number s = Some (n, rest) -> (length rest < length s)%nat.
Proof.
  unfold parse_number. destruct s as [|c r]; [done|].
  destruct (c =? 45); intros Hparse; apply parse_unsigned_length in Hparse;
    cbn [length] in *; lia.
Qed.

Lemma expect_length (lit s rest : jsstring) :
  expect lit s = Some rest -> length rest = (length s - length lit)%nat.
Proof.
  unfold expect. destruct (starts_with lit s); [|done].
  intros [= <-]. apply length_drop.
Qed.

(** Whatever the parser accepts, it has consumed input for. *)
Lemma parse_consumes (fuel : nat) :
  (forall s v rest, parse_value fuel s = Some (v, rest) ->
                    (length rest < length s)%nat)
  /\ (forall s vs rest, parse_elements fuel s = Some (vs, rest) ->
                        (length rest < length s)%nat)
  /\ (forall acc s ps rest, parse_members fuel acc s = Some (ps, rest) ->
                            (length rest < length s)%nat).
Proof.
  induction fuel as [|fuel (IHv & IHe & IHm)]; [done|]. repeat split.
  - intros s v rest. cbn [parse_value]. pose proof (skip_ws_length s) as Hs.
    destruct (skip_ws s) as [|c r]; [done|]. cbn [length] in Hs.
    destruct (c =? 34).
    { destruct (parse_string_body r) as [[t rest']|] eqn:Hbody; [|done].
      intros [= _ <-]. apply parse_string_body_length in Hbody. lia. }
    destruct (c =? 91).
    { pose proof (skip_ws_length r) as Hr.
      destruct (skip_ws r) as [|d r']; [done|]. cbn [length] in Hr.
      destruct (d =? 93); [intros [= _ <-]; lia|].
      destruct (parse_elements fuel (d :: r')) as [[vs rest']|] eqn:Hel;
        [|done].
      intros [= _ <-]. apply IHe in Hel. cbn [length] in Hel. lia. }
    destruct (c =? 123).
    { pose proof (skip_ws_length r) as Hr.
      destruct (skip_ws r) as [|d r']; [done|]. cbn [length] in Hr.
      destruct (d =? 125); [intros [= _ <-]; lia|].
      destruct (parse_members fuel [] (d :: r')) as [[ps rest']|] eqn:Hmem;
        [|done].
      intros [= _ <-]. apply IHm in Hmem. cbn [length] in Hmem. lia. }
    assert (Hlit : forall lit rest',
               (0 < length lit)%nat ->
               expect lit (c :: r) = Some rest' ->
               (length rest' < length s)%nat).
    { intros lit rest' Hpos Hexp%expect_length. cbn [length] in Hexp. lia. }
    destruct (c =? 116).
    { destruct (expect _ (c :: r)) eqn:Hexp; [|done].
      intros [= _ <-]. eapply Hlit; [|exact Hexp]. cbn. lia. }
    destruct (c =? 102).
    { destruct (expect _ (c :: r)) eqn:Hexp; [|done].
      intros [= _ <-]. eapply Hlit; [|exact Hexp]. cbn. lia. }
    destruct (c =? 110).
    { destruct (expect _ (c :: r)) eqn:Hexp; [|done].
      intros [= _ <-]. eapply Hlit; [|exact Hexp]. cbn. lia. }
    destruct (parse_number (c :: r)) as [[n rest']|] eqn:Hnum; [|done].
    intros [= _ <-]. apply parse_number_length in Hnum.
    cbn [length] in Hnum. lia.
  - intros s vs rest. cbn [parse_elements].
    destruct (parse_value fuel s) as [[v s1]|] eqn:Hv; [|done].
    apply IHv in Hv. pose proof (skip_ws_length s1) as Hs1.
    destruct (skip_ws s1) as [|c r]; [done|]. cbn [length] in Hs1.
    destruct (c =? 44).
    { destruct (parse_elements fuel r) as [[vs' rest']|] eqn:Hel; [|done].
      intros [= _ <-]. apply IHe in Hel. lia. }
    destruct (c =? 93); [|done]. intros [= _ <-]. lia.
  - intros acc s ps rest. cbn [parse_members].
    pose proof (skip_ws_length s) as Hs.
    destruct (skip_ws s) as [|q r0]; [done|]. cbn [length] in Hs.
    destruct (q =? 34); [|done].
    destruct (parse_string_body r0) as [[k s1]|] eqn:Hk; [|done].
    apply parse_string_body_length in Hk.
    pose proof (skip_ws_length s1) as Hs1.
    destruct (skip_ws s1) as [|c r]; [done|]. cbn [length] in Hs1.
    destruct (c =? 58); [|done].
    destruct (parse_value fuel r) as [[v s2]|] eqn:Hv; [|done].
    apply IHv in Hv. pose proof (skip_ws_length s2) as Hs2.
    destruct (skip_ws s2) as [|d r']; [done|]. cbn [length] in Hs2.
    destruct (d =? 44); [intros Hmem%IHm; lia|].
    destruct (d =? 125); [|done]. intros [= _ <-]. lia.
Qed.

(** Beyond two units of fuel per code unit, more fuel changes nothing. *)
Lemma parse_fuel_enough (fuel : nat) :
  forall fuel',
    (forall s, (2 * length s + 1 <= fuel)%nat ->
               (2 * length s + 1 <= fuel')%nat ->
               parse_value fuel s = parse_value fuel' s)
    /\ (forall s, (2 * length s + 2 <= fuel)%nat ->
                  (2 * length s + 2 <= fuel')%nat ->
                  parse_elements fuel s = parse_elements fuel' s)
    /\ (forall acc s, (2 * length s + 2 <= fuel)%nat ->
                      (2 * length s + 2 <= fuel')%nat ->
                      parse_members fuel acc s = parse_members fuel' acc s).
Proof.
  induction fuel as [|fuel IH]; intros fuel'.
  { repeat split; intros; lia. }
  destruct fuel' as [|fuel']; [repeat split; intros; lia|].
  destruct (IH fuel') as (IHv & IHe & IHm). repeat split.
  - intros s Hf Hf'. cbn [parse_value]. pose proof (skip_ws_length s) as Hs.
    destruct (skip_ws s) as [|c r]; [done|]. cbn [length] in Hs.
    destruct (c =? 34); [done|]. destruct (c =? 91).
    { pose proof (skip_ws_length r) as Hr.
      destruct (skip_ws r) as [|d r']; [done|].
      destruct (d =? 93); [done|]. by rewrite IHe by lia. }
    destruct (c =? 123); [|done].
    pose proof (skip_ws_length r) as Hr.
    destruct (skip_ws r) as [|d r']; [done|].
    destruct (d =? 125); [done|]. by rewrite IHm by lia.
  - intros s Hf Hf'. cbn [parse_elements]. rewrite IHv by lia.
    destruct (parse_value fuel' s) as [[v s1]|] eqn:Hv; [|done].
    apply (proj1 (parse_consumes fuel')) in Hv.
    pose proof (skip_ws_length s1) as Hs1.
    destruct (skip_ws s1) as [|c r]; [done|]. cbn [length] in Hs1.
    destruct (c =? 44); [|done]. by rewrite IHe by lia.
  - intros acc s Hf Hf'. cbn [parse_members].
    pose proof (skip_ws_length s) as Hs.
    destruct (skip_ws s) as [|q r0]; [done|]. cbn [length] in Hs.
    destruct (q =? 34); [|done].
    destruct (parse_string_body r0) as [[k s1]|] eqn:Hk; [|done].
    apply parse_string_body_length in Hk.
    pose proof (skip_ws_length s1) as Hs1.
    destruct (skip_ws s1) as [|c r]; [done|]. cbn [length] in Hs1.
    destruct (c =? 58); [|done]. rewrite IHv by lia.
    destruct (parse_value fuel' r) as [[v s2]|] eqn:Hv; [|done].
    apply (proj1 (parse_consumes fuel')) in Hv.
    pose proof (skip_ws_length s2) as Hs2.
    destruct (skip_ws s2) as [|d r']; [done|]. cbn [length] in Hs2.
    destruct (d =? 44); [|done]. by rewrite IHm by lia.
Qed.

(** [parse] rejects a text only if the grammar does: no larger fuel makes
    the parser accept it. *)
Lemma parse_fuel_independent (s : jsstring) (fuel : nat) :
  (2 * length s + 2 <= fuel)%nat ->
  parse_value fuel s = parse_value (2 * length s + 2) s.
Proof.
  intros Hfuel. apply (proj1 (parse_fuel_enough fuel (2 * length s + 2))); lia.
Qed.

(** *** What [JSON.parse] returns holds Number values only *)

Lemma replace_doubles (k : jsstring) (v : json) (props : list (jsstring * json)) :
  numbers_are_doubles v = true -> props_are_doubles props = true ->
  props_are_doubles (Obj.replace k v props) = true.
Proof.
  intros Hv. unfold props_are_doubles.
  induction props as [|[k' v'] props IH]; [done|].
  cbn [Obj.replace forallb snd]. intros [Hv' Hps]%andb_true_iff.
  case_bool_decide; cbn [forallb snd]; apply andb_true_iff; auto.
Qed.

Lemma insert_index_doubles (i : N) (k : jsstring) (v : json)
    (props : list (jsstring * json)) :
  numbers_are_doubles v = true -> props_are_doubles props = true ->
  props_are_doubles (Obj.insert_index i k v props) = true.
Proof.
  intros Hv. unfold props_are_doubles.
  induction props as [|[k' v'] props IH]; cbn [Obj.insert_index].
  - intros _. cbn [forallb snd]. by rewrite Hv.
  - intros Hall. pose proof Hall as [Hv' Hps]%andb_true_iff.
    destruct (Obj.array_index k') as [j|]; [destruct (j <? i)|];
      cbn [forallb snd]; apply andb_true_iff; auto.
Qed.

Lemma set_doubles (k : jsstring) (v : json) (props : list (jsstring * json)) :
  numbers_are_doubles v = true -> props_are_doubles props = true ->
  props_are_doubles (Obj.set k v props) = true.
Proof.
  intros Hv Hps. unfold Obj.set.
  destruct (Obj.get k props); [by apply replace_doubles|].
  destruct (Obj.array_index k); [by apply insert_index_doubles|].
  unfold props_are_doubles in *. rewrite forallb_app, Hps. cbn. by rewrite Hv.
Qed.

Lemma parse_number_double (s rest : jsstring) (n : number) :
  parse_number s = Some (n, rest) -> Num.is_double n = true.
Proof.
  assert (Hun : forall neg s,
            parse_unsigned neg s = Some (n, rest) -> Num.is_double n = true).
  { intros neg s'. unfold parse_unsigned.
    destruct (int_part s') as [[ip s2]|]; [|done].
    destruct (frac_part s2) as [[fp s3]|]; [|done].
    destruct (exp_part s3) as [[e s4]|]; [|done].
    intros [= <- _]. apply NumFacts.round_is_double. }
  unfold parse_number. destruct s as [|c r]; [done|].
  destruct (c =? 45); apply Hun.
Qed.

(** [JSON.parse] builds its value from Number values only. *)
Lemma parse_value_doubles (fuel : nat) :
  (forall s v rest,
     parse_value fuel s = Some (v, rest) -> numbers_are_doubles v = true)
  /\ (forall s vs rest,
        parse_elements fuel s = Some (vs, rest) ->
        forallb numbers_are_doubles vs = true)
  /\ (forall acc s ps rest,
        props_are_doubles acc = true ->
        parse_members fuel acc s = Some (ps, rest) ->
        props_are_doubles ps = true).
Proof.
  induction fuel as [|fuel (IHv & IHe & IHm)]; [done|]. repeat split.
  - intros s v rest. cbn [parse_value].
    destruct (skip_ws s) as [|c r]; [done|].
    destruct (c =? 34).
    { destruct (parse_string_body r) as [[t rest']|]; [|done]. by intros [= <- _]. }
    destruct (c =? 91).
    { destruct (skip_ws r) as [|d r']; [done|]. destruct (d =? 93).
      - by intros [= <- _].
      - destruct (parse_elements fuel (d :: r')) as [[vs rest']|] eqn:He; [|done].
        intros [= <- _]. cbn [numbers_are_doubles]. by eapply IHe. }
    destruct (c =? 123).
    { destruct (skip_ws r) as [|d r']; [done|]. destruct (d =? 125).
      - by intros [= <- _].
      - destruct (parse_members fuel [] (d :: r')) as [[ps rest']|] eqn:Hm; [|done].
        intros [= <- _]. cbn [numbers_are_doubles]. by eapply (IHm []). }
    destruct (c =? 116).
    { destruct (expect _ _); [|done]. by intros [= <- _]. }
    destruct (c =? 102).
    { destruct (expect _ _); [|done]. by intros [= <- _]. }
    destruct (c =? 110).
    { destruct (expect _ _); [|done]. by intros [= <- _]. }
    destruct (parse_number (c :: r)) as [[n rest']|] eqn:Hn; [|done].
    intros [= <- _]. cbn [numbers_are_doubles]. by eapply parse_number_double.
  - intros s vs rest. cbn [parse_elements].
    destruct (parse_value fuel s) as [[v s1]|] eqn:Hv; [|done].
    apply IHv in Hv. destruct (skip_ws s1) as [|c r]; [done|].
    destruct (c =? 44).
    { destruct (parse_elements fuel r) as [[vs' rest']|] eqn:He; [|done].
      intros [= <- _]. cbn [forallb]. rewrite Hv. by eapply IHe. }
    destruct (c =? 93); [|done]. intros [= <- _]. cbn [forallb]. by rewrite Hv.
  - intros acc s ps rest Hacc. cbn [parse_members].
    destruct (skip_ws s) as [|q r0]; [done|]. destruct (q =? 34); [|done].
    destruct (parse_string_body r0) as [[k s1]|]; [|done].
    destruct (skip_ws s1) as [|c r]; [done|]. destruct (c =? 58); [|done].
    destruct (parse_value fuel r) as [[v s2]|] eqn:Hv; [|done].
    apply IHv in Hv. destruct (skip_ws s2) as [|d r']; [done|].
    destruct (d =? 44); [apply IHm; by apply set_doubles|].
    destruct (d =? 125); [|done]. intros [= <- _]. by apply set_doubles.
Qed.

Lemma parse_doubles (s : jsstring) (v : json) :
  parse s = Some v -> numbers_are_doubles v = true.
Proof.
  unfold parse.
  destruct (parse_value _ s) as [[v' rest]|] eqn:Hv; [|done].
  destruct (skip_ws rest); [|done]. intros [= <-].
  by eapply (proj1 (parse_value_doubles _)).
Qed.

Lemma collection_doubles (C : list Task) :
  numbers_are_doubles (collection_json C) = true -> js_ids C.
Proof.
  unfold collection_json, js_ids, js_integers. cbn [numbers_are_doubles].
  induction C as [|t C IH]; cbn [map forallb]; [by constructor|].
  intros [Ht HC]%andb_true_iff. constructor; [|by apply IH].
  cbn in Ht. by rewrite andb_true_r in Ht.
Qed.

(** *** Known literals *)

Local Open Scope Z_scope.

Example parse_rounds :
  JSON.parse (str "9007199254740993") = Some (JNum (NInt 9007199254740992))
  /\ JSON.parse (str "1e400") = Some (JNum (NInf false))
  /\ JSON.parse (str "-1e400") = Some (JNum (NInf true))
  /\ JSON.parse (str "1e-400") = Some (JNum (NInt 0))
  /\ JSON.parse (str "0.1") = Some (JNum (Num.of_binary 3602879701896397 (-55)))
  /\ JSON.parse (str "1.0E+2") = Some (JNum (NInt 100))
  /\ JSON.parse (str "2.5e-1") = Some (JNum (NDec 25 2))
  /\ JSON.parse (str "01") = None
  /\ JSON.parse (str "1.") = None
  /\ JSON.parse (str "Infinity") = None.
Proof. by vm_compute. Qed.
End JSONFacts.

(** ** Running the script on a task collection *)

Section Script.
Context `{Platform}.

Lemma saveTasks_run (st : state) : saveTasks st = (Ret tt, saved st).
Proof. reflexivity. Qed.

Lemma get_member_task (t : Task) (st : state) :
  get_member (task_json t) k_id st = (Ret (Some (JNum (NInt (id t)))), st)
  /\ get_member (task_json t) k_text st = (Ret (Some (JStr (text t))), st)
  /\ get_member (task_json t) k_completed st
     = (Ret (Some (JBool (completed t))), st).
Proof. repeat split; reflexivity. Qed.

Lemma classList_add_fresh :
  classList_add "hidden" [] = ["hidden"]
  /\ classList_add "completed" [] = ["completed"]
  /\ classList_add "completed" ["hidden"] = ["hidden"; "completed"]
  /\ classList_add "task-text" [] = ["task-text"]
  /\ classList_add "delete-btn" [] = ["delete-btn"].
Proof. repeat split; reflexivity. Qed.

Lemma render_task_run (q : jsstring) (t : Task) (st : state) :
  render_task q (task_json t) st = (Ret tt, appended [row_of q t] st).
Proof.
  destruct (get_member_task t st) as (Hid & Htext & Hdone).
  destruct classList_add_fresh as (Hh & Hc & Hhc & Ht & Hd).
  unfold render_task, mbind, M_bind.
  rewrite Hid. cbv beta iota.
  change (to_DOMString (Some (JNum (NInt (id t)))) st)
    with (@Ret jsstring (Num.print (NInt (id t))), st).
  cbv beta iota. rewrite Htext. cbv beta iota. rewrite Hdone.
  cbv beta iota zeta. rewrite Hh, Ht, Hd.
  unfold row_of, ToBoolean.
  destruct (includes (toLowerCase (text t)) q), (completed t);
    cbn [negb]; rewrite ?Hc, ?Hhc; reflexivity.
Qed.

Lemma forEach_render (q : jsstring) (C : list Task) (st : state) :
  forEach (map task_json C) (render_task q) st
  = (Ret tt, appended (map (row_of q) C) st).
Proof.
  revert st. induction C as [|t C IH]; intros st.
  - destruct st. unfold appended. cbn. by rewrite !app_nil_r.
  - cbn [map forEach]. unfold mbind, M_bind.
    rewrite render_task_run, IH. unfold appended. cbn.
    by rewrite <- !app_assoc.
Qed.

(** Rendering a task collection never throws and leaves one row per task. *)
Lemma renderTasks_collection (C : list Task) (st : state) :
  todos st = collection_json C ->
  renderTasks st = (Ret tt, rendered C st).
Proof.
  intros Htodos. unfold renderTasks, mbind, M_bind. cbn.
  rewrite Htodos. cbn. rewrite forEach_render.
  unfold appended, rendered, rows_of. cbn.
  by rewrite Htodos, <- app_assoc.
Qed.
Lemma renderTasks_committed (C : list Task) (st : state) :
  renderTasks (saved (with_todos (collection_json C) st))
  = (Ret tt, committed C st).
Proof. by apply renderTasks_collection. Qed.

Lemma map_fmap {A B : Type} (f : A -> B) (l : list A) : map f l = f <$> l.
Proof. reflexivity. Qed.

Lemma findIndex_pure (q : Task -> bool) (p : json -> M bool)
    (C : list Task) (st : state) :
  (forall t st', p (task_json t) st' = (Ret (q t), st')) ->
  findIndex (map task_json C) p st
  = (Ret (fst <$> list_find (fun t => q t = true) C), st).
Proof.
  intros Hp. induction C as [|t C IH]; [done|].
  cbn [map findIndex list_find]. unfold mbind at 1, M_bind at 1.
  rewrite Hp. destruct (q t) eqn:Hq.
  - by rewrite decide_True.
  - rewrite decide_False by done. unfold mbind, M_bind. rewrite IH.
    by destruct (list_find _ C) as [[i x]|].
Qed.

Lemma filter_array_pure (q : Task -> bool) (p : json -> M bool)
    (C : list Task) (st : state) :
  (forall t st', p (task_json t) st' = (Ret (q t), st')) ->
  filter_array (map task_json C) p st
  = (Ret (map task_json (List.filter q C)), st).
Proof.
  intros Hp. induction C as [|t C IH]; [done|].
  cbn [map filter_array List.filter]. unfold mbind at 1, M_bind at 1.
  rewrite Hp. unfold mbind, M_bind. rewrite IH. by destruct (q t).
Qed.

Lemma id_test_task (n : number) (t : Task) (st : state) :
  (task_id ← get_member (task_json t) k_id;
   mret (strict_equals_number task_id n)) st = (Ret (has_id n t), st).
Proof. reflexivity. Qed.

Lemma id_test_task_neg (n : number) (t : Task) (st : state) :
  (task_id ← get_member (task_json t) k_id;
   mret (negb (strict_equals_number task_id n))) st
  = (Ret (negb (has_id n t)), st).
Proof. reflexivity. Qed.

(** [findIndex] on a task collection finds the first task with the id. *)
Lemma findIndex_collection (n : number) (C : list Task) (st : state) :
  findIndex (map task_json C)
    (fun task =>
       task_id ← get_member task k_id; mret (strict_equals_number task_id n)) st
  = (Ret (fst <$> list_find (fun t => has_id n t = true) C), st).
Proof. apply findIndex_pure. intros t st'. apply id_test_task. Qed.

(** [filter] on a task collection keeps the tasks with another id. *)
Lemma filter_array_collection (n : number) (C : list Task) (st : state) :
  filter_array (map task_json C)
    (fun task =>
       task_id ← get_member task k_id;
       mret (negb (strict_equals_number task_id n))) st
  = (Ret (map task_json (List.filter (fun t => negb (has_id n t)) C)), st).
Proof.
  apply (filter_array_pure (fun t => negb (has_id n t))).
  intros t st'. apply id_test_task_neg.
Qed.

Lemma flip_completed_collection (C : list Task) (i : nat) (t : Task) :
  C !! i = Some t ->
  flip_completed (map task_json C) i = map task_json (<[i := toggled t]> C).
Proof.
  intros Hi. unfold flip_completed.
  rewrite !map_fmap, list_lookup_fmap, Hi, list_fmap_insert.
  cbn [fmap option_fmap option_map].
  by destruct t.
Qed.

(** What [addTask] does on a collection when the trimmed input is not
    empty. *)
Lemma addTask_run (now : Z) (C : list Task) (st : state) :
  todos st = collection_json C ->
  trim (taskInput_value st) <> [] ->
  addTask now st =
    (Ret tt,
     with_empty_input
       (committed (C ++ [ {| id := now; text := trim (taskInput_value st);
                             completed := false |} ]) st)).
Proof.
  intros Htodos Htext. unfold addTask. unfold mbind at 1, M_bind at 1.
  cbn [get_state]. destruct (trim (taskInput_value st)) as [|c r] eqn:Htrim;
    [done|].
  unfold mbind at 1, M_bind at 1. rewrite Htodos.
  cbn [collection_json array_elements].
  unfold mret at 1, M_ret at 1. cbv beta iota.
  unfold mbind at 1, M_bind at 1. cbn [set_todos modify].
  unfold mbind at 1, M_bind at 1. rewrite saveTasks_run.
  unfold mbind at 1, M_bind at 1.
  set (new := {| id := now; text := c :: r; completed := false |}).
  change (JObj _) with (task_json new).
  change [task_json new] with (map task_json [new]).
  rewrite <- map_app.
  change (JArr (map task_json (C ++ [new]))) with (collection_json (C ++ [new])).
  match goal with
  | |- context [renderTasks (saved ?s)] =>
      change s with (with_todos (collection_json (C ++ [new])) st)
  end.
  rewrite renderTasks_committed. reflexivity.
Qed.
(** What [addTask] does when the trimmed input is empty, whatever
    [todos] holds. *)
Lemma addTask_empty_run (now : Z) (st : state) :
  trim (taskInput_value st) = [] ->
  addTask now st = alert empty_task_message st.
Proof.
  intros Htrim. unfold addTask, mbind, M_bind. cbn [get_state].
  by rewrite Htrim.
Qed.

(** What [toggleTaskCompletion] does on a collection. *)
Lemma toggleTaskCompletion_run (n : number) (C : list Task) (st : state) :
  todos st = collection_json C ->
  toggleTaskCompletion n st =
    match list_find (fun t => has_id n t = true) C with
    | Some (i, t) => (Ret tt, committed (<[i := toggled t]> C) st)
    | None => (Ret tt, st)
    end.
Proof.
  intros Htodos. unfold toggleTaskCompletion. unfold mbind at 1, M_bind at 1.
  cbn [get_state]. unfold mbind at 1, M_bind at 1. rewrite Htodos.
  cbn [collection_json array_elements]. unfold mret at 1, M_ret at 1.
  cbv beta iota. unfold mbind at 1, M_bind at 1.
  rewrite findIndex_collection.
  destruct (list_find _ C) as [[i t]|] eqn:Hfind; [|done].
  apply list_find_Some in Hfind as (Hi & _ & _).
  cbn [fmap option_fmap option_map fst].
  rewrite (flip_completed_collection C i t Hi).
  unfold mbind at 1, M_bind at 1. cbn [set_todos modify].
  unfold mbind at 1, M_bind at 1. rewrite saveTasks_run.
  change (JArr (map task_json (<[i:=toggled t]> C)))
    with (collection_json (<[i:=toggled t]> C)).
  match goal with
  | |- context [renderTasks (saved ?s)] =>
      change s with (with_todos (collection_json (<[i:=toggled t]> C)) st)
  end.
  apply renderTasks_committed.
Qed.

(** What [removeTask] does on a collection. *)
Lemma removeTask_run (n : number) (C : list Task) (st : state) :
  todos st = collection_json C ->
  removeTask n st =
    (Ret tt, committed (List.filter (fun t => negb (has_id n t)) C) st).
Proof.
  intros Htodos. unfold removeTask. unfold mbind at 1, M_bind at 1.
  cbn [get_state]. unfold mbind at 1, M_bind at 1. rewrite Htodos.
  cbn [collection_json array_elements]. unfold mret at 1, M_ret at 1.
  cbv beta iota. unfold mbind at 1, M_bind at 1.
  rewrite filter_array_collection.
  unfold mbind at 1, M_bind at 1. cbn [set_todos modify].
  unfold mbind at 1, M_bind at 1. rewrite saveTasks_run.
  set (C' := List.filter _ C).
  change (JArr (map task_json C')) with (collection_json C').
  match goal with
  | |- context [renderTasks (saved ?s)] =>
      change s with (with_todos (collection_json C') st)
  end.
  apply renderTasks_committed.
Qed.

(** What [loadTasks] does, by the content of the slot. *)
Lemma loadTasks_run (st : state) :
  loadTasks st =
    match localStorage st !! STORAGE_KEY with
    | None | Some [] => (Ret tt, with_todos (JArr []) st)
    | Some (c :: text) =>
        match JSON.parse (c :: text) with
        | Some v => (Ret tt, with_todos v st)
        | None => (Throw SyntaxError, st)
        end
    end.
Proof.
  unfold loadTasks, getItem, get_state, mbind, M_bind, mret, M_ret.
  destruct (localStorage st !! STORAGE_KEY) as [[|c text]|]; [done| |done].
  unfold JSON_parse. by destruct (JSON.parse (c :: text)).
Qed.
(** ** Facts about collections *)

Lemma has_id_true (n : number) (t : Task) :
  has_id n t = true <-> n = NInt (id t).
Proof.
  unfold has_id, number_eqb. rewrite NumFacts.eqb_eq.
  split; by intros ->.
Qed.

Lemma has_id_same (t : Task) : has_id (NInt (id t)) t = true.
Proof. by apply has_id_true. Qed.

Lemma task_json_inj (t t' : Task) : task_json t = task_json t' -> t = t'.
Proof. destruct t, t'. intros [= -> -> ->]. done. Qed.

Lemma collection_json_inj (C C' : list Task) :
  collection_json C = collection_json C' -> C = C'.
Proof.
  unfold collection_json. intros [= Heq]. revert C' Heq.
  induction C as [|t C IH]; intros [|t' C'] Heq; try done.
  cbn [map] in Heq.
  assert (Ht : task_json t = task_json t') by congruence.
  assert (HC : map task_json C = map task_json C') by congruence.
  f_equal; [by apply task_json_inj | by apply IH].
Qed.

(** In a collection with unique ids, a task is the first one with its id. *)
Lemma list_find_unique (C : list Task) (i : nat) (t : Task) :
  unique_ids C -> C !! i = Some t ->
  list_find (fun t' => has_id (NInt (id t)) t' = true) C = Some (i, t).
Proof.
  intros Huniq Hi. apply list_find_Some. split; [done|].
  split; [apply has_id_same|]. intros j y Hj Hlt Hhas.
  apply has_id_true in Hhas. injection Hhas as Hid.
  assert (i = j); [|lia].
  apply (NoDup_lookup (map id C) i j (id t)); [done|..];
    rewrite map_fmap, list_lookup_fmap; [by rewrite Hi | by rewrite Hj, Hid].
Qed.

Lemma filter_absent (n : number) (C : list Task) :
  (forall t, t ∈ C -> has_id n t = false) ->
  List.filter (fun t => negb (has_id n t)) C = C.
Proof.
  induction C as [|x C IH]; intros Habs; [done|].
  cbn [List.filter]. rewrite (Habs x) by apply list_elem_of_here.
  cbn [negb]. rewrite IH; [done|]. intros t Ht. apply Habs.
  by apply list_elem_of_further.
Qed.

Lemma filter_present (n : number) (C : list Task) (k : nat) (t : Task) :
  unique_ids C -> C !! k = Some t -> has_id n t = true ->
  List.filter (fun t' => negb (has_id n t')) C = delete k C.
Proof.
  intros Huniq Hk Hhas. apply has_id_true in Hhas as ->.
  revert k Huniq Hk. induction C as [|x C IH]; intros k Huniq Hk; [done|].
  unfold unique_ids in Huniq. cbn [map] in Huniq.
  apply NoDup_cons in Huniq as [Hfresh Huniq].
  destruct k as [|k]; cbn [List.filter].
  - injection Hk as ->. rewrite has_id_same. cbn [negb delete list_delete].
    apply filter_absent. intros y Hy.
    destruct (has_id (NInt (id t)) y) eqn:Hy'; [|done].
    apply has_id_true in Hy'. injection Hy' as Hid. destruct Hfresh.
    rewrite Hid, map_fmap. by apply list_elem_of_fmap_2.
  - cbn in Hk. destruct (has_id (NInt (id t)) x) eqn:Hx.
    + apply has_id_true in Hx. injection Hx as Hid. destruct Hfresh.
      rewrite <- Hid, map_fmap. apply list_elem_of_fmap_2.
      by apply list_elem_of_lookup_2 with k.
    + cbn [negb delete list_delete]. f_equal. by apply IH.
Qed.

Lemma filter_no_id (n : number) (C : list Task) (t : Task) :
  t ∈ List.filter (fun t' => negb (has_id n t')) C -> has_id n t = false.
Proof.
  rewrite list_elem_of_In, filter_In. intros [_ Hneg].
  by apply negb_true_iff.
Qed.

Lemma committed_todos (C : list Task) (st : state) :
  todos (committed C st) = collection_json C.
Proof. reflexivity. Qed.
(** ** The persistence adapter *)

(** C1 (as amended): when the slot is absent or holds the empty string,
    [loadTasks] returns normally with an empty collection; when the slot
    holds non-empty text that [JSON.parse] accepts, [loadTasks] returns
    normally and the collection is the parsed value as it is; when
    [JSON.parse] rejects the text, its [SyntaxError] escapes to the caller
    and the state is left as it was. *)
Theorem loadTasks_by_slot (st : state) :
  (localStorage st !! STORAGE_KEY = None
   \/ localStorage st !! STORAGE_KEY = Some [] ->
   loadTasks st = (Ret tt, with_todos (JArr []) st))
  /\ (forall text v,
        localStorage st !! STORAGE_KEY = Some text -> text <> [] ->
        JSON.parse text = Some v ->
        loadTasks st = (Ret tt, with_todos v st))
  /\ (forall text,
        localStorage st !! STORAGE_KEY = Some text -> text <> [] ->
        JSON.parse text = None ->
        loadTasks st = (Throw SyntaxError, st)).
Proof.
  rewrite loadTasks_run. repeat split.
  - by intros [-> | ->].
  - intros [|c text] v -> Hne Hv; [done|]. by rewrite Hv.
  - intros [|c text] -> Hne Hv; [done|]. by rewrite Hv.
Qed.

Lemma stringify_collection_nonempty (C : list StoredTask) :
  JSON.stringify (stored_collection_json C) <> [].
Proof. done. Qed.

Lemma stored_json_inj (t t' : StoredTask) :
  stored_json t = stored_json t' -> t = t'.
Proof. destruct t, t'. intros [= -> -> ->]. done. Qed.

Lemma stored_collection_json_inj (C C' : list StoredTask) :
  stored_collection_json C = stored_collection_json C' -> C = C'.
Proof.
  unfold stored_collection_json. intros [= Hmap]. revert C' Hmap.
  induction C as [|t C IH]; intros [|t' C'] Hmap; try done.
  cbn [map] in Hmap.
  assert (Ht : stored_json t = stored_json t') by congruence.
  assert (HC : map stored_json C = map stored_json C') by congruence.
  f_equal; [by apply stored_json_inj | by apply IH].
Qed.

(** What a page loads from a slot that holds the text of a collection. *)
Lemma loadTasks_stored (C : list StoredTask) (st : state) :
  finite_ids C ->
  localStorage st !! STORAGE_KEY
  = Some (JSON.stringify (stored_collection_json C)) ->
  loadTasks st = (Ret tt, with_todos (stored_collection_json C) st).
Proof.
  intros Hids Hslot. rewrite loadTasks_run, Hslot.
  pose proof (stringify_collection_nonempty C) as Hne.
  destruct (JSON.stringify (stored_collection_json C)) as [|c text] eqn:Htext;
    [done|].
  by rewrite <- Htext, JSONFacts.parse_stringify_stored.
Qed.

Lemma loadTasks_collection (C : list Task) (st : state) :
  js_ids C ->
  localStorage st !! STORAGE_KEY = Some (JSON.stringify (collection_json C)) ->
  loadTasks st = (Ret tt, with_todos (collection_json C) st).
Proof.
  intros Hids. rewrite JSONFacts.collection_json_stored.
  by apply loadTasks_stored, JSONFacts.js_ids_finite.
Qed.

(** C6 (as amended): saving a collection whose ids are finite Number values
    and loading it again, in the same page or in any later page that sees
    the same storage, returns normally with a collection equal to the saved
    one. *)
Theorem save_then_load_finite_ids (C : list StoredTask) (st : state) :
  finite_ids C ->
  todos st = stored_collection_json C ->
  exists st1,
    saveTasks st = (Ret tt, st1)
    /\ forall st2, localStorage st2 = localStorage st1 ->
         exists st3,
           loadTasks st2 = (Ret tt, st3)
           /\ todos st3 = stored_collection_json C
           /\ forall C', todos st3 = stored_collection_json C' -> C' = C.
Proof.
  intros Hids Htodos. exists (saved st). split; [apply saveTasks_run|].
  intros st2 Hstore. exists (with_todos (stored_collection_json C) st2).
  assert (Hslot : localStorage st2 !! STORAGE_KEY
                  = Some (JSON.stringify (stored_collection_json C))).
  { rewrite Hstore. unfold saved. cbn [localStorage].
    by rewrite lookup_insert_eq, Htodos. }
  split; [by apply loadTasks_stored|]. split; [done|].
  intros C' HC'. symmetry. by apply stored_collection_json_inj.
Qed.

(** ** The task store *)

(** C2: when the trimmed input is not empty, [addTask] returns normally and
    the collection is the old one followed by exactly one new task, whose id
    is the clock reading, whose text is the trimmed input and whose
    [completed] is [false]; the size grows by one and every task that was
    there is where it was. *)
Theorem addTask_appends (now : Z) (C : list Task) (st : state) :
  todos st = collection_json C ->
  trim (taskInput_value st) <> [] ->
  exists st' t,
    addTask now st = (Ret tt, st')
    /\ todos st' = collection_json (C ++ [t])
    /\ id t = now
    /\ text t = trim (taskInput_value st)
    /\ completed t = false
    /\ length (C ++ [t]) = S (length C)
    /\ forall i old, C !! i = Some old -> (C ++ [t]) !! i = Some old.
Proof.
  intros Htodos Htext.
  eexists _, {| id := now; text := trim (taskInput_value st);
                completed := false |}.
  split; [by apply addTask_run|]. repeat split.
  - rewrite length_app. cbn. lia.
  - intros i old Hi. by apply lookup_app_l_Some.
Qed.

(** C3: when the trimmed input is empty, [addTask] returns normally after one
    [alert] with the error message; the collection, the input field, the
    storage and the list on the page are what they were. *)
Theorem addTask_empty_rejected (now : Z) (st : state) :
  trim (taskInput_value st) = [] ->
  exists st',
    addTask now st = (Ret tt, st')
    /\ calls st' = calls st ++ [Alert empty_task_message]
    /\ todos st' = todos st
    /\ taskInput_value st' = taskInput_value st
    /\ localStorage st' = localStorage st
    /\ taskList st' = taskList st.
Proof.
  intros Htrim. eexists. split; [by apply addTask_empty_run|]. done.
Qed.

(** C4: in a collection with unique ids, [toggleTaskCompletion] on the id of
    the task at position [i] returns normally with a collection of the same
    size in which that task has the same id and text and the opposite
    [completed], and every other position is unchanged; a second call with
    the same id gives back the original collection. *)
Theorem toggle_flips_and_restores (C : list Task) (i : nat) (t : Task)
    (st : state) :
  todos st = collection_json C ->
  unique_ids C ->
  C !! i = Some t ->
  exists st1 C1,
    toggleTaskCompletion (NInt (id t)) st = (Ret tt, st1)
    /\ todos st1 = collection_json C1
    /\ length C1 = length C
    /\ (exists t', C1 !! i = Some t' /\ id t' = id t /\ text t' = text t
                   /\ completed t' = negb (completed t))
    /\ (forall j, j <> i -> C1 !! j = C !! j)
    /\ exists st2,
         toggleTaskCompletion (NInt (id t)) st1 = (Ret tt, st2)
         /\ todos st2 = collection_json C.
Proof.
  intros Htodos Huniq Hi.
  assert (Hlt : (i < length C)%nat) by by apply lookup_lt_Some with t.
  exists (committed (<[i := toggled t]> C) st), (<[i := toggled t]> C).
  split.
  { rewrite (toggleTaskCompletion_run _ C) by done.
    by rewrite (list_find_unique C i t). }
  split; [done|]. split; [apply length_insert|].
  split.
  { exists (toggled t). by rewrite list_lookup_insert_eq. }
  split.
  { intros j Hj. by apply list_lookup_insert_ne. }
  exists (committed C (committed (<[i := toggled t]> C) st)).
  split; [|done].
  rewrite (toggleTaskCompletion_run _ (<[i := toggled t]> C)) by done.
  change (NInt (id t)) with (NInt (id (toggled t))).
  rewrite (list_find_unique _ i (toggled t)).
  - rewrite list_insert_insert_eq. destruct t as [n x c].
    unfold toggled. cbn [id text completed]. rewrite negb_involutive.
    by rewrite list_insert_id.
  - unfold unique_ids. rewrite map_fmap, list_fmap_insert.
    cbn [toggled id]. rewrite list_insert_id; [done|].
    by rewrite list_lookup_fmap, Hi.
  - by apply list_lookup_insert_eq.
Qed.

(** C5: [removeTask] on an id that no task has returns normally with the
    collection unchanged; on the id of the task at position [k] of a
    collection with unique ids it returns normally with the collection
    without that position: one task fewer, none with that id, the others
    with their values and in their order. *)
Theorem removeTask_absent_and_present (n : number) (C : list Task)
    (st : state) :
  todos st = collection_json C ->
  ((forall t, t ∈ C -> has_id n t = false) ->
   exists st', removeTask n st = (Ret tt, st')
               /\ todos st' = collection_json C)
  /\ (forall k t,
        unique_ids C -> C !! k = Some t -> has_id n t = true ->
        exists st' C',
          removeTask n st = (Ret tt, st')
          /\ todos st' = collection_json C'
          /\ C' = take k C ++ drop (S k) C
          /\ S (length C') = length C
          /\ forall t', t' ∈ C' -> has_id n t' = false).
Proof.
  intros Htodos. split.
  - intros Habs. eexists. split; [by apply removeTask_run|].
    by rewrite committed_todos, filter_absent.
  - intros k t Huniq Hk Hhas.
    pose proof (filter_present n C k t Huniq Hk Hhas) as Hfilter.
    eexists _, (delete k C). split; [by apply removeTask_run|].
    split; [by rewrite committed_todos, Hfilter|].
    split; [by rewrite delete_take_drop|].
    split.
    + rewrite length_delete by eauto.
      apply lookup_lt_Some in Hk. lia.
    + intros t'. rewrite <- Hfilter. apply filter_no_id.
Qed.
(** ** The view renderer *)

Lemma row_of_markers (q : jsstring) (t : Task) :
  is_hidden (row_of q t) = negb (includes (toLowerCase (text t)) q)
  /\ is_completed (row_of q t) = completed t.
Proof.
  unfold is_hidden, is_completed, row_of. cbn [li_classList].
  by destruct (includes (toLowerCase (text t)) q), (completed t).
Qed.

Lemma rendered_row (C : list Task) (st : state) (i : nat) (t : Task) :
  C !! i = Some t ->
  taskList (rendered C st) !! i
  = Some (row_of (toLowerCase (searchInput_value st)) t).
Proof.
  intros Hi. unfold rendered, rows_of. cbn [taskList].
  by rewrite map_fmap, list_lookup_fmap, Hi.
Qed.

(** C7: rendering a collection returns normally, and the row of a task
    carries the hidden marker exactly when the lowercased query does not
    occur in the lowercased text of the task; with an empty query no row
    carries it. *)
Theorem render_hides_exactly_non_matching (C : list Task) (st : state) :
  todos st = collection_json C ->
  exists st',
    renderTasks st = (Ret tt, st')
    /\ (forall i t, C !! i = Some t ->
         exists li,
           taskList st' !! i = Some li
           /\ (is_hidden li = true <->
               ~ Substring (toLowerCase (searchInput_value st))
                           (toLowerCase (text t))))
    /\ (searchInput_value st = [] ->
        forall li, li ∈ taskList st' -> is_hidden li = false).
Proof.
  intros Htodos. exists (rendered C st).
  split; [by apply renderTasks_collection|]. split.
  - intros i t Hi. eexists. split; [by apply rendered_row|].
    rewrite (proj1 (row_of_markers _ t)), negb_true_iff.
    rewrite <- includes_spec. by destruct (includes _ _).
  - intros Hq li Hli. unfold rendered, rows_of in Hli. cbn [taskList] in Hli.
    rewrite map_fmap in Hli. apply list_elem_of_fmap in Hli as (t & -> & _).
    rewrite (proj1 (row_of_markers _ t)), Hq, toLowerCase_empty.
    by rewrite includes_empty.
Qed.

(** C8: rendering a collection returns normally with exactly one row per
    task, in order; the completed marker of a row is the [completed] flag of
    its task and the hidden marker is the outcome of the search test, each
    whatever the other is. *)
Theorem render_one_row_per_task (C : list Task) (st : state) :
  todos st = collection_json C ->
  exists st',
    renderTasks st = (Ret tt, st')
    /\ length (taskList st') = length C
    /\ forall i t, C !! i = Some t ->
         exists li,
           taskList st' !! i = Some li
           /\ textContent <$> childNodes li !! 0%nat = Some (text t)
           /\ is_completed li = completed t
           /\ is_hidden li
              = negb (includes (toLowerCase (text t))
                               (toLowerCase (searchInput_value st))).
Proof.
  intros Htodos. exists (rendered C st).
  split; [by apply renderTasks_collection|]. split.
  - unfold rendered, rows_of. cbn [taskList]. apply length_map.
  - intros i t Hi. eexists. split; [by apply rendered_row|].
    split; [done|].
    by destruct (row_of_markers (toLowerCase (searchInput_value st)) t).
Qed.

(** ** Ids *)

Lemma unique_ids_filter (f : Task -> bool) (C : list Task) :
  unique_ids C -> unique_ids (List.filter f C).
Proof.
  unfold unique_ids. induction C as [|x C IH]; [done|].
  cbn [map List.filter]. intros [Hfresh Huniq]%NoDup_cons.
  destruct (f x); [|by apply IH]. cbn [map]. apply NoDup_cons.
  split; [|by apply IH]. intros Hin. apply Hfresh.
  rewrite map_fmap in *. apply list_elem_of_fmap in Hin as (y & Hy & Hin).
  rewrite Hy. apply list_elem_of_fmap_2.
  apply list_elem_of_In, filter_In in Hin as [Hin _]. by apply list_elem_of_In.
Qed.

Lemma unique_ids_toggled (C : list Task) (i : nat) (t : Task) :
  unique_ids C -> C !! i = Some t -> unique_ids (<[i := toggled t]> C).
Proof.
  unfold unique_ids. intros Huniq Hi.
  rewrite map_fmap, list_fmap_insert. cbn [toggled id].
  rewrite list_insert_id; [done|]. by rewrite list_lookup_fmap, Hi.
Qed.

(** C9 (as amended): on a collection with unique ids, every operation of the
    page returns normally and leaves a collection with unique ids, provided
    that the clock reading of an add is not already the id of a task. *)
Theorem operations_preserve_unique_ids (op : operation) (C : list Task)
    (st : state) :
  todos st = collection_json C ->
  unique_ids C ->
  (forall now, op = Add now -> now ∉ map id C) ->
  exists st' C',
    run op st = (Ret tt, st')
    /\ todos st' = collection_json C'
    /\ unique_ids C'.
Proof.
  intros Htodos Huniq Hclock. destruct op as [now|n|n|]; cbn [run].
  - destruct (trim (taskInput_value st)) as [|c r] eqn:Htrim.
    + rewrite addTask_empty_run by done.
      eexists _, C. split; [reflexivity|]. done.
    + eexists _, _. split; [apply (addTask_run now C); by rewrite ?Htrim|].
      split; [done|]. unfold unique_ids. rewrite map_app. cbn [map id].
      apply NoDup_app. split; [done|]. split; [|apply NoDup_singleton].
      intros x Hx ->%list_elem_of_singleton. by apply (Hclock now).
  - rewrite (toggleTaskCompletion_run n C) by done.
    destruct (list_find _ C) as [[i t]|] eqn:Hfind.
    + apply list_find_Some in Hfind as (Hi & _ & _).
      eexists _, _. split; [done|]. split; [done|].
      by apply unique_ids_toggled.
    + by exists st, C.
  - eexists _, _. split; [by apply removeTask_run|]. split; [done|].
    by apply unique_ids_filter.
  - eexists _, C. split; [by apply renderTasks_collection|]. done.
Qed.

(** ** Write-through *)

(** C10: on an id that no task has, [toggleTaskCompletion] returns with the
    state exactly as it was (no call to the storage, none to the list),
    whereas [removeTask] still calls [setItem] with the text of the
    unchanged collection, empties the list and appends every row again. *)
Theorem absent_id_toggle_silent_remove_rewrites (n : number)
    (C : list Task) (st : state) :
  todos st = collection_json C ->
  (forall t, t ∈ C -> has_id n t = false) ->
  toggleTaskCompletion n st = (Ret tt, st)
  /\ exists st',
       removeTask n st = (Ret tt, st')
       /\ todos st' = todos st
       /\ calls st' =
            calls st ++ SetItem STORAGE_KEY (JSON.stringify (todos st))
                   :: ClearTaskList :: map AppendChild (rows_of C st)
       /\ localStorage st' =
            <[STORAGE_KEY := JSON.stringify (todos st)]> (localStorage st)
       /\ taskList st' = rows_of C st.
Proof.
  intros Htodos Habs. split.
  - rewrite (toggleTaskCompletion_run n C) by done.
    replace (list_find _ C) with (@None (nat * Task)); [done|].
    symmetry. apply list_find_None, Forall_forall. intros t Ht.
    by rewrite (Habs t Ht).
  - eexists. split; [by apply removeTask_run|].
    rewrite (filter_absent n C Habs). unfold committed, rendered, saved.
    cbn [todos calls localStorage taskList with_todos].
    rewrite Htodos, <- app_assoc. done.
Qed.
End Script.

(** ** The theorems at concrete pages *)

Ltac by_decide := apply (bool_decide_unpack _); vm_compute; exact I.

(** A truncated array is no JSON text, whatever the fuel. *)
Lemma parse_value_truncated (fuel : nat) :
  JSON.parse_value fuel (str "[1,") = None.
Proof. do 4 (destruct fuel as [|fuel]; [reflexivity|]). reflexivity. Qed.

(** C1, counterexample: with a truncated array in the slot, the
    [SyntaxError] of [JSON.parse] escapes from [loadTasks]; no empty
    collection is returned. *)
Lemma loadTasks_truncated_slot_throws :
  localStorage truncated_page !! STORAGE_KEY = Some (str "[1,")
  /\ JSON.parse (str "[1,") = None
  /\ loadTasks truncated_page = (Throw SyntaxError, truncated_page).
Proof. repeat split; vm_compute; reflexivity. Qed.

(** Valid JSON of another shape is taken as the collection without a
    throw. *)
Lemma loadTasks_object_slot :
  loadTasks object_page = (Ret tt, with_todos (JObj []) object_page).
Proof. vm_compute. reflexivity. Qed.

Lemma loadTasks_by_slot_witness :
  localStorage (fresh_page ∅) !! STORAGE_KEY = None
  /\ loadTasks (fresh_page ∅) = (Ret tt, with_todos (JArr []) (fresh_page ∅))
  /\ loadTasks object_page = (Ret tt, with_todos (JObj []) object_page)
  /\ loadTasks truncated_page = (Throw SyntaxError, truncated_page).
Proof.
  split; [reflexivity|]. split; [|split].
  - apply (proj1 (loadTasks_by_slot (fresh_page ∅))). left. reflexivity.
  - apply (proj1 (proj2 (loadTasks_by_slot object_page)) (str "{}"));
      [reflexivity | discriminate | vm_compute; reflexivity].
  - apply (proj2 (proj2 (loadTasks_by_slot truncated_page)) (str "[1,"));
      [reflexivity | discriminate | vm_compute; reflexivity].
Defined.

Lemma assorted_finite_ids : finite_ids assorted.
Proof. repeat (constructor; [vm_compute; reflexivity|]). constructor. Defined.

Lemma save_then_load_finite_ids_witness :
  finite_ids assorted
  /\ todos assorted_page = stored_collection_json assorted
  /\ exists st1,
       saveTasks assorted_page = (Ret tt, st1)
       /\ forall st2, localStorage st2 = localStorage st1 ->
            exists st3,
              loadTasks st2 = (Ret tt, st3)
              /\ todos st3 = stored_collection_json assorted
              /\ forall C', todos st3 = stored_collection_json C' ->
                            C' = assorted.
Proof.
  split; [exact assorted_finite_ids|]. split; [reflexivity|].
  exact (save_then_load_finite_ids assorted assorted_page
           assorted_finite_ids eq_refl).
Defined.

(** The text that [saveTasks] writes for these tasks: an integer with all
    its digits, [0.1] by its shortest decimal, [10^21] in the exponent
    form. *)
Example assorted_text :
  JSON.stringify (stored_collection_json assorted)
  = str "[{" ++ JSON.quote k_id ++ str ":1730000000000,"
    ++ JSON.quote k_text ++ str ":" ++ JSON.quote (str "buy milk")
    ++ str "," ++ JSON.quote k_completed ++ str ":false},{"
    ++ JSON.quote k_id ++ str ":0.1,"
    ++ JSON.quote k_text ++ str ":" ++ JSON.quote (str "a tenth")
    ++ str "," ++ JSON.quote k_completed ++ str ":false},{"
    ++ JSON.quote k_id ++ str ":1e+21,"
    ++ JSON.quote k_text ++ str ":" ++ JSON.quote (str "far away")
    ++ str "," ++ JSON.quote k_completed ++ str ":true}]".
Proof. vm_compute. reflexivity. Qed.

(** C6, counterexample: a slot whose task has the id [1e400] is loaded as a
    collection whose task has a number id, the infinity; saving it writes
    [null] for that id, and the next load gives a task whose id is [null]:
    no collection of tasks with number ids, and not the one saved. *)
Lemma save_then_load_infinite_id :
  exists st st1 st3,
    loadTasks endless_page = (Ret tt, st)
    /\ todos st = stored_collection_json [endless]
    /\ saveTasks st = (Ret tt, st1)
    /\ loadTasks (fresh_page (localStorage st1)) = (Ret tt, st3)
    /\ todos st3 = JArr [JObj [(k_id, JNull); (k_text, JStr (str "x"));
                              (k_completed, JBool false)]]
    /\ forall C', todos st3 <> stored_collection_json C'.
Proof.
  eexists _, _, _. split; [vm_compute; reflexivity|].
  split; [vm_compute; reflexivity|]. split; [vm_compute; reflexivity|].
  split; [vm_compute; reflexivity|]. split; [vm_compute; reflexivity|].
  intros [|[i x c] [|t C']]; vm_compute; discriminate.
Qed.

Lemma addTask_appends_witness :
  trim (taskInput_value demo_page) = str "call mum"
  /\ exists st' t,
       @addTask ascii_platform 1730000000002 demo_page = (Ret tt, st')
       /\ todos st' = collection_json ([milk; eggs] ++ [t])
       /\ id t = 1730000000002%Z
       /\ text t = trim (taskInput_value demo_page)
       /\ completed t = false
       /\ length ([milk; eggs] ++ [t]) = S (length [milk; eggs])
       /\ forall i old, [milk; eggs] !! i = Some old ->
                        ([milk; eggs] ++ [t]) !! i = Some old.
Proof.
  split; [vm_compute; reflexivity|].
  apply (@addTask_appends ascii_platform 1730000000002 [milk; eggs] demo_page);
    [reflexivity | vm_compute; discriminate].
Defined.

Lemma addTask_empty_rejected_witness :
  trim (taskInput_value blank_page) = []
  /\ exists st',
       @addTask ascii_platform 1730000000002 blank_page = (Ret tt, st')
       /\ calls st' = calls blank_page ++ [Alert empty_task_message]
       /\ todos st' = todos blank_page
       /\ taskInput_value st' = taskInput_value blank_page
       /\ localStorage st' = localStorage blank_page
       /\ taskList st' = taskList blank_page.
Proof.
  split; [vm_compute; reflexivity|].
  apply (@addTask_empty_rejected ascii_platform 1730000000002 blank_page).
  vm_compute. reflexivity.
Defined.

Lemma toggle_flips_and_restores_witness :
  unique_ids [milk; eggs]
  /\ exists st1 C1,
       @toggleTaskCompletion ascii_platform (NInt (id eggs)) demo_page
       = (Ret tt, st1)
       /\ todos st1 = collection_json C1
       /\ length C1 = length [milk; eggs]
       /\ (exists t', C1 !! 1%nat = Some t' /\ id t' = id eggs
                      /\ text t' = text eggs
                      /\ completed t' = negb (completed eggs))
       /\ (forall j, j <> 1%nat -> C1 !! j = [milk; eggs] !! j)
       /\ exists st2,
            @toggleTaskCompletion ascii_platform (NInt (id eggs)) st1
            = (Ret tt, st2)
            /\ todos st2 = collection_json [milk; eggs].
Proof.
  assert (Huniq : unique_ids [milk; eggs]) by (unfold unique_ids; by_decide).
  split; [exact Huniq|].
  exact (@toggle_flips_and_restores ascii_platform [milk; eggs] 1 eggs demo_page
           eq_refl Huniq eq_refl).
Defined.

Lemma no_task_has_id_7 (t : Task) :
  t ∈ [milk; eggs] -> has_id (NInt 7) t = false.
Proof.
  intros [->|Ht]%elem_of_cons; [reflexivity|].
  apply list_elem_of_singleton in Ht as ->. reflexivity.
Defined.

Lemma removeTask_absent_and_present_witness :
  unique_ids [milk; eggs]
  /\ has_id (NInt (id milk)) milk = true
  /\ (exists st', @removeTask ascii_platform (NInt 7) demo_page = (Ret tt, st')
                  /\ todos st' = collection_json [milk; eggs])
  /\ exists st' C',
       @removeTask ascii_platform (NInt (id milk)) demo_page = (Ret tt, st')
       /\ todos st' = collection_json C'
       /\ C' = take 0 [milk; eggs] ++ drop 1 [milk; eggs]
       /\ S (length C') = length [milk; eggs]
       /\ forall t', t' ∈ C' -> has_id (NInt (id milk)) t' = false.
Proof.
  assert (Huniq : unique_ids [milk; eggs]) by (unfold unique_ids; by_decide).
  split; [exact Huniq|]. split; [reflexivity|]. split.
  - exact (proj1 (@removeTask_absent_and_present ascii_platform (NInt 7)
                    [milk; eggs] demo_page eq_refl) no_task_has_id_7).
  - exact (proj2 (@removeTask_absent_and_present ascii_platform
                    (NInt (id milk)) [milk; eggs] demo_page eq_refl)
             0%nat milk Huniq eq_refl eq_refl).
Defined.

Lemma render_hides_exactly_non_matching_witness :
  todos demo_page = collection_json [milk; eggs]
  /\ exists st',
       @renderTasks ascii_platform demo_page = (Ret tt, st')
       /\ (forall i t, [milk; eggs] !! i = Some t ->
            exists li,
              taskList st' !! i = Some li
              /\ (is_hidden li = true <->
                  ~ Substring
                      (@toLowerCase ascii_platform (searchInput_value demo_page))
                      (@toLowerCase ascii_platform (text t))))
       /\ (searchInput_value demo_page = [] ->
           forall li, li ∈ taskList st' -> is_hidden li = false).
Proof.
  split; [reflexivity|].
  exact (@render_hides_exactly_non_matching ascii_platform [milk; eggs]
           demo_page eq_refl).
Defined.

Lemma render_one_row_per_task_witness :
  todos demo_page = collection_json [milk; eggs]
  /\ exists st',
       @renderTasks ascii_platform demo_page = (Ret tt, st')
       /\ length (taskList st') = length [milk; eggs]
       /\ forall i t, [milk; eggs] !! i = Some t ->
            exists li,
              taskList st' !! i = Some li
              /\ textContent <$> childNodes li !! 0%nat = Some (text t)
              /\ is_completed li = completed t
              /\ is_hidden li
                 = negb (includes
                           (@toLowerCase ascii_platform (text t))
                           (@toLowerCase ascii_platform
                              (searchInput_value demo_page))).
Proof.
  split; [reflexivity|].
  exact (@render_one_row_per_task ascii_platform [milk; eggs] demo_page
           eq_refl).
Defined.

(** The page drawn at [demo_page]: the first row is shown and open, the
    second is hidden and completed. *)
Lemma renderTasks_demo_page :
  exists st',
    @renderTasks ascii_platform demo_page = (Ret tt, st')
    /\ map li_classList (taskList st') = [[]; ["hidden"; "completed"]].
Proof. eexists. split; vm_compute; reflexivity. Qed.

(** C9, counterexample: two adds that read the same clock value, starting
    from an empty page, leave two tasks with one id. *)
Lemma addTask_same_clock_duplicates_id :
  exists st1 st2,
    @addTask ascii_platform 1730000000000
      (with_inputs (str "a") [] (fresh_page ∅)) = (Ret tt, st1)
    /\ @addTask ascii_platform 1730000000000
         (with_inputs (str "b") [] st1) = (Ret tt, st2)
    /\ todos st2 =
         collection_json
           [ {| id := 1730000000000; text := str "a"; completed := false |};
             {| id := 1730000000000; text := str "b"; completed := false |} ]
    /\ ~ unique_ids
           [ {| id := 1730000000000; text := str "a"; completed := false |};
             {| id := 1730000000000; text := str "b"; completed := false |} ].
Proof.
  eexists _, _. split; [vm_compute; reflexivity|].
  split; [vm_compute; reflexivity|]. split; [vm_compute; reflexivity|].
  unfold unique_ids. cbn [map id]. intros Hdup.
  apply NoDup_cons in Hdup as [Hfresh _]. apply Hfresh, list_elem_of_here.
Qed.

Lemma fresh_clock (now : Z) :
  Add 1730000000002 = Add now -> now ∉ map id [milk; eggs].
Proof. intros [= <-]. by_decide. Defined.

Lemma operations_preserve_unique_ids_witness :
  unique_ids [milk; eggs]
  /\ exists st' C',
       @run ascii_platform (Add 1730000000002) demo_page = (Ret tt, st')
       /\ todos st' = collection_json C'
       /\ unique_ids C'.
Proof.
  assert (Huniq : unique_ids [milk; eggs]) by (unfold unique_ids; by_decide).
  split; [exact Huniq|].
  exact (@operations_preserve_unique_ids ascii_platform (Add 1730000000002)
           [milk; eggs] demo_page eq_refl Huniq fresh_clock).
Defined.

Lemma absent_id_toggle_silent_remove_rewrites_witness :
  @toggleTaskCompletion ascii_platform (NInt 7) demo_page = (Ret tt, demo_page)
  /\ exists st',
       @removeTask ascii_platform (NInt 7) demo_page = (Ret tt, st')
       /\ todos st' = todos demo_page
       /\ calls st' =
            calls demo_page
            ++ SetItem STORAGE_KEY (JSON.stringify (todos demo_page))
               :: ClearTaskList
               :: map AppendChild (@rows_of ascii_platform [milk; eggs] demo_page)
       /\ localStorage st' =
            <[STORAGE_KEY := JSON.stringify (todos demo_page)]>
              (localStorage demo_page)
       /\ taskList st' = @rows_of ascii_platform [milk; eggs] demo_page.
Proof.
  exact (@absent_id_toggle_silent_remove_rewrites ascii_platform (NInt 7)
           [milk; eggs] demo_page eq_refl no_task_has_id_7).
Defined.

(** The scenario of the specification, run from an empty page: add, toggle,
    a rejected empty add, two searches, remove, and a reload from the
    storage the page left. *)
Example end_to_end_scenario :
  let r1 := @addTask ascii_platform 1730000000000
              (with_inputs (str "buy milk") [] (fresh_page ∅)) in
  let r2 := @toggleTaskCompletion ascii_platform (NInt 1730000000000) r1.2 in
  let r3 := @addTask ascii_platform 1730000000001 r2.2 in
  let r4 := @renderTasks ascii_platform (with_inputs [] (str "milk") r3.2) in
  let r5 := @renderTasks ascii_platform (with_inputs [] (str "eggs") r3.2) in
  let r6 := @removeTask ascii_platform (NInt 1730000000000) r3.2 in
  let r7 := loadTasks (fresh_page (localStorage r6.2)) in
  [r1.1; r2.1; r3.1; r4.1; r5.1; r6.1; r7.1] = repeat (Ret tt) 7
  /\ todos r1.2 = collection_json [milk]
  /\ todos r2.2 = collection_json [toggled milk]
  /\ todos r3.2 = todos r2.2
  /\ calls r3.2 = calls r2.2 ++ [Alert empty_task_message]
  /\ map is_hidden (taskList r4.2) = [false]
  /\ map is_hidden (taskList r5.2) = [true]
  /\ todos r6.2 = collection_json []
  /\ localStorage r6.2 !! STORAGE_KEY = Some (str "[]")
  /\ todos r7.2 = collection_json [].
Proof. vm_compute. repeat apply conj; reflexivity. Qed.

(** * Further properties of the script *)

(** ** Rendering any value *)

Section Rendering.
Context `{Platform}.

Lemma render_task_any (q : jsstring) (task : json) (st : state) :
  render_task q task st =
    if drawable_task task
    then (Ret tt, appended [row_of_json q task] st)
    else (Throw TypeError, st).
Proof.
  unfold render_task, drawable_task, has_printable_id, has_string_text,
    row_of_json, member, get_member.
  destruct task as [|b|n|s|elems|props]; try reflexivity.
  unfold mbind, M_bind, mret, M_ret, to_DOMString.
  destruct (ToString (Obj.get k_id props)) as [dataset_id|]; [|reflexivity].
  cbn [andb default].
  destruct (Obj.get k_text props) as [[|b|n|s|elems|props']|]; reflexivity.
Qed.

Lemma appended_nil (st : state) : appended [] st = st.
Proof. destruct st. unfold appended. cbn. by rewrite !app_nil_r. Qed.

Lemma appended_cons (li : listItem) (rows : list listItem) (st : state) :
  appended rows (appended [li] st) = appended (li :: rows) st.
Proof. unfold appended. cbn. by rewrite <- !app_assoc. Qed.

Lemma forEach_any (q : jsstring) (elems : list json) (st : state) :
  forEach elems (render_task q) st =
    (if forallb drawable_task elems then Ret tt else Throw TypeError,
     appended (map (row_of_json q) (drawable_prefix elems)) st).
Proof.
  revert st. induction elems as [|x elems IH]; intros st.
  - cbn. by rewrite appended_nil.
  - cbn [forEach forallb drawable_prefix]. unfold mbind, M_bind.
    rewrite render_task_any. destruct (drawable_task x).
    + rewrite IH. cbn [andb map]. by rewrite appended_cons.
    + cbn. by rewrite appended_nil.
Qed.

(** What [renderTasks] does in any state. *)
Lemma renderTasks_any (st : state) :
  renderTasks st =
    match todos st with
    | JArr elems =>
        (if forallb drawable_task elems then Ret tt else Throw TypeError,
         drawn (map (row_of_json (toLowerCase (searchInput_value st)))
                    (drawable_prefix elems)) st)
    | _ => (Throw TypeError, drawn [] st)
    end.
Proof.
  unfold renderTasks, mbind, M_bind, clear_taskList, modify, get_state.
  cbn [todos searchInput_value].
  destruct (todos st) as [|b|n|s|elems|props] eqn:Htodos;
    unfold drawn; rewrite Htodos; try reflexivity.
  cbn [array_elements]. unfold mret, M_ret. cbv beta iota.
  rewrite forEach_any.
  unfold appended. cbn. by rewrite <- app_assoc.
Qed.

Lemma row_of_json_task (q : jsstring) (t : Task) :
  row_of_json q (task_json t) = row_of q t.
Proof.
  unfold row_of_json, row_of.
  change (member (task_json t) k_text) with (Some (JStr (text t))).
  change (member (task_json t) k_id) with (Some (JNum (NInt (id t)))).
  change (member (task_json t) k_completed) with (Some (JBool (completed t))).
  cbn [ToBoolean ToString json_to_string default].
  by destruct (includes (toLowerCase (text t)) q), (completed t).
Qed.

Lemma drawable_prefix_tasks (C : list Task) (rest : list json) :
  drawable_prefix (map task_json C ++ rest) = map task_json C ++ drawable_prefix rest.
Proof. induction C as [|t C IH]; [done|]. cbn. by rewrite IH. Qed.

Lemma forallb_tasks (C : list Task) :
  forallb drawable_task (map task_json C) = true.
Proof. by induction C. Qed.

Lemma drawable_task_text (task : json) :
  has_string_text task = false -> drawable_task task = false.
Proof. unfold drawable_task. intros ->. apply andb_false_r. Qed.

Lemma drawable_tasks_text (elems : list json) :
  forallb has_string_text elems = false ->
  forallb drawable_task elems = false.
Proof.
  induction elems as [|x elems IH]; [done|]. cbn [forallb].
  rewrite !andb_false_iff. intros [Hx|Hrest].
  - left. by apply drawable_task_text.
  - right. by apply IH.
Qed.

Lemma drawable_renderable (v : json) :
  renderable v = false -> drawable v = false.
Proof.
  destruct v as [|b|n|s|elems|props]; try done. apply drawable_tasks_text.
Qed.

Lemma renderTasks_state (st : state) :
  exists rows, (renderTasks st).2 = drawn rows st.
Proof.
  rewrite renderTasks_any.
  destruct (todos st); cbn [snd]; eauto.
Qed.

(** X1: in any state and whether it throws or not, [renderTasks] leaves the
    collection, the storage and both input fields as they were; the calls it
    makes are one emptying of the list and then one [appendChild] for each
    row of the list it leaves. *)
Theorem renderTasks_is_display_only (st : state) :
  todos (renderTasks st).2 = todos st
  /\ localStorage (renderTasks st).2 = localStorage st
  /\ taskInput_value (renderTasks st).2 = taskInput_value st
  /\ searchInput_value (renderTasks st).2 = searchInput_value st
  /\ calls (renderTasks st).2 =
       calls st ++ ClearTaskList :: map AppendChild (taskList (renderTasks st).2).
Proof.
  destruct (renderTasks_state st) as [rows ->]. done.
Qed.

Lemma renderTasks_outcome (st : state) :
  (renderTasks st).1 =
    if drawable (todos st) then Ret tt else Throw TypeError.
Proof.
  rewrite renderTasks_any. unfold drawable.
  by destruct (todos st).
Qed.

(** X2: [renderTasks] returns normally exactly when [todos] is an array
    whose every element is an object with a string [text] and with an [id]
    that has a conversion to a string; on any other value it throws
    [TypeError].  The ids without a conversion are the objects with an own
    [toString] property and the arrays that hold one.  When [renderTasks]
    returns, the list has one row per element. *)
Theorem renderTasks_returns_iff_drawable (st : state) :
  (renderTasks st).1 =
    (if drawable (todos st) then Ret tt else Throw TypeError)
  /\ (forall elems,
        todos st = JArr elems -> forallb drawable_task elems = true ->
        length (taskList (renderTasks st).2) = length elems)
  /\ (forall props,
        Obj.get (str "toString") props = None <->
        ToString (Some (JObj props)) = Some (str "[object Object]"))
  /\ (forall props v,
        Obj.get (str "toString") props = Some v ->
        ToString (Some (JObj props)) = None
        /\ ToString (Some (JArr [JObj props])) = None).
Proof.
  split; [apply renderTasks_outcome|]. split; [|split].
  - intros elems Htodos Hgood. rewrite renderTasks_any, Htodos, Hgood.
    cbn [snd drawn taskList]. rewrite length_map. f_equal.
    clear Htodos. induction elems as [|x elems IH]; [done|].
    cbn [forallb drawable_prefix] in *.
    apply andb_true_iff in Hgood as [-> Hgood]. f_equal. by apply IH.
  - intros props. cbn [ToString json_to_string].
    by destruct (Obj.get (str "toString") props).
  - intros props v Hown. cbn [ToString json_to_string mapM].
    rewrite Hown. done.
Qed.

Lemma rows_of_json_tasks (q : jsstring) (C : list Task) :
  map (row_of_json q) (map task_json C) = map (row_of q) C.
Proof.
  induction C as [|t C IH]; [done|]. cbn [map].
  by rewrite row_of_json_task, IH.
Qed.

(** X3: when the array holds tasks and then an element that is no object
    with a string [text], [renderTasks] throws [TypeError] with the rows of
    the tasks before that element in the list, and no row for what
    follows. *)
Theorem renderTasks_stops_at_bad_element (C : list Task) (bad : json)
    (rest : list json) (st : state) :
  todos st = JArr (map task_json C ++ bad :: rest) ->
  has_string_text bad = false ->
  exists st',
    renderTasks st = (Throw TypeError, st')
    /\ taskList st' = rows_of C st
    /\ todos st' = todos st
    /\ localStorage st' = localStorage st.
Proof.
  intros Htodos Hbad%drawable_task_text. eexists.
  rewrite renderTasks_any, Htodos.
  rewrite forallb_app, forallb_tasks. cbn [forallb andb]. rewrite Hbad.
  cbn [andb]. split; [reflexivity|].
  rewrite drawable_prefix_tasks. cbn [drawable_prefix]. rewrite Hbad.
  rewrite app_nil_r, rows_of_json_tasks. unfold drawn. cbn. by rewrite Htodos.
Qed.

(** X4: the outcome of [renderTasks] and the list it leaves depend on the
    collection and on the search field only: whatever the list held before
    is replaced. *)
Theorem renderTasks_replaces_the_list (st1 st2 : state) :
  todos st1 = todos st2 ->
  searchInput_value st1 = searchInput_value st2 ->
  (renderTasks st1).1 = (renderTasks st2).1
  /\ taskList (renderTasks st1).2 = taskList (renderTasks st2).2.
Proof.
  intros Htodos Hquery. rewrite !renderTasks_any, Htodos, Hquery.
  by destruct (todos st2).
Qed.
End Rendering.

(** ** White space around the text of a task *)

Lemma trim_start_split (s : jsstring) :
  exists pre, s = pre ++ trim_start s /\ white_space pre = true.
Proof.
  induction s as [|c s (pre & Hs & Hpre)]; [by exists []|].
  cbn [trim_start]. destruct (Char.is_trim_space c) eqn:Hc.
  - exists (c :: pre). split; [by rewrite Hs at 1|].
    unfold white_space in *. cbn [forallb]. by rewrite Hc, Hpre.
  - by exists [].
Qed.

Lemma trim_start_head (s : jsstring) (c : N) (r : jsstring) :
  trim_start s = c :: r -> Char.is_trim_space c = false.
Proof.
  induction s as [|d s IH]; [done|]. cbn [trim_start].
  destruct (Char.is_trim_space d) eqn:Hd; [done|]. by intros [= <- _].
Qed.

Lemma white_space_rev (s : jsstring) :
  white_space s = true -> white_space (rev s) = true.
Proof.
  unfold white_space. rewrite !forallb_forall. intros Hs c Hc.
  apply Hs. by apply in_rev.
Qed.

(** [trim] drops white space at both ends and nothing else. *)
Lemma trim_split (s : jsstring) :
  exists pre post,
    s = pre ++ trim s ++ post
    /\ white_space pre = true /\ white_space post = true.
Proof.
  destruct (trim_start_split s) as (pre & Hs & Hpre).
  destruct (trim_start_split (rev (trim_start s))) as (post & Hr & Hpost).
  exists pre, (rev post). split; [|split; [done | by apply white_space_rev]].
  unfold trim. rewrite <- rev_app_distr, <- Hr, rev_involutive. done.
Qed.

Lemma trim_first (s : jsstring) (c : N) (r : jsstring) :
  trim s = c :: r -> Char.is_trim_space c = false.
Proof.
  intros Htrim. destruct (trim_start_split (rev (trim_start s)))
    as (post & Hr & _).
  apply (f_equal (@rev N)) in Hr. rewrite rev_involutive, rev_app_distr in Hr.
  fold (trim s) in Hr. rewrite Htrim in Hr.
  by apply (trim_start_head s c (r ++ rev post)).
Qed.

Lemma trim_last (s : jsstring) (r : jsstring) (c : N) :
  trim s = r ++ [c] -> Char.is_trim_space c = false.
Proof.
  unfold trim. intros Htrim. apply (f_equal (@rev N)) in Htrim.
  rewrite rev_involutive, rev_app_distr in Htrim. cbn in Htrim.
  by apply trim_start_head in Htrim.
Qed.

(** ** The task store on collections *)

Section Store.
Context `{Platform}.

Lemma persisted_slot (C : list Task) (st : state) :
  js_ids C ->
  localStorage st !! STORAGE_KEY = Some (JSON.stringify (collection_json C)) ->
  persisted C st.
Proof.
  intros Hids Hslot.
  exists (with_todos (collection_json C) (fresh_page (localStorage st))).
  split; [|done]. by apply loadTasks_collection.
Qed.

Lemma js_integers_sublist (l1 l2 : list Z) :
  l1 `sublist_of` l2 -> js_integers l2 -> js_integers l1.
Proof.
  unfold js_integers. induction 1 as [|x l1 l2 _ IH|x l1 l2 _ IH].
  - done.
  - intros [Hx Hl]%Forall_cons. constructor; [done|by apply IH].
  - intros [_ Hl]%Forall_cons. by apply IH.
Qed.

Lemma toggled_ids (C : list Task) (i : nat) (t : Task) :
  C !! i = Some t -> map id (<[i := toggled t]> C) = map id C.
Proof.
  revert i. induction C as [|x C IH]; intros [|i] Hi; try done.
  - injection Hi as ->. done.
  - cbn [map]. cbn in Hi. by rewrite <- (IH i Hi).
Qed.

Lemma filter_ids_sublist (f : Task -> bool) (C : list Task) :
  map id (List.filter f C) `sublist_of` map id C.
Proof.
  induction C as [|x C IH]; [done|]. cbn [List.filter].
  destruct (f x); cbn [map]; by constructor.
Qed.

Lemma committed_slot (C : list Task) (st : state) :
  localStorage (committed C st) !! STORAGE_KEY
  = Some (JSON.stringify (collection_json C)).
Proof.
  unfold committed, rendered, saved. cbn [localStorage with_todos todos].
  apply lookup_insert_eq.
Qed.

Lemma committed_rows (C : list Task) (st : state) :
  taskList (committed C st) = rows_of C (committed C st).
Proof. reflexivity. Qed.

(** X5: the text of an added task is the content of the task field without
    the white space at its two ends: what [addTask] drops before and after
    it is white space only, and the text neither starts nor ends with a
    white space code unit. *)
Theorem addTask_stores_trimmed_text (now : Z) (C : list Task) (st : state) :
  todos st = collection_json C ->
  trim (taskInput_value st) <> [] ->
  exists st' t,
    addTask now st = (Ret tt, st')
    /\ todos st' = collection_json (C ++ [t])
    /\ (exists pre post,
          taskInput_value st = pre ++ text t ++ post
          /\ white_space pre = true /\ white_space post = true)
    /\ (forall c r, text t = c :: r -> Char.is_trim_space c = false)
    /\ (forall r c, text t = r ++ [c] -> Char.is_trim_space c = false).
Proof.
  intros Htodos Htext.
  eexists _, {| id := now; text := trim (taskInput_value st);
                completed := false |}.
  split; [by apply addTask_run|]. split; [done|]. cbn [text].
  split; [apply trim_split|]. split.
  - intros c r. apply trim_first.
  - intros r c. apply trim_last.
Qed.

(** X6: a successful [addTask] leaves the task field empty and the search
    field as it was; it first writes the new collection to the slot and then
    redraws the list, whose last row shows the new text. *)
Theorem addTask_clears_input_and_redraws (now : Z) (C : list Task)
    (st : state) :
  todos st = collection_json C ->
  trim (taskInput_value st) <> [] ->
  exists st' C',
    addTask now st = (Ret tt, st')
    /\ todos st' = collection_json C'
    /\ taskInput_value st' = []
    /\ searchInput_value st' = searchInput_value st
    /\ calls st' =
         calls st ++ SetItem STORAGE_KEY (JSON.stringify (collection_json C'))
                :: ClearTaskList :: map AppendChild (taskList st')
    /\ length (taskList st') = S (length C)
    /\ exists li span,
         last (taskList st') = Some li
         /\ childNodes li !! 0%nat = Some span
         /\ textContent span = trim (taskInput_value st).
Proof.
  intros Htodos Htext. eexists _, _. split; [by apply addTask_run|].
  split; [reflexivity|]. split; [reflexivity|]. split; [reflexivity|].
  split.
  { unfold with_empty_input, committed, rendered, saved.
    cbn [calls taskList with_todos todos]. by rewrite <- app_assoc. }
  split.
  { unfold with_empty_input, committed, rendered, rows_of. cbn [taskList].
    rewrite length_map, length_app. cbn. lia. }
  unfold with_empty_input, committed, rendered, rows_of. cbn [taskList].
  rewrite map_app. cbn [map]. rewrite last_snoc. eexists _, _.
  split; [reflexivity|]. split; reflexivity.
Qed.

(** X7: when [todos] is not an array (a page loaded from a slot that holds
    another JSON value), [addTask] with a non-blank input,
    [toggleTaskCompletion] and [removeTask] throw [TypeError] and leave the
    whole state, storage and input field included, as it was. *)
Theorem mutations_on_non_array_throw (now : Z) (n : number) (st : state) :
  (forall elems, todos st <> JArr elems) ->
  (trim (taskInput_value st) <> [] -> addTask now st = (Throw TypeError, st))
  /\ toggleTaskCompletion n st = (Throw TypeError, st)
  /\ removeTask n st = (Throw TypeError, st).
Proof.
  intros Hnot.
  assert (Helems : array_elements (todos st) st = (Throw TypeError, st)).
  { destruct (todos st) as [| | | |elems|]; try reflexivity.
    by destruct (Hnot elems). }
  split; [|split].
  - intros Htext. unfold addTask, mbind, M_bind. cbn [get_state].
    destruct (trim (taskInput_value st)); [done|]. by rewrite Helems.
  - unfold toggleTaskCompletion, mbind, M_bind. cbn [get_state].
    by rewrite Helems.
  - unfold removeTask, mbind, M_bind. cbn [get_state]. by rewrite Helems.
Qed.

(** X8: whenever an operation returns with a collection other than the one
    it started from, the slot holds the text of the new collection and the
    list shows its rows; a reload of the page would load the new collection
    when the ids and the reading of the clock are Number values, as they are
    in a page. *)
Theorem change_is_written_through_and_redrawn (op : operation)
    (C : list Task) (st st' : state) :
  todos st = collection_json C ->
  run op st = (Ret tt, st') ->
  todos st' <> todos st ->
  exists C',
    todos st' = collection_json C'
    /\ localStorage st' !! STORAGE_KEY = Some (JSON.stringify (todos st'))
    /\ (js_integers (map id C ++ operation_clock op) -> persisted C' st')
    /\ taskList st' = rows_of C' st'.
Proof.
  intros Htodos Hrun Hchange.
  assert (Hcommitted : forall (P : Prop) C1 st1,
             (P -> js_ids C1) ->
             todos st1 = collection_json C1 ->
             localStorage st1 = localStorage (committed C1 st) ->
             taskList st1 = taskList (committed C1 st) ->
             searchInput_value st1 = searchInput_value st ->
             exists C', todos st1 = collection_json C'
               /\ localStorage st1 !! STORAGE_KEY
                  = Some (JSON.stringify (todos st1))
               /\ (P -> persisted C' st1) /\ taskList st1 = rows_of C' st1).
  { intros P C1 st1 Hids H1 Hstore Hlist Hquery. exists C1.
    assert (Hslot : localStorage st1 !! STORAGE_KEY
                    = Some (JSON.stringify (collection_json C1)))
      by (rewrite Hstore; apply committed_slot).
    split; [done|]. split; [by rewrite H1|].
    split; [intros HP; by apply persisted_slot; [apply Hids|]|].
    rewrite Hlist. unfold rows_of, committed, rendered, rows_of.
    cbn [taskList searchInput_value saved with_todos]. by rewrite Hquery. }
  destruct op as [now|n|n|]; cbn [run operation_clock] in Hrun |- *.
  - destruct (trim (taskInput_value st)) as [|c r] eqn:Htrim.
    + rewrite addTask_empty_run in Hrun by done.
      injection Hrun as <-. by destruct Hchange.
    + rewrite (addTask_run now C) in Hrun by by rewrite ?Htrim.
      injection Hrun as <-. eapply Hcommitted; [|done..].
      intros Hjs. unfold js_ids. by rewrite map_app.
  - rewrite app_nil_r.
    rewrite (toggleTaskCompletion_run n C) in Hrun by done.
    destruct (list_find _ C) as [[i t]|] eqn:Hfind.
    + injection Hrun as <-. eapply Hcommitted; [|done..].
      apply list_find_Some in Hfind as (Hi & _ & _).
      intros Hjs. unfold js_ids. by rewrite toggled_ids.
    + injection Hrun as <-. by destruct Hchange.
  - rewrite app_nil_r. rewrite (removeTask_run n C) in Hrun by done.
    injection Hrun as <-. eapply Hcommitted; [|done..].
    intros Hjs. by eapply js_integers_sublist; [apply filter_ids_sublist|].
  - rewrite (renderTasks_collection C) in Hrun by done.
    injection Hrun as <-. by destruct Hchange.
Qed.
End Store.

(** ** How the operations combine *)

Section Combining.
Context `{Platform}.

Lemma filter_other_ids (now : Z) (C : list Task) :
  now ∉ map id C ->
  List.filter (fun t => negb (has_id (NInt now) t)) C = C.
Proof.
  intros Hfresh. apply filter_absent. intros t Ht.
  destruct (has_id (NInt now) t) eqn:Hhas; [|done].
  apply has_id_true in Hhas. injection Hhas as ->. destruct Hfresh.
  rewrite map_fmap. by apply list_elem_of_fmap_2.
Qed.

(** X9: an add followed by the removal of the id it gave brings the
    collection back, provided no older task has that id. *)
Theorem add_then_remove_restores (now : Z) (C : list Task) (st : state) :
  todos st = collection_json C ->
  trim (taskInput_value st) <> [] ->
  now ∉ map id C ->
  exists st1 st2,
    addTask now st = (Ret tt, st1)
    /\ removeTask (NInt now) st1 = (Ret tt, st2)
    /\ todos st2 = collection_json C.
Proof.
  intros Htodos Htext Hfresh. eexists _, _.
  split; [by apply addTask_run|].
  split; [by apply removeTask_run|].
  rewrite committed_todos, List.filter_app, filter_other_ids by done.
  cbn [List.filter]. unfold has_id at 1, number_eqb. cbn [id Num.eqb].
  by rewrite Z.eqb_refl, app_nil_r.
Qed.

(** X10: [toggleTaskCompletion] flips the first task that has the id and no
    other one, also when later tasks have the same id. *)
Theorem toggle_flips_first_match (n : number) (before after : list Task)
    (t : Task) (st : state) :
  todos st = collection_json (before ++ t :: after) ->
  (forall x, x ∈ before -> has_id n x = false) ->
  has_id n t = true ->
  exists st',
    toggleTaskCompletion n st = (Ret tt, st')
    /\ todos st' = collection_json (before ++ toggled t :: after).
Proof.
  intros Htodos Hbefore Ht.
  rewrite (toggleTaskCompletion_run n (before ++ t :: after)) by done.
  assert (Hfind : list_find (fun t' => has_id n t' = true) (before ++ t :: after)
                  = Some (length before, t)).
  { apply list_find_Some. split; [by apply list_lookup_middle|].
    split; [done|]. intros j y Hj Hlt Hy.
    rewrite lookup_app_l in Hj by done.
    apply list_elem_of_lookup_2 in Hj. by rewrite (Hbefore y Hj) in Hy. }
  rewrite Hfind. eexists. split; [reflexivity|].
  rewrite committed_todos. f_equal.
  replace (length before) with (length before + 0)%nat by lia.
  by rewrite insert_app_r.
Qed.

Lemma filter_elem_of (n : number) (C : list Task) (t : Task) :
  t ∈ List.filter (fun t' => negb (has_id n t')) C
  <-> t ∈ C /\ has_id n t = false.
Proof.
  rewrite !list_elem_of_In, filter_In, negb_true_iff. done.
Qed.

Lemma filter_sublist {A : Type} (f : A -> bool) (l : list A) :
  sublist (List.filter f l) l.
Proof.
  induction l as [|x l IH]; [constructor|]. cbn [List.filter].
  destruct (f x); by constructor.
Qed.

Lemma filter_length_split {A : Type} (f : A -> bool) (l : list A) :
  (length (List.filter (fun x => negb (f x)) l) + length (List.filter f l)
   = length l)%nat.
Proof.
  induction l as [|x l IH]; [done|]. cbn [List.filter].
  destruct (f x); cbn [negb length]; lia.
Qed.

(** X11: [removeTask] removes every task that has the id, also when several
    have it: the collection left holds exactly the tasks with another id, in
    their order, and is shorter by the number of tasks that had the id. *)
Theorem removeTask_removes_all_matching (n : number) (C : list Task)
    (st : state) :
  todos st = collection_json C ->
  exists st' C',
    removeTask n st = (Ret tt, st')
    /\ todos st' = collection_json C'
    /\ (forall t, t ∈ C' <-> t ∈ C /\ has_id n t = false)
    /\ sublist C' C
    /\ (length C' + length (List.filter (has_id n) C) = length C)%nat.
Proof.
  intros Htodos. eexists _, _. split; [by apply removeTask_run|].
  split; [apply committed_todos|].
  split; [intros t; apply filter_elem_of|].
  split; [apply filter_sublist | apply filter_length_split].
Qed.

Lemma filter_filter_same {A : Type} (f : A -> bool) (l : list A) :
  List.filter f (List.filter f l) = List.filter f l.
Proof.
  induction l as [|x l IH]; [done|]. cbn [List.filter].
  destruct (f x) eqn:Hx; [|done]. cbn [List.filter]. by rewrite Hx, IH.
Qed.

Lemma filter_filter_comm {A : Type} (f g : A -> bool) (l : list A) :
  List.filter f (List.filter g l) = List.filter g (List.filter f l).
Proof.
  induction l as [|x l IH]; [done|]. cbn [List.filter].
  destruct (f x) eqn:Hf, (g x) eqn:Hg; cbn [List.filter];
    rewrite ?Hf, ?Hg, ?IH; done.
Qed.

(** X12: removing an id a second time changes nothing in the collection,
    and two removals leave the same collection in either order. *)
Theorem removeTask_twice_and_in_either_order (n m : number) (C : list Task)
    (st : state) :
  todos st = collection_json C ->
  exists st1 st2 st3 st4 st5,
    removeTask n st = (Ret tt, st1)
    /\ removeTask n st1 = (Ret tt, st2)
    /\ todos st2 = todos st1
    /\ removeTask m st1 = (Ret tt, st3)
    /\ removeTask m st = (Ret tt, st4)
    /\ removeTask n st4 = (Ret tt, st5)
    /\ todos st5 = todos st3.
Proof.
  intros Htodos. eexists _, _, _, _, _.
  split; [by apply removeTask_run|].
  split; [by apply removeTask_run|].
  split; [by rewrite !committed_todos, filter_filter_same|].
  split; [by apply removeTask_run|].
  split; [by apply removeTask_run|].
  split; [by apply removeTask_run|].
  by rewrite !committed_todos, filter_filter_comm.
Qed.

(** Two finite Number values that print alike are one value. *)
Lemma print_inj (x y : number) :
  Num.finite_double x = true -> Num.finite_double y = true ->
  Num.print x = Num.print y -> x = y.
Proof.
  intros [Hfx Hdx]%JSONFacts.finite_double_spec
    [Hfy Hdy]%JSONFacts.finite_double_spec Heq.
  pose proof (JSONFacts.parse_number_print x [] Hdx Hfx eq_refl) as Hx.
  pose proof (JSONFacts.parse_number_print y [] Hdy Hfy eq_refl) as Hy.
  rewrite Heq, Hy in Hx. by injection Hx.
Qed.

(** X13: the [dataset.id] of a row is the text that JS prints for the id of
    its task, and the rows of a collection with unique ids carry pairwise
    different texts, so the text names the task of its row.  The ids are
    Number values, as they are in a page. *)
Theorem rows_have_distinct_dataset_ids (C : list Task) (st : state) :
  todos st = collection_json C ->
  unique_ids C ->
  js_ids C ->
  exists st',
    renderTasks st = (Ret tt, st')
    /\ NoDup (map dataset_id (taskList st'))
    /\ forall i t, C !! i = Some t ->
         dataset_id <$> taskList st' !! i = Some (Num.print (NInt (id t))).
Proof.
  intros Htodos Huniq Hjs. eexists. split; [by apply renderTasks_collection|].
  unfold rendered, rows_of. cbn [taskList]. split.
  - rewrite map_map. cbn [row_of dataset_id].
    rewrite <- (map_map id (fun z => Num.print (NInt z))), !map_fmap.
    apply NoDup_fmap_2_strong; [|done].
    intros x y Hx Hy Heq. unfold js_ids, js_integers in Hjs.
    rewrite Forall_forall in Hjs. rewrite map_fmap in Hjs.
    assert (Hinj : NInt x = NInt y)
      by (apply print_inj; [apply JSONFacts.finite_double_spec; auto..|done]).
    by injection Hinj.
  - intros i t Hi. by rewrite map_fmap, list_lookup_fmap, Hi.
Qed.

Lemma Substring_trans (a b c : jsstring) :
  Substring a b -> Substring b c -> Substring a c.
Proof.
  intros (p1 & q1 & ->) (p2 & q2 & ->).
  exists (p2 ++ p1), (q1 ++ q2). by rewrite <- !app_assoc.
Qed.

(** X14: a query that contains the other one (after lowercasing) hides
    every row the other one hides: refining the search never brings a row
    back. *)
Theorem narrower_search_hides_more (C : list Task) (st1 st2 : state) :
  todos st1 = collection_json C ->
  todos st2 = collection_json C ->
  Substring (toLowerCase (searchInput_value st1))
            (toLowerCase (searchInput_value st2)) ->
  forall i li1 li2,
    taskList (renderTasks st1).2 !! i = Some li1 ->
    taskList (renderTasks st2).2 !! i = Some li2 ->
    is_hidden li1 = true -> is_hidden li2 = true.
Proof.
  intros H1 H2 Hsub i li1 li2.
  rewrite (renderTasks_collection C st1), (renderTasks_collection C st2)
    by done.
  unfold rendered, rows_of. cbn [snd taskList].
  rewrite !map_fmap, !list_lookup_fmap.
  destruct (C !! i) as [t|]; [|done]. cbn. intros [= <-] [= <-].
  rewrite !(proj1 (row_of_markers _ t)), !negb_true_iff.
  intros Hhidden. destruct (includes _ (toLowerCase (searchInput_value st2)))
    eqn:Hincl; [|done].
  apply includes_spec in Hincl.
  pose proof (Substring_trans _ _ _ Hsub Hincl) as Hsub1.
  apply includes_spec in Hsub1. congruence.
Qed.
End Combining.

(** ** The operations in any state *)

Section AnyState.
Context `{Platform}.

Lemma id_test_keeps_state (n : number) (negate : bool) (task : json)
    (st : state) :
  ((task_id ← get_member task k_id;
    mret (xorb negate (strict_equals_number task_id n))) st).2 = st.
Proof. by destruct task. Qed.

Lemma findIndex_keeps_state (p : json -> M bool) (elems : list json)
    (st : state) :
  (forall x st0, (p x st0).2 = st0) -> (findIndex elems p st).2 = st.
Proof.
  intros Hp. induction elems as [|x elems IH]; [done|].
  cbn [findIndex]. unfold mbind, M_bind in *.
  pose proof (Hp x st) as Hx. destruct (p x st) as [[[]|e] st0];
    cbn [snd] in Hx; subst st0; [done| |done].
  by destruct (findIndex elems p st) as [[o|e] st1].
Qed.

Lemma filter_array_keeps_state (p : json -> M bool) (elems : list json)
    (st : state) :
  (forall x st0, (p x st0).2 = st0) -> (filter_array elems p st).2 = st.
Proof.
  intros Hp. induction elems as [|x elems IH]; [done|].
  cbn [filter_array]. unfold mbind, M_bind in *.
  pose proof (Hp x st) as Hx. destruct (p x st) as [[b|e] st0];
    cbn [snd] in Hx; subst st0; [|done].
  by destruct (filter_array elems p st) as [[o|e] st1].
Qed.

Lemma id_test_exn (n : number) (negate : bool) (task : json)
    (st st' : state) (e : exn) :
  (task_id ← get_member task k_id;
   mret (xorb negate (strict_equals_number task_id n))) st = (Throw e, st') ->
  e = TypeError.
Proof. destruct task; try done. by intros [= <- _]. Qed.

Lemma filter_array_exn (p : json -> M bool) (elems : list json)
    (st st' : state) (e : exn) :
  (forall x st0 st1 e0, p x st0 = (Throw e0, st1) -> e0 = TypeError) ->
  filter_array elems p st = (Throw e, st') -> e = TypeError.
Proof.
  intros Hp. revert st. induction elems as [|x elems IH]; intros st; [done|].
  cbn [filter_array]. unfold mbind, M_bind, mret, M_ret.
  destruct (p x st) as [[b|e0] st0] eqn:Hx.
  - destruct (filter_array elems p st0) as [[kept|e1] st1] eqn:Hrec; [done|].
    intros [= <- <-]. by eapply IH.
  - intros [= <- _]. by eapply Hp.
Qed.

(** What [addTask] does in any state. *)
Lemma addTask_any (now : Z) (st : state) :
  addTask now st =
    match trim (taskInput_value st) with
    | [] => alert empty_task_message st
    | c :: r =>
        match todos st with
        | JArr elems =>
            let newTask :=
              JObj [(k_id, JNum (NInt now)); (k_text, JStr (c :: r));
                    (k_completed, JBool false)] in
            match renderTasks
                    (saved (with_todos (JArr (elems ++ [newTask])) st)) with
            | (Ret _, st1) => (Ret tt, with_empty_input st1)
            | (Throw e, st1) => (Throw e, st1)
            end
        | _ => (Throw TypeError, st)
        end
    end.
Proof.
  unfold addTask, mbind, M_bind. cbn [get_state].
  destruct (trim (taskInput_value st)) as [|c r]; [done|].
  by destruct (todos st).
Qed.

Lemma findIndex_exn (p : json -> M bool) (elems : list json)
    (st st' : state) (e : exn) :
  (forall x st0 st1 e0, p x st0 = (Throw e0, st1) -> e0 = TypeError) ->
  findIndex elems p st = (Throw e, st') -> e = TypeError.
Proof.
  intros Hp. revert st. induction elems as [|x elems IH]; intros st; [done|].
  cbn [findIndex]. unfold mbind, M_bind, mret, M_ret.
  destruct (p x st) as [[[]|e0] st0] eqn:Hx; [done| |].
  - destruct (findIndex elems p st0) as [[i|e1] st1] eqn:Hrec; [done|].
    intros [= <- <-]. by eapply IH.
  - intros [= <- _]. by eapply Hp.
Qed.

(** What [toggleTaskCompletion] does in any state. *)
Lemma toggleTaskCompletion_any (n : number) (st : state) :
  toggleTaskCompletion n st = (Ret tt, st)
  \/ toggleTaskCompletion n st = (Throw TypeError, st)
  \/ (exists v, toggleTaskCompletion n st
                = renderTasks (saved (with_todos v st))).
Proof.
  unfold toggleTaskCompletion, mbind, M_bind. cbn [get_state].
  destruct (todos st) as [| | | |elems|]; try by right; left.
  cbn [array_elements]. unfold mret, M_ret. cbv beta iota.
  match goal with
  | |- context [findIndex elems ?p st] =>
      pose proof (findIndex_keeps_state p elems st
                    (id_test_keeps_state n false)) as Hst;
      destruct (findIndex elems p st) as [[[i|]|e] st1] eqn:Hfind
  end; cbn [snd] in Hst; subst st1.
  - right; right. by exists (JArr (flip_completed elems i)).
  - by left.
  - right; left.
    by rewrite (findIndex_exn _ _ _ _ _ (id_test_exn n false) Hfind).
Qed.

(** What [removeTask] does in any state. *)
Lemma removeTask_any (n : number) (st : state) :
  removeTask n st = (Throw TypeError, st)
  \/ (exists v, removeTask n st = renderTasks (saved (with_todos v st))).
Proof.
  unfold removeTask, mbind, M_bind. cbn [get_state].
  destruct (todos st) as [| | | |elems|]; try by left.
  cbn [array_elements]. unfold mret, M_ret. cbv beta iota.
  match goal with
  | |- context [filter_array elems ?p st] =>
      pose proof (filter_array_keeps_state p elems st
                    (id_test_keeps_state n true)) as Hst;
      destruct (filter_array elems p st) as [[kept|e] st1] eqn:Hfilter
  end; cbn [snd] in Hst; subst st1.
  - right. by exists (JArr kept).
  - left. by rewrite (filter_array_exn _ _ _ _ _ (id_test_exn n true) Hfilter).
Qed.

(** An operation leaves the state it found, or the state after the alert,
    or what [renderTasks] leaves after a write of some value, with or
    without the task field emptied. *)
Lemma run_shape (op : operation) (st : state) :
  (run op st).2 = st
  \/ (run op st).2 = (alert empty_task_message st).2
  \/ (run op st).2 = (renderTasks st).2
  \/ exists v,
       (run op st).2 = (renderTasks (saved (with_todos v st))).2
       \/ (run op st).2
          = with_empty_input (renderTasks (saved (with_todos v st))).2.
Proof.
  destruct op as [now|n|n|]; cbn [run].
  - rewrite addTask_any.
    destruct (trim (taskInput_value st)) as [|c r]; [by right; left|].
    destruct (todos st) as [| | | |elems|]; try by left.
    right; right; right. cbv zeta.
    match goal with
    | |- context [renderTasks (saved (with_todos ?v st))] => exists v
    end.
    destruct (renderTasks _) as [[[]|e] st1]; [right | left]; reflexivity.
  - destruct (toggleTaskCompletion_any n st) as [-> | [-> | [v ->]]];
      [by left | by left | right; right; right; exists v; by left].
  - destruct (removeTask_any n st) as [-> | [v ->]];
      [by left | right; right; right; exists v; by left].
  - by right; right; left.
Qed.

(** X15: in any state, whatever [todos] holds and whether it throws or not,
    no operation changes a key of the storage other than the slot of the
    script, nor the search field. *)
Theorem operations_touch_only_their_slot (op : operation) (st : state)
    (key : jsstring) :
  key <> STORAGE_KEY ->
  localStorage (run op st).2 !! key = localStorage st !! key
  /\ searchInput_value (run op st).2 = searchInput_value st.
Proof.
  intros Hkey.
  assert (Hrender : forall s,
             localStorage (renderTasks s).2 = localStorage s
             /\ searchInput_value (renderTasks s).2 = searchInput_value s).
  { intros s. destruct (renderTasks_state s) as [rows ->]. done. }
  destruct (run_shape op st) as [-> | [-> | [-> | [v [-> | ->]]]]];
    [done | done | by destruct (Hrender st) as [-> ->] | |].
  - destruct (Hrender (saved (with_todos v st))) as [-> ->].
    unfold saved. cbn. by rewrite lookup_insert_ne.
  - cbn [localStorage searchInput_value with_empty_input].
    destruct (Hrender (saved (with_todos v st))) as [-> ->].
    unfold saved. cbn. by rewrite lookup_insert_ne.
Qed.

End AnyState.

(** ** The page and its events *)

Section Page.
Context `{Platform}.

Lemma persisted_storage (C : list Task) (st1 st2 : state) :
  localStorage st1 = localStorage st2 -> persisted C st2 -> persisted C st1.
Proof. unfold persisted. by intros ->. Qed.

(** A page whose storage holds a collection loads it. *)
Lemma loadTasks_persisted (C : list Task) (st : state) :
  persisted C st ->
  loadTasks st = (Ret tt, with_todos (collection_json C) st).
Proof.
  intros (st' & Hload & Htodos). rewrite loadTasks_run in Hload |- *.
  cbn [localStorage fresh_page] in Hload.
  destruct (localStorage st !! STORAGE_KEY) as [[|c text]|].
  - injection Hload as <-. cbn in Htodos. by rewrite <- Htodos.
  - destruct (JSON.parse (c :: text)) as [v|]; [|done].
    injection Hload as <-. cbn in Htodos. by rewrite Htodos.
  - injection Hload as <-. cbn in Htodos. by rewrite <- Htodos.
Qed.

(** The ids of a collection that the storage holds are Number values. *)
Lemma persisted_js_ids (C : list Task) (st : state) :
  persisted C st -> js_ids C.
Proof.
  intros (st' & Hload & Htodos). apply JSONFacts.collection_doubles.
  rewrite <- Htodos. rewrite loadTasks_run in Hload.
  destruct (localStorage _ !! STORAGE_KEY) as [[|c text]|].
  - by injection Hload as <-.
  - destruct (JSON.parse (c :: text)) as [v|] eqn:Hv; [|done].
    injection Hload as <-. by apply JSONFacts.parse_doubles in Hv.
  - by injection Hload as <-.
Qed.

Lemma healthy_intro (C : list Task) (pg : page) (st : state) :
  listeners pg = standard_listeners ->
  todos st = collection_json C ->
  taskList st = rows_of C st ->
  persisted C st ->
  healthy C {| script := st; listeners := listeners pg |}.
Proof. done. Qed.

Lemma init_persisted (C : list Task) (pg : page) :
  persisted C (script pg) ->
  init pg =
    (Ret tt,
     setupEventListeners
       {| script := rendered C (with_todos (collection_json C) (script pg));
          listeners := listeners pg |}).
Proof.
  intros Hstored. unfold init, mbind, M_bind.
  rewrite (loadTasks_persisted C) by done.
  by rewrite (renderTasks_collection C).
Qed.

(** X18: on a page without listeners whose storage holds a saved
    collection, or nothing, [init] returns normally with the collection
    loaded and drawn and exactly the three listeners registered. *)
Theorem init_starts_the_page (C : list Task) (pg : page) :
  persisted C (script pg) ->
  listeners pg = [] ->
  exists pg',
    init pg = (Ret tt, pg')
    /\ healthy C pg'
    /\ localStorage (script pg') = localStorage (script pg).
Proof.
  intros Hstored Hnone. eexists. split; [by apply init_persisted|].
  split; [|done]. unfold setupEventListeners, addEventListener.
  cbn [script listeners]. rewrite Hnone. repeat split.
  by apply (persisted_storage C _ (script pg)).
Qed.

(** X19: when the slot holds non-empty text that is not JSON, [init] throws
    [SyntaxError] and leaves the page exactly as it found it: nothing is
    drawn and no listener is registered. *)
Theorem init_on_corrupt_slot (text : jsstring) (pg : page) :
  localStorage (script pg) !! STORAGE_KEY = Some text ->
  text <> [] ->
  JSON.parse text = None ->
  init pg = (Throw SyntaxError, pg).
Proof.
  intros Hslot Hne Hparse. unfold init, mbind, M_bind.
  rewrite loadTasks_run, Hslot. destruct text as [|c text]; [done|].
  rewrite Hparse. by destruct pg.
Qed.

(** X20: when the slot holds JSON that [renderTasks] cannot draw to its
    end, [init] throws [TypeError] after taking the value as the
    collection; no listener is registered and the storage is as it was. *)
Theorem init_on_undrawable_value (text : jsstring) (v : json) (pg : page) :
  localStorage (script pg) !! STORAGE_KEY = Some text ->
  text <> [] ->
  JSON.parse text = Some v ->
  renderable v = false ->
  exists pg',
    init pg = (Throw TypeError, pg')
    /\ listeners pg' = listeners pg
    /\ todos (script pg') = v
    /\ localStorage (script pg') = localStorage (script pg).
Proof.
  intros Hslot Hne Hparse Hbad%drawable_renderable. unfold init, mbind, M_bind.
  rewrite loadTasks_run, Hslot. destruct text as [|c text]; [done|].
  rewrite Hparse.
  pose proof (renderTasks_outcome (with_todos v (script pg))) as Ho.
  destruct (renderTasks_state (with_todos v (script pg))) as [rows Hst].
  cbn [todos with_todos] in Ho. rewrite Hbad in Ho.
  destruct (renderTasks (with_todos v (script pg))) as [o st1].
  cbn [fst snd] in Ho, Hst. subst o st1. by eexists.
Qed.

Lemma run_listeners_one (m : M unit) (st : state) :
  run_listeners [m] st =
    match m st with
    | (Ret _, st') => ([], st')
    | (Throw e, st') => ([e], st')
    end.
Proof. cbn. by destruct (m st) as [[[]|e] st']. Qed.

(** X21: on a page with the three listeners, a key press in the task field
    other than [Enter] changes nothing, and [Enter] does what a click on the
    add button does. *)
Theorem keypress_adds_only_on_enter (key : jsstring) (now : Z) (pg : page) :
  listeners pg = standard_listeners ->
  (key <> str "Enter" -> dispatch (Keypress_taskInput key now) pg = Some ([], pg))
  /\ dispatch (Keypress_taskInput (str "Enter") now) pg
     = dispatch (Click_addTaskBtn now) pg.
Proof.
  intros Hl. unfold dispatch. rewrite Hl. split; [|reflexivity].
  intros Hkey. cbn [omap list_omap standard_listeners callback].
  rewrite bool_decide_eq_false_2 by done. destruct pg. cbn in *. by subst.
Qed.

Lemma row_handlers_rows (C : list Task) (st : state) (row : nat) :
  taskList st = rows_of C st ->
  row_handlers row 0 st =
    match C !! row with
    | Some t => [CallToggleTaskCompletion (Some (JNum (NInt (id t))))]
    | None => []
    end
  /\ row_handlers row 1 st =
       match C !! row with
       | Some t => [CallRemoveTask (Some (JNum (NInt (id t))))]
       | None => []
       end.
Proof.
  intros Hrows. unfold row_handlers. rewrite Hrows. unfold rows_of.
  rewrite map_fmap, list_lookup_fmap. by destruct (C !! row).
Qed.

End Page.

(** ** The page over any sequence of events *)

Section Events.
Context `{Platform}.

Lemma on_page_healthy (C : list Task) (pg : page) (st : state) :
  listeners pg = standard_listeners ->
  todos st = collection_json C ->
  taskList st = rows_of C st ->
  persisted C st ->
  healthy C (on_page pg ([], st)).2.
Proof. done. Qed.

Lemma healthy_mirrored (C : list Task) (pg : page) :
  healthy C pg <-> mirrored C pg /\ persisted C (script pg).
Proof. unfold healthy, mirrored. tauto. Qed.

Lemma on_page_mirrored (C : list Task) (pg : page) (st : state) :
  listeners pg = standard_listeners ->
  todos st = collection_json C ->
  taskList st = rows_of C st ->
  mirrored C (on_page pg ([], st)).2.
Proof. done. Qed.

Lemma committed_persisted (C : list Task) (st : state) :
  js_ids C -> persisted C (committed C st).
Proof. intros Hids. by apply persisted_slot, committed_slot. Qed.

(** What [addTask] leaves on a page whose list mirrors its collection. *)
Lemma addTask_step (now : Z) (C : list Task) (pg : page) :
  mirrored C pg ->
  exists st' C',
    addTask now (script pg) = (Ret tt, st')
    /\ mirrored C' (on_page pg ([], st')).2
    /\ map id C' `sublist_of` map id C ++ [now]
    /\ (js_integers [now] -> persisted C (script pg) -> persisted C' st').
Proof.
  intros (Htodos & Hrows & Hl).
  destruct (trim (taskInput_value (script pg))) as [|c r] eqn:Htrim.
  - rewrite addTask_empty_run by done. eexists _, C.
    split; [reflexivity|]. split; [by apply on_page_mirrored|].
    split; [by apply sublist_inserts_r|]. by intros _ Hstored.
  - rewrite (addTask_run now C) by by rewrite ?Htrim. eexists _, _.
    split; [reflexivity|]. split; [by apply on_page_mirrored|].
    split; [by rewrite map_app|]. intros Hnow Hstored.
    apply (persisted_storage _ _ (committed
             (C ++ [ {| id := now;
                        text := trim (taskInput_value (script pg));
                        completed := false |} ]) (script pg))); [done|].
    apply committed_persisted. unfold js_ids. rewrite map_app.
    apply Forall_app. split; [|done]. by eapply persisted_js_ids.
Qed.

(** One event on a page whose list mirrors its collection reports no
    exception and leaves such a page; the ids it leaves are ids that were
    there, in their order, or the clock reading of the event; and the
    storage holds the collection it leaves when it held the one before and
    the clock reading is a Number value. *)
Lemma dispatch_step (ev : event) (C : list Task) (pg : page) :
  mirrored C pg ->
  exists pg' C',
    dispatch ev pg = Some ([], pg')
    /\ mirrored C' pg'
    /\ map id C' `sublist_of` map id C ++ clock_reading ev
    /\ (js_integers (clock_reading ev) ->
        persisted C (script pg) -> persisted C' (script pg')).
Proof.
  intros Hpg. pose proof Hpg as (Htodos & Hrows & Hl).
  assert (Hsame : map id C `sublist_of` map id C ++ clock_reading ev)
    by by apply sublist_inserts_r.
  assert (Hstay : forall st,
            todos st = collection_json C -> taskList st = rows_of C st ->
            localStorage st = localStorage (script pg) ->
            exists pg' C',
              Some (on_page pg ([], st)) = Some ([], pg')
              /\ mirrored C' pg'
              /\ map id C' `sublist_of` map id C ++ clock_reading ev
              /\ (js_integers (clock_reading ev) ->
                  persisted C (script pg) -> persisted C' (script pg'))).
  { intros st Ht Hr Hs. eexists _, C. split; [reflexivity|].
    split; [by apply on_page_mirrored|]. split; [done|].
    intros _ Hstored. by apply (persisted_storage _ _ (script pg)). }
  assert (Hadd : forall now,
            clock_reading ev = [now] ->
            exists pg' C',
              Some (on_page pg
                      match addTask now (script pg) with
                      | (Ret _, st') => ([], st')
                      | (Throw e, st') => ([e], st')
                      end) = Some ([], pg')
              /\ mirrored C' pg'
              /\ map id C' `sublist_of` map id C ++ clock_reading ev
              /\ (js_integers (clock_reading ev) ->
                  persisted C (script pg) -> persisted C' (script pg'))).
  { intros now ->.
    destruct (addTask_step now C pg Hpg) as (st' & C' & -> & Hm & Hsub & Hp).
    eauto 6. }
  assert (Hcommit : forall C1,
            map id C1 `sublist_of` map id C ->
            exists pg' C',
              Some (on_page pg ([], committed C1 (script pg))) = Some ([], pg')
              /\ mirrored C' pg'
              /\ map id C' `sublist_of` map id C ++ clock_reading ev
              /\ (js_integers (clock_reading ev) ->
                  persisted C (script pg) -> persisted C' (script pg'))).
  { intros C1 Hsub. eexists _, C1. split; [reflexivity|].
    split; [by apply on_page_mirrored|].
    split; [by apply sublist_inserts_r|]. intros _ Hstored.
    apply committed_persisted. eapply js_integers_sublist; [done|].
    by eapply persisted_js_ids. }
  destruct ev as [now|key now|v|v|row|row]; unfold dispatch; rewrite ?Hl.
  - cbn [omap list_omap standard_listeners callback].
    rewrite run_listeners_one. by apply Hadd.
  - cbn [omap list_omap standard_listeners callback].
    rewrite run_listeners_one. case_bool_decide; [by apply Hadd|].
    by apply Hstay.
  - cbn [omap list_omap standard_listeners callback run_listeners].
    by apply Hstay.
  - cbn [omap list_omap standard_listeners callback].
    rewrite run_listeners_one, (renderTasks_collection C) by done.
    by apply Hstay.
  - destruct (row_handlers_rows C (script pg) row Hrows) as [-> _].
    destruct (C !! row) as [t|].
    + cbn [mapM call_handler mbind option_bind mret option_ret].
      rewrite run_listeners_one, (toggleTaskCompletion_run _ C) by done.
      destruct (list_find _ C) as [[i t']|] eqn:Hfind; [|by apply Hstay].
      apply list_find_Some in Hfind as (Hi & _ & _).
      apply Hcommit. by rewrite toggled_ids.
    + cbn [mapM mret option_ret run_listeners]. by apply Hstay.
  - destruct (row_handlers_rows C (script pg) row Hrows) as [_ ->].
    destruct (C !! row) as [t|].
    + cbn [mapM call_handler mbind option_bind mret option_ret].
      rewrite run_listeners_one, (removeTask_run _ C) by done.
      apply Hcommit, filter_ids_sublist.
    + cbn [mapM mret option_ret run_listeners]. by apply Hstay.
Qed.

(** The same over a sequence of events. *)
Lemma dispatch_all_steps (evs : list event) (C : list Task) (pg : page) :
  mirrored C pg ->
  exists pg' C',
    dispatch_all evs pg = Some ([], pg')
    /\ mirrored C' pg'
    /\ map id C' `sublist_of` map id C ++ clock_readings evs
    /\ (js_integers (clock_readings evs) ->
        persisted C (script pg) -> persisted C' (script pg')).
Proof.
  revert C pg. induction evs as [|ev evs IH]; intros C pg Hpg.
  - exists pg, C. split; [done|]. split; [done|].
    split; [by apply sublist_inserts_r|]. by intros _ Hstored.
  - destruct (dispatch_step ev C pg Hpg)
      as (pg1 & C1 & Hev & H1 & Hids & Hp1).
    assert (Hsub : map id C1 ++ flat_map clock_reading evs
                   `sublist_of`
                   (map id C ++ clock_reading ev) ++ flat_map clock_reading evs)
      by by apply sublist_app.
    destruct (IH C1 pg1 H1) as (pg2 & C2 & Hevs & H2 & Hids2 & Hp2).
    exists pg2, C2. split; [|split; [done|split]].
    + cbn [dispatch_all]. rewrite Hev. cbn. rewrite Hevs. done.
    + unfold clock_readings. cbn [flat_map]. rewrite app_assoc.
      by etrans.
    + unfold clock_readings. cbn [flat_map].
      intros [Hev_js Hevs_js]%Forall_app Hstored. auto.
Qed.

(** X23: on a page that [init] started, an edit of the search field redraws
    the list under the new query without an exception and changes neither
    the collection nor the storage; the page stays as [init] left it
    otherwise. *)
Theorem search_input_only_redraws (q : jsstring) (C : list Task) (pg : page) :
  healthy C pg ->
  exists pg',
    dispatch (Input_searchInput q) pg = Some ([], pg')
    /\ healthy C pg'
    /\ searchInput_value (script pg') = q
    /\ localStorage (script pg') = localStorage (script pg)
    /\ taskInput_value (script pg') = taskInput_value (script pg)
    /\ map is_hidden (taskList (script pg'))
       = map (fun t => negb (includes (toLowerCase (text t)) (toLowerCase q))) C.
Proof.
  intros (Htodos & Hrows & Hstored & Hl). unfold dispatch. rewrite Hl.
  cbn [omap list_omap standard_listeners callback].
  rewrite run_listeners_one, (renderTasks_collection C) by done.
  eexists. split; [reflexivity|]. split; [by apply on_page_healthy|].
  split; [done|]. split; [done|]. split; [done|].
  cbn [on_page snd script rendered taskList]. unfold rows_of.
  cbn [searchInput_value with_inputs]. rewrite map_map.
  apply map_ext. intros t. apply row_of_markers.
Qed.

(** X24: on a page whose list and storage mirror a task collection and
    whose three listeners are set, as [init] leaves the page of a saved
    collection, the list and the storage still mirror a task collection
    after any sequence of clicks, key presses and edits during which no
    listener threw, and its ids are ids that were there or readings of the
    clock.  The readings of the clock are Number values, as [Date.now()]
    returns them. *)
Theorem events_keep_the_page_healthy (evs : list event) (C : list Task)
    (pg pg' : page) :
  healthy C pg ->
  js_integers (clock_readings evs) ->
  dispatch_all evs pg = Some ([], pg') ->
  exists C',
    healthy C' pg'
    /\ map id C' `sublist_of` map id C ++ clock_readings evs.
Proof.
  intros [Hpg Hstored]%healthy_mirrored Hjs Hrun.
  destruct (dispatch_all_steps evs C pg Hpg)
    as (pg2 & C2 & Hevs & H2 & Hids & Hp).
  rewrite Hrun in Hevs. injection Hevs as <-. exists C2.
  split; [|done]. apply healthy_mirrored. auto.
Qed.

End Events.

(** ** The further properties at concrete pages *)

Lemma renderTasks_returns_iff_drawable_witness :
  todos demo_page = JArr (map task_json [milk; eggs])
  /\ forallb drawable_task (map task_json [milk; eggs]) = true
  /\ length (taskList (@renderTasks ascii_platform demo_page).2)
     = length (map task_json [milk; eggs])
  /\ drawable (todos stubborn_page) = false
  /\ (@renderTasks ascii_platform stubborn_page).1 = Throw TypeError.
Proof.
  split; [reflexivity|]. split; [vm_compute; reflexivity|].
  split; [|split; [vm_compute; reflexivity|]].
  - exact (proj1 (proj2 (@renderTasks_returns_iff_drawable ascii_platform
                           demo_page))
             (map task_json [milk; eggs]) eq_refl eq_refl).
  - exact (proj1 (@renderTasks_returns_iff_drawable ascii_platform
                    stubborn_page)).
Defined.

Lemma renderTasks_stops_at_bad_element_witness :
  todos broken_page = JArr (map task_json [milk] ++ JNull :: [task_json eggs])
  /\ has_string_text JNull = false
  /\ exists st',
       @renderTasks ascii_platform broken_page = (Throw TypeError, st')
       /\ taskList st' = @rows_of ascii_platform [milk] broken_page
       /\ todos st' = todos broken_page
       /\ localStorage st' = localStorage broken_page.
Proof.
  split; [reflexivity|]. split; [reflexivity|].
  exact (@renderTasks_stops_at_bad_element ascii_platform [milk] JNull
           [task_json eggs] broken_page eq_refl eq_refl).
Defined.

Lemma renderTasks_replaces_the_list_witness :
  todos demo_page = todos (@renderTasks ascii_platform demo_page).2
  /\ (@renderTasks ascii_platform demo_page).1
     = (@renderTasks ascii_platform
          (@renderTasks ascii_platform demo_page).2).1
  /\ taskList (@renderTasks ascii_platform demo_page).2
     = taskList (@renderTasks ascii_platform
                   (@renderTasks ascii_platform demo_page).2).2.
Proof.
  split; [vm_compute; reflexivity|].
  apply (@renderTasks_replaces_the_list ascii_platform demo_page
           (@renderTasks ascii_platform demo_page).2);
    vm_compute; reflexivity.
Defined.

Lemma addTask_stores_trimmed_text_witness :
  trim (taskInput_value demo_page) = str "call mum"
  /\ exists st' t,
       @addTask ascii_platform 1730000000002 demo_page = (Ret tt, st')
       /\ todos st' = collection_json ([milk; eggs] ++ [t])
       /\ (exists pre post,
             taskInput_value demo_page = pre ++ text t ++ post
             /\ white_space pre = true /\ white_space post = true)
       /\ (forall c r, text t = c :: r -> Char.is_trim_space c = false)
       /\ (forall r c, text t = r ++ [c] -> Char.is_trim_space c = false).
Proof.
  split; [vm_compute; reflexivity|].
  apply (@addTask_stores_trimmed_text ascii_platform 1730000000002
           [milk; eggs] demo_page); [reflexivity | vm_compute; discriminate].
Defined.

Lemma addTask_clears_input_and_redraws_witness :
  trim (taskInput_value demo_page) = str "call mum"
  /\ exists st' C',
       @addTask ascii_platform 1730000000002 demo_page = (Ret tt, st')
       /\ todos st' = collection_json C'
       /\ taskInput_value st' = []
       /\ searchInput_value st' = searchInput_value demo_page
       /\ calls st' =
            calls demo_page
            ++ SetItem STORAGE_KEY (JSON.stringify (collection_json C'))
               :: ClearTaskList :: map AppendChild (taskList st')
       /\ length (taskList st') = S (length [milk; eggs])
       /\ exists li span,
            last (taskList st') = Some li
            /\ childNodes li !! 0%nat = Some span
            /\ textContent span = trim (taskInput_value demo_page).
Proof.
  split; [vm_compute; reflexivity|].
  apply (@addTask_clears_input_and_redraws ascii_platform 1730000000002
           [milk; eggs] demo_page); [reflexivity | vm_compute; discriminate].
Defined.

Lemma object_state_not_array (elems : list json) :
  todos object_state <> JArr elems.
Proof. discriminate. Defined.

Lemma mutations_on_non_array_throw_witness :
  trim (taskInput_value object_state) = str "x"
  /\ @addTask ascii_platform 1730000000002 object_state
     = (Throw TypeError, object_state)
  /\ @toggleTaskCompletion ascii_platform (NInt 1730000000000) object_state
     = (Throw TypeError, object_state)
  /\ @removeTask ascii_platform (NInt 1730000000000) object_state
     = (Throw TypeError, object_state).
Proof.
  split; [vm_compute; reflexivity|].
  destruct (@mutations_on_non_array_throw ascii_platform 1730000000002
              (NInt 1730000000000) object_state object_state_not_array)
    as (Hadd & Htoggle & Hremove).
  split; [apply Hadd; vm_compute; discriminate|]. by split.
Defined.

Lemma demo_numbers :
  js_integers (map id [milk; eggs] ++ operation_clock (Add 1730000000002)).
Proof. by_decide. Defined.

Lemma change_is_written_through_and_redrawn_witness :
  @run ascii_platform (Add 1730000000002) demo_page
  = (Ret tt, (@run ascii_platform (Add 1730000000002) demo_page).2)
  /\ exists C',
       todos (@run ascii_platform (Add 1730000000002) demo_page).2
       = collection_json C'
       /\ localStorage
            (@run ascii_platform (Add 1730000000002) demo_page).2
          !! STORAGE_KEY
          = Some (JSON.stringify
                    (todos (@run ascii_platform (Add 1730000000002)
                              demo_page).2))
       /\ persisted C'
            (@run ascii_platform (Add 1730000000002) demo_page).2
       /\ taskList
            (@run ascii_platform (Add 1730000000002) demo_page).2
          = @rows_of ascii_platform C'
              (@run ascii_platform (Add 1730000000002) demo_page).2.
Proof.
  assert (Hrun : @run ascii_platform (Add 1730000000002) demo_page
                 = (Ret tt, (@run ascii_platform (Add 1730000000002)
                               demo_page).2))
    by (vm_compute; reflexivity).
  split; [exact Hrun|].
  destruct (@change_is_written_through_and_redrawn ascii_platform
              (Add 1730000000002) [milk; eggs] demo_page _ eq_refl Hrun)
    as (C' & Htodos & Hslot & Hreload & Hrows); [vm_compute; discriminate|].
  exists C'. split; [exact Htodos|]. split; [exact Hslot|].
  split; [exact (Hreload demo_numbers) | exact Hrows].
Defined.

Lemma add_then_remove_restores_witness :
  (1730000000002%Z ∉ map id [milk; eggs])
  /\ exists st1 st2,
       @addTask ascii_platform 1730000000002 demo_page = (Ret tt, st1)
       /\ @removeTask ascii_platform (NInt 1730000000002) st1 = (Ret tt, st2)
       /\ todos st2 = collection_json [milk; eggs].
Proof.
  assert (Hfresh : 1730000000002%Z ∉ map id [milk; eggs]) by by_decide.
  split; [exact Hfresh|].
  apply (@add_then_remove_restores ascii_platform 1730000000002 [milk; eggs]
           demo_page); [reflexivity | vm_compute; discriminate | exact Hfresh].
Defined.

Lemma nothing_before_milk (x : Task) :
  x ∈ @nil Task -> has_id (NInt 1730000000000) x = false.
Proof. intros Hx. by apply elem_of_nil in Hx. Defined.

Lemma toggle_flips_first_match_witness :
  todos twins_page = collection_json ([] ++ milk :: [milk_again; eggs])
  /\ has_id (NInt 1730000000000) milk = true
  /\ has_id (NInt 1730000000000) milk_again = true
  /\ exists st',
       @toggleTaskCompletion ascii_platform (NInt 1730000000000) twins_page
       = (Ret tt, st')
       /\ todos st'
          = collection_json ([] ++ toggled milk :: [milk_again; eggs]).
Proof.
  split; [reflexivity|]. split; [reflexivity|]. split; [reflexivity|].
  exact (@toggle_flips_first_match ascii_platform (NInt 1730000000000) []
           [milk_again; eggs] milk twins_page eq_refl nothing_before_milk
           eq_refl).
Defined.

Lemma removeTask_removes_all_matching_witness :
  todos twins_page = collection_json [milk; milk_again; eggs]
  /\ exists st' C',
       @removeTask ascii_platform (NInt 1730000000000) twins_page
       = (Ret tt, st')
       /\ todos st' = collection_json C'
       /\ (forall t, t ∈ C' <->
                     t ∈ [milk; milk_again; eggs]
                     /\ has_id (NInt 1730000000000) t = false)
       /\ sublist C' [milk; milk_again; eggs]
       /\ (length C'
           + length (List.filter (has_id (NInt 1730000000000))
                       [milk; milk_again; eggs])
           = length [milk; milk_again; eggs])%nat.
Proof.
  split; [reflexivity|].
  exact (@removeTask_removes_all_matching ascii_platform (NInt 1730000000000)
           [milk; milk_again; eggs] twins_page eq_refl).
Defined.

Lemma removeTask_twice_and_in_either_order_witness :
  todos demo_page = collection_json [milk; eggs]
  /\ exists st1 st2 st3 st4 st5,
       @removeTask ascii_platform (NInt 1730000000000) demo_page
       = (Ret tt, st1)
       /\ @removeTask ascii_platform (NInt 1730000000000) st1 = (Ret tt, st2)
       /\ todos st2 = todos st1
       /\ @removeTask ascii_platform (NInt 1730000000001) st1 = (Ret tt, st3)
       /\ @removeTask ascii_platform (NInt 1730000000001) demo_page
          = (Ret tt, st4)
       /\ @removeTask ascii_platform (NInt 1730000000000) st4 = (Ret tt, st5)
       /\ todos st5 = todos st3.
Proof.
  split; [reflexivity|].
  exact (@removeTask_twice_and_in_either_order ascii_platform
           (NInt 1730000000000) (NInt 1730000000001) [milk; eggs] demo_page
           eq_refl).
Defined.

Lemma demo_ids : js_ids [milk; eggs].
Proof. unfold js_ids. by_decide. Defined.

Lemma rows_have_distinct_dataset_ids_witness :
  unique_ids [milk; eggs]
  /\ js_ids [milk; eggs]
  /\ exists st',
       @renderTasks ascii_platform demo_page = (Ret tt, st')
       /\ NoDup (map dataset_id (taskList st'))
       /\ forall i t, [milk; eggs] !! i = Some t ->
            dataset_id <$> taskList st' !! i = Some (Num.print (NInt (id t))).
Proof.
  assert (Huniq : unique_ids [milk; eggs]) by (unfold unique_ids; by_decide).
  split; [exact Huniq|]. split; [exact demo_ids|].
  exact (@rows_have_distinct_dataset_ids ascii_platform [milk; eggs] demo_page
           eq_refl Huniq demo_ids).
Defined.

(** The texts of the ids on the demo page. *)
Example dataset_ids_of_demo_page :
  map dataset_id (taskList (@renderTasks ascii_platform demo_page).2)
  = [str "1730000000000"; str "1730000000001"].
Proof. vm_compute. reflexivity. Qed.

Lemma milk_in_buy_milk :
  Substring (@toLowerCase ascii_platform (searchInput_value demo_page))
    (@toLowerCase ascii_platform
       (searchInput_value (with_inputs [] (str "Buy MILK") demo_page))).
Proof. exists (str "buy "), []. vm_compute. reflexivity. Defined.

Lemma narrower_search_hides_more_witness :
  is_hidden (@row_of ascii_platform
               (@toLowerCase ascii_platform (str "Buy MILK")) eggs) = true.
Proof.
  apply (@narrower_search_hides_more ascii_platform [milk; eggs] demo_page
           (with_inputs [] (str "Buy MILK") demo_page) eq_refl eq_refl
           milk_in_buy_milk 1%nat
           (@row_of ascii_platform (@toLowerCase ascii_platform (str "Milk"))
              eggs));
    vm_compute; reflexivity.
Defined.

Lemma other_key_is_not_the_slot : str "theme" <> STORAGE_KEY.
Proof. vm_compute. discriminate. Defined.

Lemma operations_touch_only_their_slot_witness :
  localStorage (@run ascii_platform (Add 1730000000002) demo_page).2
    !! str "theme"
  = localStorage demo_page !! str "theme"
  /\ searchInput_value (@run ascii_platform (Add 1730000000002) demo_page).2
     = searchInput_value demo_page.
Proof.
  exact (@operations_touch_only_their_slot ascii_platform
           (Add 1730000000002) demo_page (str "theme")
           other_key_is_not_the_slot).
Defined.


Ltac by_loading := eexists; split; vm_compute; reflexivity.

Lemma stored_page_persisted : persisted [milk; eggs] (script stored_page).
Proof. by_loading. Defined.

Lemma started_page_healthy : @healthy ascii_platform [milk; eggs] started_page.
Proof.
  split; [vm_compute; reflexivity|]. split; [vm_compute; reflexivity|].
  split; [by_loading | reflexivity].
Defined.

Lemma init_starts_the_page_witness :
  listeners stored_page = []
  /\ exists pg',
       @init ascii_platform stored_page = (Ret tt, pg')
       /\ @healthy ascii_platform [milk; eggs] pg'
       /\ localStorage (script pg') = localStorage (script stored_page).
Proof.
  split; [reflexivity|].
  exact (@init_starts_the_page ascii_platform [milk; eggs] stored_page
           stored_page_persisted eq_refl).
Defined.

Lemma init_on_corrupt_slot_witness :
  localStorage (script truncated_site) !! STORAGE_KEY = Some (str "[1,")
  /\ JSON.parse (str "[1,") = None
  /\ @init ascii_platform truncated_site = (Throw SyntaxError, truncated_site).
Proof.
  split; [reflexivity|]. split; [vm_compute; reflexivity|].
  apply (@init_on_corrupt_slot ascii_platform (str "[1,") truncated_site);
    [reflexivity | discriminate | vm_compute; reflexivity].
Defined.

Lemma init_on_undrawable_value_witness :
  JSON.parse (str "{}") = Some (JObj [])
  /\ renderable (JObj []) = false
  /\ exists pg',
       @init ascii_platform object_site = (Throw TypeError, pg')
       /\ listeners pg' = listeners object_site
       /\ todos (script pg') = JObj []
       /\ localStorage (script pg') = localStorage (script object_site).
Proof.
  split; [vm_compute; reflexivity|]. split; [reflexivity|].
  apply (@init_on_undrawable_value ascii_platform (str "{}") (JObj [])
           object_site);
    [reflexivity | discriminate | vm_compute; reflexivity | reflexivity].
Defined.

Lemma key_a_is_not_enter : str "a" <> str "Enter".
Proof. vm_compute. discriminate. Defined.

Lemma keypress_adds_only_on_enter_witness :
  listeners started_page = standard_listeners
  /\ @dispatch ascii_platform (Keypress_taskInput (str "a") 1730000000005)
       started_page = Some ([], started_page)
  /\ @dispatch ascii_platform
       (Keypress_taskInput (str "Enter") 1730000000005) started_page
     = @dispatch ascii_platform (Click_addTaskBtn 1730000000005) started_page.
Proof.
  split; [reflexivity|].
  destruct (@keypress_adds_only_on_enter ascii_platform (str "a")
              1730000000005 started_page eq_refl) as [Hother _].
  destruct (@keypress_adds_only_on_enter ascii_platform (str "Enter")
              1730000000005 started_page eq_refl) as [_ Henter].
  split; [exact (Hother key_a_is_not_enter) | exact Henter].
Defined.


Lemma search_input_only_redraws_witness :
  exists pg',
    @dispatch ascii_platform (Input_searchInput (str "EGG")) started_page
    = Some ([], pg')
    /\ @healthy ascii_platform [milk; eggs] pg'
    /\ searchInput_value (script pg') = str "EGG"
    /\ localStorage (script pg') = localStorage (script started_page)
    /\ taskInput_value (script pg') = taskInput_value (script started_page)
    /\ map is_hidden (taskList (script pg'))
       = map (fun t => negb (includes (@toLowerCase ascii_platform (text t))
                                      (@toLowerCase ascii_platform (str "EGG"))))
           [milk; eggs].
Proof.
  exact (@search_input_only_redraws ascii_platform (str "EGG") [milk; eggs]
           started_page started_page_healthy).
Defined.


Lemma session_numbers : js_integers (clock_readings session).
Proof. by_decide. Defined.

Lemma session_runs :
  @dispatch_all ascii_platform session started_page = Some ([], finished_page).
Proof. vm_compute. reflexivity. Defined.

Lemma events_keep_the_page_healthy_witness :
  exists C',
    @healthy ascii_platform C' finished_page
    /\ map id C' `sublist_of` map id [milk; eggs] ++ clock_readings session.
Proof.
  exact (@events_keep_the_page_healthy ascii_platform session [milk; eggs]
           started_page finished_page started_page_healthy session_numbers
           session_runs).
Defined.


(** The session run on the started page: the search hides the eggs, the
    cat is added under the reading of the [Enter] key press and toggled, the
    milk is removed, and the last click adds nothing since the task field is
    empty. *)
Example session_on_started_page :
  match @dispatch_all ascii_platform session started_page with
  | Some (reported, pg) =>
      reported = []
      /\ todos (script pg) =
           collection_json
             [ eggs;
               {| id := 1730000000006; text := str "feed cat";
                  completed := true |} ]
      /\ map is_hidden (taskList (script pg)) = [true; true]
      /\ localStorage (script pg) !! STORAGE_KEY
         = Some (JSON.stringify (todos (script pg)))
  | None => False
  end.
Proof. vm_compute. repeat apply conj; reflexivity. Qed.
